(** * CDN geo-restriction manager: setup resolution, reconciliation, editor

    A shallow embedding of [cdn_geo_restriction_manager.py]
    (class [CloudFrontGeoRestrictionManager]) and the properties of its
    setup -> region -> country resolution, of the whitelist / blacklist
    check, of the interactive list editor and of the two CloudFront calls.

    Conventions of the embedding:
    - Python [str] is [string] (a list of 8-bit characters); the case
      conversions and [strip] below are Python's on the ASCII range, other
      code points are left as they are;
    - a Python [dict] is an association list in insertion order, a Python
      [list] is a [list]; in-place mutation of a list argument is the
      returned list;
    - [print] and [logger] calls are not modelled; [input()] is a parameter
      holding the line the operator typed;
    - an exception that a method catches to return [False] / [None] is the
      [None] of an [option]. *)

From Stdlib Require Import List String Ascii Bool Arith ZArith Lia.
Import ListNotations.

Local Open Scope string_scope.
Local Open Scope list_scope.

Infix "+++" := String.append (right associativity, at level 60).

(* ================================================================== *)
(** ** Python primitives *)

Module Py.

(** [x in xs] for a list of strings. *)
Definition mem (x : string) (xs : list string) : bool :=
  existsb (String.eqb x) xs.

(** Truth value of a string: the empty string is falsy. *)
Definition nonempty (s : string) : bool :=
  match s with EmptyString => false | String _ _ => true end.

(** Truth value of [d.get(key)] when the stored values are strings:
    [None] and the empty string are falsy. *)
Definition truthy (o : option string) : bool :=
  match o with Some s => nonempty s | None => false end.

(** [needle in hay] for two strings: [needle] occurs in [hay]. *)
Fixpoint is_substring (needle hay : string) : bool :=
  String.prefix needle hay ||
  match hay with
  | EmptyString => false
  | String _ rest => is_substring needle rest
  end.

(** [s.replace("-gke", EMPTY)]: every occurrence, scanning left to right
    without overlap, is removed. *)
Fixpoint replace_gke (s : string) : string :=
  match s with
  | String "-" (String "g" (String "k" (String "e" rest))) => replace_gke rest
  | String c rest => String c (replace_gke rest)
  | EmptyString => EmptyString
  end.

Definition upper_char (c : ascii) : ascii :=
  let n := nat_of_ascii c in
  if ((97 <=? n) && (n <=? 122))%nat then ascii_of_nat (n - 32) else c.

Definition lower_char (c : ascii) : ascii :=
  let n := nat_of_ascii c in
  if ((65 <=? n) && (n <=? 90))%nat then ascii_of_nat (n + 32) else c.

Fixpoint upper (s : string) : string :=
  match s with
  | EmptyString => EmptyString
  | String c rest => String (upper_char c) (upper rest)
  end.

Fixpoint lower (s : string) : string :=
  match s with
  | EmptyString => EmptyString
  | String c rest => String (lower_char c) (lower rest)
  end.

(** [str.isspace] on one ASCII character: TAB, LF, VT, FF, CR, the four
    separators FS GS RS US, and the blank. *)
Definition is_space (c : ascii) : bool :=
  let n := nat_of_ascii c in
  (((9 <=? n) && (n <=? 13)) || ((28 <=? n) && (n <=? 32)))%nat.

Fixpoint lstrip (s : string) : string :=
  match s with
  | EmptyString => EmptyString
  | String c rest => if is_space c then lstrip rest else s
  end.

Fixpoint rstrip (s : string) : string :=
  match s with
  | EmptyString => EmptyString
  | String c rest =>
      let rest' := rstrip rest in
      if is_space c && negb (nonempty rest') then EmptyString
      else String c rest'
  end.

Definition strip (s : string) : string := rstrip (lstrip s).

(** [xs.remove(x)]: the first occurrence goes (the caller makes sure there
    is one). *)
Fixpoint remove_first (x : string) (xs : list string) : list string :=
  match xs with
  | [] => []
  | y :: rest => if String.eqb y x then rest else y :: remove_first x rest
  end.

(** A [dict] with string keys, in insertion order. *)
Definition dict (V : Type) : Type := list (string * V).

Fixpoint get {V : Type} (k : string) (d : dict V) : option V :=
  match d with
  | [] => None
  | (k', v) :: rest => if String.eqb k' k then Some v else get k rest
  end.

(** [k in d]. *)
Definition has_key {V : Type} (k : string) (d : dict V) : bool :=
  match get k d with Some _ => true | None => false end.

(** [d[k] = v]: an existing key keeps its place, a new one goes last. *)
Fixpoint set {V : Type} (k : string) (v : V) (d : dict V) : dict V :=
  match d with
  | [] => [(k, v)]
  | (k', v') :: rest =>
      if String.eqb k' k then (k', v) :: rest else (k', v') :: set k v rest
  end.

(** [del d[k]] for a key that is present: no entry with that key stays. *)
Definition del {V : Type} (k : string) (d : dict V) : dict V :=
  filter (fun kv => negb (String.eqb (fst kv) k)) d.

(** What an f-string prints for the result of [d.get(key)]. *)
Definition str_of (o : option string) : string :=
  match o with Some s => s | None => "None" end.

End Py.

(* ================================================================== *)
(** ** JSON-like values

    What [json.load] and [response.json()] return: nested mappings,
    sequences and scalars.  Numbers are kept as integers; no operation of
    the manager looks inside a number. *)

#[local] Unset Elimination Schemes.

Inductive json : Type :=
| JNull
| JBool (b : bool)
| JNum (n : Z)
| JStr (s : string)
| JList (items : list json)
| JDict (members : list (string * json)).

#[local] Set Elimination Schemes.

(** [extract_setup_values(data, setup_values)] with the accumulator list
    given: the list is mutated in place by the recursive calls, so it is
    threaded through them. *)
Fixpoint extract_setup_values_acc (data : json) (setup_values : list string)
  : list string :=
  match data with
  | JDict members =>
      (fix over_items (kvs : list (string * json)) (acc : list string)
         : list string :=
         match kvs with
         | [] => acc
         | (key, value) :: rest =>
             over_items rest
               match value with
               | JStr s => if String.eqb key "setup" then acc ++ [s] else acc
               | JDict _ | JList _ => extract_setup_values_acc value acc
               | _ => acc
               end
         end) members setup_values
  | JList items =>
      (fix over_list (xs : list json) (acc : list string) : list string :=
         match xs with
         | [] => acc
         | item :: rest => over_list rest (extract_setup_values_acc item acc)
         end) items setup_values
  | _ => setup_values
  end.

(** [extract_setup_values(data)]: the default [setup_values=None] starts a
    fresh list on every top-level call. *)
Definition extract_setup_values (data : json) : list string :=
  extract_setup_values_acc data [].

(** The spec's reading of setup extraction.  [members_of t] lists every
    key / value pair of every mapping of the tree, in the order a
    depth-first walk first meets them; [setup_strings t] keeps the values
    of the pairs whose key is [setup] and whose value is a string. *)
Fixpoint members_of (t : json) : list (string * json) :=
  match t with
  | JDict members =>
      (fix members_of_items (kvs : list (string * json)) :=
         match kvs with
         | [] => []
         | (key, value) :: rest =>
             (key, value) :: members_of value ++ members_of_items rest
         end) members
  | JList items =>
      (fix members_of_list (xs : list json) :=
         match xs with
         | [] => []
         | item :: rest => members_of item ++ members_of_list rest
         end) items
  | _ => []
  end.

Definition setup_string_of (kv : string * json) : list string :=
  match kv with
  | (key, JStr s) => if String.eqb key "setup" then [s] else []
  | _ => []
  end.

Definition setup_strings (t : json) : list string :=
  flat_map setup_string_of (members_of t).

(* ================================================================== *)
(** ** Cluster registry and setup resolution *)

(** One entry of [cluster_regions.json]; each field is read with
    [cluster_info.get(...)], so each may be absent. *)
Record ClusterInfo : Type := mkClusterInfo {
  region : option string;
  location : option string;
  country : option string
}.

(** [self.cluster_regions]: the two provider partitions, each a dict in
    file order.  A missing partition is read as the empty dict. *)
Record ClusterRegions : Type := mkClusterRegions {
  aws_eks_clusters : Py.dict ClusterInfo;
  gcp_gke_clusters : Py.dict ClusterInfo
}.

(** The f-string [f"{base_name} (mapped to {cluster_name})"]. *)
Definition mapped_label (base_name cluster_name : string) : string :=
  base_name +++ " (mapped to " +++ cluster_name +++ ")".

(** Body of the loop over the AWS partition; the state is
    [(regions["aws"], found_setups)]. *)
Definition aws_cluster_step (setup_values : list string)
    (st : list string * list string) (c : string * ClusterInfo)
  : list string * list string :=
  let '(cluster_name, cluster_info) := c in
  if Py.mem cluster_name setup_values then
    match region cluster_info with
    | Some r =>
        if Py.nonempty r then (fst st ++ [r], snd st ++ [cluster_name]) else st
    | None => st
    end
  else st.

(** Body of the loop over the GCP partition: exact match first, otherwise
    the key with [-gke] removed; the state is
    [(regions["gcp"], found_setups)]. *)
Definition gcp_cluster_step (setup_values : list string)
    (st : list string * list string) (c : string * ClusterInfo)
  : list string * list string :=
  let '(cluster_name, cluster_info) := c in
  if Py.mem cluster_name setup_values then
    match region cluster_info with
    | Some r =>
        if Py.nonempty r then (fst st ++ [r], snd st ++ [cluster_name]) else st
    | None => st
    end
  else
    let base_name := Py.replace_gke cluster_name in
    if Py.mem base_name setup_values then
      match region cluster_info with
      | Some r =>
          if Py.nonempty r
          then (fst st ++ [r], snd st ++ [mapped_label base_name cluster_name])
          else st
      | None => st
      end
    else st.

(** The test of the last loop: [setup not in found_setups and not
    any(setup in found for found in found_setups)]; the second [in] is the
    substring test between two strings. *)
Definition is_not_found (found_setups : list string) (setup : string) : bool :=
  negb (Py.mem setup found_setups) &&
  negb (existsb (Py.is_substring setup) found_setups).

(** What one run of [get_regions_for_setups] computes. *)
Record SetupResolution : Type := mkSetupResolution {
  regions_aws : list string;
  regions_gcp : list string;
  res_found_setups : list string;
  res_not_found_setups : list string
}.

Definition resolve_setups (cr : ClusterRegions) (setup_values : list string)
  : SetupResolution :=
  let after_aws :=
    fold_left (aws_cluster_step setup_values) (aws_eks_clusters cr) ([], []) in
  let after_gcp :=
    fold_left (gcp_cluster_step setup_values) (gcp_gke_clusters cr)
              ([], snd after_aws) in
  let found_setups := snd after_gcp in
  {| regions_aws := fst after_aws;
     regions_gcp := fst after_gcp;
     res_found_setups := found_setups;
     res_not_found_setups := filter (is_not_found found_setups) setup_values |}.

(** The returned dict [{"aws": [...], "gcp": [...]}]. *)
Definition regions_dict (r : SetupResolution) : Py.dict (list string) :=
  [("aws", regions_aws r); ("gcp", regions_gcp r)].

(** What one run of [get_countries_for_regions] computes: the returned
    list and the two diagnostic lists. *)
Record CountryResolution : Type := mkCountryResolution {
  res_countries : list string;
  res_found_locations : list string;
  res_missing_country_clusters : list string
}.

(** [self.cluster_regions.get(...)] chosen by [cloud_type]: every key
    other than [aws] reads the GCP partition. *)
Definition clusters_for (cr : ClusterRegions) (cloud_type : string)
  : Py.dict ClusterInfo :=
  if String.eqb cloud_type "aws" then aws_eks_clusters cr
  else gcp_gke_clusters cr.

(** [cluster_info.get("region") == region]. *)
Definition region_is (cluster_info : ClusterInfo) (r : string) : bool :=
  match region cluster_info with
  | Some r' => String.eqb r' r
  | None => false
  end.

(** Body of the innermost loop of [get_countries_for_regions]. *)
Definition country_cluster_step (r : string) (st : CountryResolution)
    (c : string * ClusterInfo) : CountryResolution :=
  let '(cluster_name, cluster_info) := c in
  if region_is cluster_info r then
    let loc := location cluster_info in
    let ctry := country cluster_info in
    if Py.truthy loc && Py.truthy ctry then
      {| res_countries :=
           if Py.mem (Py.str_of ctry) (res_countries st)
           then res_countries st
           else res_countries st ++ [Py.str_of ctry];
         res_found_locations :=
           res_found_locations st ++ [r +++ " (" +++ Py.str_of loc +++ ")"];
         res_missing_country_clusters := res_missing_country_clusters st |}
    else if Py.truthy loc && negb (Py.truthy ctry) then
      {| res_countries := res_countries st;
         res_found_locations := res_found_locations st;
         res_missing_country_clusters :=
           res_missing_country_clusters st
           ++ [cluster_name +++ " (" +++ Py.str_of loc +++ ")"] |}
    else if negb (Py.truthy loc) then
      {| res_countries := res_countries st;
         res_found_locations := res_found_locations st;
         res_missing_country_clusters :=
           res_missing_country_clusters st
           ++ [cluster_name +++ " (no location)"] |}
    else st
  else st.

(** The loop over one region: every cluster of the partition. *)
Definition country_region_step (clusters : Py.dict ClusterInfo)
    (st : CountryResolution) (r : string) : CountryResolution :=
  fold_left (country_cluster_step r) clusters st.

(** The loop over one item of [regions.items()]. *)
Definition country_cloud_step (cr : ClusterRegions) (st : CountryResolution)
    (item : string * list string) : CountryResolution :=
  let '(cloud_type, region_list) := item in
  fold_left (country_region_step (clusters_for cr cloud_type)) region_list st.

Definition resolve_countries (cr : ClusterRegions)
    (regions : Py.dict (list string)) : CountryResolution :=
  fold_left (country_cloud_step cr) regions
    {| res_countries := [];
       res_found_locations := [];
       res_missing_country_clusters := [] |}.

(* ================================================================== *)
(** ** The manager instance and the two resolver methods

    The resolver methods leave their diagnostics on the instance; an
    attribute that was never assigned ([hasattr] is false) is [None]. *)

Record Manager : Type := mkManager {
  country_codes : Py.dict string;
  cluster_regions : ClusterRegions;
  found_setups : option (list string);
  not_found_setups : option (list string);
  found_locations : option (list string);
  missing_country_clusters : option (list string)
}.

Definition get_regions_for_setups (self : Manager) (setup_values : list string)
  : Py.dict (list string) * Manager :=
  let r := resolve_setups (cluster_regions self) setup_values in
  (regions_dict r,
   {| country_codes := country_codes self;
      cluster_regions := cluster_regions self;
      found_setups := Some (res_found_setups r);
      not_found_setups := Some (res_not_found_setups r);
      found_locations := found_locations self;
      missing_country_clusters := missing_country_clusters self |}).

Definition get_countries_for_regions (self : Manager)
    (regions : Py.dict (list string)) : list string * Manager :=
  let r := resolve_countries (cluster_regions self) regions in
  (res_countries r,
   {| country_codes := country_codes self;
      cluster_regions := cluster_regions self;
      found_setups := found_setups self;
      not_found_setups := not_found_setups self;
      found_locations := Some (res_found_locations r);
      missing_country_clusters := Some (res_missing_country_clusters r) |}).

(** The resolution part of [check_channel_whitelist_status]: extraction,
    the early return when no setup value was found, then the two resolver
    calls.  [None] is that early return. *)
Definition resolve_channel (self : Manager) (delivery_details : json)
  : option (list string * Py.dict (list string) * list string) * Manager :=
  let setup_values := extract_setup_values delivery_details in
  match setup_values with
  | [] => (None, self)
  | _ :: _ =>
      let '(regions, self1) := get_regions_for_setups self setup_values in
      let '(countries, self2) := get_countries_for_regions self1 regions in
      (Some (setup_values, regions, countries), self2)
  end.

(* ================================================================== *)
(** ** The whitelist / blacklist check *)

(** [geo_restrictions['distribution_level']]: both keys are read with
    [.get] and a default. *)
Record GeoRestriction : Type := mkGeoRestriction {
  RestrictionType : option string;
  Items : option (list string)
}.

(** The lists the check builds and warns about:
    [(missing_countries, blocked_countries)]; a branch that does not build
    a list leaves it empty. *)
Definition check_restrictions (dist_restrictions : GeoRestriction)
    (countries : list string) : list string * list string :=
  let restriction_type :=
    match RestrictionType dist_restrictions with
    | Some t => t
    | None => "none"
    end in
  let allowed_countries :=
    match Items dist_restrictions with Some l => l | None => [] end in
  if String.eqb restriction_type "whitelist" then
    (filter (fun c => negb (Py.mem c allowed_countries)) countries, [])
  else if String.eqb restriction_type "blacklist" then
    ([], filter (fun c => Py.mem c allowed_countries) countries)
  else ([], []).

(* ================================================================== *)
(** ** The interactive editor: adding and removing a country *)

(** [_load_country_codes_reverse]: the comprehension
    [{v.lower(): k for k, v in country_codes.items()}]; a later pair
    overwrites an earlier one with the same lower-cased name. *)
Definition _load_country_codes_reverse (country_codes : Py.dict string)
  : Py.dict string :=
  fold_left (fun acc kv => Py.set (Py.lower (snd kv)) (fst kv) acc)
            country_codes [].

(** [confirm in ['yes', 'y']] after [.strip().lower()]. *)
Definition confirmed (line : string) : bool :=
  Py.mem (Py.lower (Py.strip line)) ["yes"; "y"].

(** The first half of [_add_country_to_list]: the typed line is stripped
    and upper-cased, an empty line returns at once, then the code is looked
    up.  [None] is the two early returns (nothing entered, not found),
    [Some code] is the value of [country_code] after the lookup. *)
Definition add_country_lookup (country_codes reverse_codes : Py.dict string)
    (line : string) : option string :=
  let country_input := Py.upper (Py.strip line) in
  if negb (Py.nonempty country_input) then None
  else if Py.has_key country_input country_codes then Some country_input
  else Py.get (Py.lower country_input) reverse_codes.

(** [_add_country_to_list]: [line] is the answer to the first prompt,
    [confirm] the answer to the yes/no prompt (read only when the prompt
    is reached).  The result is [current_items] after the call. *)
Definition _add_country_to_list (current_items : list string)
    (country_codes reverse_codes : Py.dict string) (line confirm : string)
  : list string :=
  match add_country_lookup country_codes reverse_codes line with
  | None => current_items
  | Some country_code =>
      if Py.mem country_code current_items then current_items
      else if confirmed confirm then current_items ++ [country_code]
      else current_items
  end.

(** [country_codes.get(code, code)]. *)
Definition display_name (country_codes : Py.dict string) (code : string)
  : string :=
  match Py.get code country_codes with Some name => name | None => code end.

(** The [for code in current_items: ... break] search by name: the first
    listed code whose display name contains the choice, both lower-cased. *)
Fixpoint first_name_match (country_codes : Py.dict string) (choice : string)
    (items : list string) : option string :=
  match items with
  | [] => None
  | code :: rest =>
      if Py.is_substring (Py.lower choice)
                         (Py.lower (display_name country_codes code))
      then Some code
      else first_name_match country_codes choice rest
  end.

(** The value of [country_to_remove] after the search, for the stripped
    line [choice]. *)
Definition find_country_to_remove (current_items : list string)
    (country_codes : Py.dict string) (choice : string) : option string :=
  if Py.mem (Py.upper choice) current_items then Some (Py.upper choice)
  else first_name_match country_codes choice current_items.

(** [_remove_country_from_list]: [line] answers the first prompt,
    [confirm] the yes/no prompt.  The result is [current_items] after the
    call. *)
Definition _remove_country_from_list (current_items : list string)
    (country_codes : Py.dict string) (line confirm : string) : list string :=
  match current_items with
  | [] => current_items
  | _ :: _ =>
      let choice := Py.strip line in
      if negb (Py.nonempty choice) then current_items
      else
        let country_to_remove :=
          find_country_to_remove current_items country_codes choice in
        if Py.truthy country_to_remove then
          if confirmed confirm
          then Py.remove_first (Py.str_of country_to_remove) current_items
          else current_items
        else current_items
  end.

(* ================================================================== *)
(** ** The CloudFront client and the two methods that call it *)

(** How a call to the provider ends: a response, a [ClientError] with the
    [Code] of its [Error] entry (absent: the default [Unknown] applies), or
    any other exception. *)
Inductive api_result (A : Type) : Type :=
| Returned (response : A)
| ClientError (code : option string)
| OtherError.

Arguments Returned {A} response.
Arguments ClientError {A} code.
Arguments OtherError {A}.

(** One boto3 client, as the answers it gives. *)
Record Client : Type := mkClient {
  get_distribution : json -> api_result (Py.dict json);
  update_distribution :
    json -> Py.dict json -> json -> api_result (Py.dict json)
}.

(** The calls a method makes, in order, with the account whose client was
    used. *)
Inductive api_call : Type :=
| CallGet (account_name : string) (Id : json)
| CallUpdate (account_name : string) (Id : json)
             (DistributionConfig : Py.dict json) (IfMatch : json).

Definition error_code_of (code : option string) : string :=
  match code with Some c => c | None => "Unknown" end.

(** The [for account_name, client in self.clients.items()] loop of
    [get_distribution_info]: the result and the calls made. *)
Fixpoint scan_accounts (distribution_id : string) (clients : Py.dict Client)
  : option (string * json) * list api_call :=
  match clients with
  | [] => (None, [])
  | (account_name, client) :: rest =>
      let call := CallGet account_name (JStr distribution_id) in
      let continue :=
        let '(r, calls) := scan_accounts distribution_id rest in
        (r, call :: calls) in
      match get_distribution client (JStr distribution_id) with
      | Returned response =>
          match Py.get "Distribution" response with
          | None => continue
          | Some d => (Some (account_name, d), [call])
          end
      | ClientError code =>
          let error_code := error_code_of code in
          if String.eqb error_code "NoSuchDistribution" then continue
          else if String.eqb error_code "AccessDenied" then continue
          else if String.eqb error_code "InvalidArgument" then (None, [call])
          else continue
      | OtherError => continue
      end
  end.

(** [get_distribution_info]: [Some (account, distribution)] is the returned
    dict, [None] is [None]. *)
Definition get_distribution_info (clients : Py.dict Client)
    (distribution_id : string) : option (string * json) * list api_call :=
  if negb (Py.nonempty distribution_id)
     || negb (Py.nonempty (Py.strip distribution_id))
  then (None, [])
  else scan_accounts distribution_id clients.

(** The distribution held since the start of the session:
    [distribution_info['account']], and of
    [distribution_info['distribution']] the two entries the update reads,
    [Id] and [DistributionConfig] (a mapping in every response). *)
Record DistributionInfo : Type := mkDistributionInfo {
  account : string;
  distribution_Id : json;
  distribution_config : Py.dict json
}.

(** [key in v] for an arbitrary value [v]; [None] is the [TypeError] of a
    value that is no container. *)
Definition json_contains (key : string) (v : json) : option bool :=
  match v with
  | JDict d => Some (Py.has_key key d)
  | JList l =>
      Some (existsb (fun x => match x with
                              | JStr s => String.eqb s key
                              | _ => false
                              end) l)
  | JStr s => Some (Py.is_substring key s)
  | _ => None
  end.

(** Truth value of an arbitrary value. *)
Definition json_truthy (v : json) : bool :=
  match v with
  | JNull => false
  | JBool b => b
  | JNum n => negb (Z.eqb n 0)
  | JStr s => Py.nonempty s
  | JList l => match l with [] => false | _ :: _ => true end
  | JDict d => match d with [] => false | _ :: _ => true end
  end.

(** The dict written under [GeoRestriction]. *)
Definition geo_restriction_value (restriction_type : string)
    (items : list string) : json :=
  JDict [("RestrictionType", JStr restriction_type);
         ("Quantity", JNum (Z.of_nat (List.length items)));
         ("Items", JList (map JStr items))].

(** The block [# Update geo restrictions] of [_apply_changes_to_cloudfront]
    on [config], the shallow copy of the held [DistributionConfig].
    The result is [(config, held)]: the copy that will be submitted, and
    the held [DistributionConfig] afterwards.  The two share the dict
    stored under [Restrictions], so a change inside that dict shows in
    both, while adding or deleting the key [Restrictions] itself touches
    the copy only.  [None] is an exception ([TypeError]) raised by a
    [Restrictions] value that is not a dict. *)
Definition update_geo_restrictions (held : Py.dict json)
    (restriction_type : string) (items : list string)
  : option (Py.dict json * Py.dict json) :=
  if String.eqb restriction_type "none" then
    match Py.get "Restrictions" held with
    | None => Some (held, held)
    | Some v =>
        match json_contains "GeoRestriction" v with
        | None => None
        | Some true =>
            match v with
            | JDict d =>
                let d' := Py.del "GeoRestriction" d in
                let held' := Py.set "Restrictions" (JDict d') held in
                match d' with
                | [] => Some (Py.del "Restrictions" held', held')
                | _ :: _ => Some (held', held')
                end
            | _ => None
            end
        | Some false =>
            if json_truthy v then Some (held, held)
            else Some (Py.del "Restrictions" held, held)
        end
    end
  else
    let geo := geo_restriction_value restriction_type items in
    match Py.get "Restrictions" held with
    | None =>
        Some (Py.set "Restrictions" (JDict [("GeoRestriction", geo)]) held,
              held)
    | Some (JDict d) =>
        let held' :=
          Py.set "Restrictions" (JDict (Py.set "GeoRestriction" geo d)) held in
        Some (held', held')
    | Some _ => None
    end.

(** [_apply_changes_to_cloudfront]: the returned boolean, the calls made
    to the provider, and [distribution_info] afterwards. *)
Definition _apply_changes_to_cloudfront (clients : Py.dict Client)
    (distribution_info : DistributionInfo) (restriction_type : string)
    (items : list string) : bool * list api_call * DistributionInfo :=
  let account_name := account distribution_info in
  match Py.get account_name clients with
  | None => (false, [], distribution_info)
  | Some client =>
      match update_geo_restrictions (distribution_config distribution_info)
                                    restriction_type items with
      | None => (false, [], distribution_info)
      | Some (config, held') =>
          let info' :=
            {| account := account_name;
               distribution_Id := distribution_Id distribution_info;
               distribution_config := held' |} in
          let distribution_id := distribution_Id distribution_info in
          let get_call := CallGet account_name distribution_id in
          match get_distribution client distribution_id with
          | Returned current_dist =>
              match Py.get "ETag" current_dist with
              | None => (false, [get_call], info')
              | Some etag =>
                  let update_call :=
                    CallUpdate account_name distribution_id config etag in
                  match update_distribution client distribution_id config etag
                  with
                  | Returned _ => (true, [get_call; update_call], info')
                  | _ => (false, [get_call; update_call], info')
                  end
              end
          | _ => (false, [get_call], info')
          end
      end
  end.

(** A key of the dict stored under [Restrictions]; a missing or non-dict
    [Restrictions] has no key. *)
Definition restrictions_get (key : string) (config : Py.dict json)
  : option json :=
  match Py.get "Restrictions" config with
  | Some (JDict d) => Py.get key d
  | _ => None
  end.

(** The record type of the spec, read off the stored type string. *)
Inductive restriction_kind : Type := NONE | ALLOW_LIST | BLOCK_LIST.

Definition kind_of (dist_restrictions : GeoRestriction) : restriction_kind :=
  match RestrictionType dist_restrictions with
  | Some t =>
      if String.eqb t "whitelist" then ALLOW_LIST
      else if String.eqb t "blacklist" then BLOCK_LIST
      else NONE
  | None => NONE
  end.

Definition items_of (dist_restrictions : GeoRestriction) : list string :=
  match Items dist_restrictions with Some l => l | None => [] end.

(** Structural induction on [json] through its two nested lists. *)
Section JsonInduction.

Variable P : json -> Prop.
Hypothesis P_null : P JNull.
Hypothesis P_bool : forall b, P (JBool b).
Hypothesis P_num : forall n, P (JNum n).
Hypothesis P_str : forall s, P (JStr s).
Hypothesis P_list : forall items, Forall P items -> P (JList items).
Hypothesis P_dict :
  forall members, Forall (fun kv => P (snd kv)) members -> P (JDict members).

Fixpoint json_induction (t : json) : P t :=
  match t with
  | JNull => P_null
  | JBool b => P_bool b
  | JNum n => P_num n
  | JStr s => P_str s
  | JList items =>
      P_list items
        ((fix all (xs : list json) : Forall P xs :=
            match xs with
            | [] => Forall_nil P
            | x :: rest => Forall_cons x (json_induction x) (all rest)
            end) items)
  | JDict members =>
      P_dict members
        ((fix all (kvs : list (string * json))
            : Forall (fun kv => P (snd kv)) kvs :=
            match kvs with
            | [] => Forall_nil _
            | kv :: rest =>
                Forall_cons kv (json_induction (snd kv)) (all rest)
            end) members)
  end.

End JsonInduction.

(** The two matching rules of the spec for one setup identifier: an exact
    key of either partition, or a GCP key that equals it once [-gke] is
    removed. *)
Definition setup_matches (cr : ClusterRegions) (setup : string) : bool :=
  Py.has_key setup (aws_eks_clusters cr)
  || Py.has_key setup (gcp_gke_clusters cr)
  || existsb (fun kv => String.eqb (Py.replace_gke (fst kv)) setup)
             (gcp_gke_clusters cr).

(** The region one GCP entry adds to the region list: the same for an
    exact match and for a match of the shortened key. *)
Definition gcp_matched_region (setup_values : list string)
    (c : string * ClusterInfo) : list string :=
  if Py.mem (fst c) setup_values
     || Py.mem (Py.replace_gke (fst c)) setup_values
  then match region (snd c) with
       | Some r => if Py.nonempty r then [r] else []
       | None => []
       end
  else [].

(** What the country list alone goes through in one step of the
    innermost loop of [get_countries_for_regions]. *)
Definition countries_cluster_step (r : string) (countries : list string)
    (c : string * ClusterInfo) : list string :=
  if region_is (snd c) r && Py.truthy (location (snd c))
     && Py.truthy (country (snd c))
  then if Py.mem (Py.str_of (country (snd c))) countries
       then countries
       else countries ++ [Py.str_of (country (snd c))]
  else countries.

(** [without_entry e cr cr']: [cr'] is [cr] with one occurrence of the
    entry [e] taken out of its partition. *)
Inductive without_entry (e : string * ClusterInfo)
  : ClusterRegions -> ClusterRegions -> Prop :=
| without_aws_entry (before after gcp : Py.dict ClusterInfo) :
    without_entry e
      {| aws_eks_clusters := before ++ e :: after; gcp_gke_clusters := gcp |}
      {| aws_eks_clusters := before ++ after; gcp_gke_clusters := gcp |}
| without_gcp_entry (aws before after : Py.dict ClusterInfo) :
    without_entry e
      {| aws_eks_clusters := aws; gcp_gke_clusters := before ++ e :: after |}
      {| aws_eks_clusters := aws; gcp_gke_clusters := before ++ after |}.

(** The diagnostic a cluster with a [location] entry and no country gets:
    an empty location string is falsy and is reported as no location. *)
Definition missing_country_label (cluster_name loc : string) : string :=
  if Py.nonempty loc then cluster_name +++ " (" +++ loc +++ ")"
  else cluster_name +++ " (no location)".

(** An answer that makes the account scan go on to the next account:
    not found, or access denied. *)
Definition skips_account (answer : api_result (Py.dict json)) : Prop :=
  answer = ClientError (Some "NoSuchDistribution") \/
  answer = ClientError (Some "AccessDenied").

(** One [get_distribution] call per listed account, in order. *)
Definition calls_to (distribution_id : string) (clients : Py.dict Client)
  : list api_call :=
  map (fun kv => CallGet (fst kv) (JStr distribution_id)) clients.

(** The calls made by one run of [_apply_changes_to_cloudfront]. *)
Definition calls_of (outcome : bool * list api_call * DistributionInfo)
  : list api_call :=
  snd (fst outcome).

(** The region one AWS entry adds to the region list: only an exact match
    of the key counts. *)
Definition aws_matched_region (setup_values : list string)
    (c : string * ClusterInfo) : list string :=
  if Py.mem (fst c) setup_values
  then match region (snd c) with
       | Some r => if Py.nonempty r then [r] else []
       | None => []
       end
  else [].

(* ================================================================== *)
(** ** The menu loop of the editor *)

(** How a session of [interactive_modify_restrictions] ends: the changes
    were applied (choice 4, confirmed, the update went through), the
    operator left (choice 5), or [input()] found no more lines (the
    [EOFError] leaves the method). *)
Inductive session_end : Type := Applied | LeftWithoutChanges | InputEnded.

(** What a session leaves: how it ended, the working copy at that point,
    and the calls [_apply_changes_to_cloudfront(distribution_info,
    current_type, current_items)] it made, oldest first, each with its
    restriction type and country list. *)
Record Session : Type := mkSession {
  ended : session_end;
  final_type : string;
  final_items : list string;
  attempts : list (string * list string)
}.

(** The [while True] loop.  [lines] are the lines the operator types, one
    per [input()]; a step reads only the lines its prompts ask for.
    [apply_succeeds n] is what the call numbered [n] (from 0) of
    [_apply_changes_to_cloudfront] returns.  The summary printed before
    the confirmation of choice 4 reads [Id] and [DomainName] of the
    distribution, which every response holds. *)
Fixpoint interactive_loop (country_codes reverse_codes : Py.dict string)
    (apply_succeeds : nat -> bool) (current_type : string)
    (current_items : list string) (made : list (string * list string))
    (lines : list string) {struct lines} : Session :=
  let stop e :=
    {| ended := e; final_type := current_type;
       final_items := current_items; attempts := made |} in
  match lines with
  | [] => stop InputEnded
  | l :: rest =>
      let choice := Py.strip l in
      if String.eqb choice "1" then
        match rest with
        | [] => stop InputEnded
        | line :: rest1 =>
            match add_country_lookup country_codes reverse_codes line with
            | None =>
                interactive_loop country_codes reverse_codes apply_succeeds
                  current_type current_items made rest1
            | Some country_code =>
                if Py.mem country_code current_items then
                  interactive_loop country_codes reverse_codes apply_succeeds
                    current_type current_items made rest1
                else
                  match rest1 with
                  | [] => stop InputEnded
                  | confirm :: rest2 =>
                      interactive_loop country_codes reverse_codes
                        apply_succeeds current_type
                        (_add_country_to_list current_items country_codes
                                              reverse_codes line confirm)
                        made rest2
                  end
            end
        end
      else if String.eqb choice "2" then
        match current_items with
        | [] =>
            interactive_loop country_codes reverse_codes apply_succeeds
              current_type current_items made rest
        | _ :: _ =>
            match rest with
            | [] => stop InputEnded
            | line :: rest1 =>
                if negb (Py.nonempty (Py.strip line)) then
                  interactive_loop country_codes reverse_codes apply_succeeds
                    current_type current_items made rest1
                else if Py.truthy (find_country_to_remove current_items
                                     country_codes (Py.strip line)) then
                  match rest1 with
                  | [] => stop InputEnded
                  | confirm :: rest2 =>
                      interactive_loop country_codes reverse_codes
                        apply_succeeds current_type
                        (_remove_country_from_list current_items country_codes
                                                   line confirm)
                        made rest2
                  end
                else
                  interactive_loop country_codes reverse_codes apply_succeeds
                    current_type current_items made rest1
            end
        end
      else if String.eqb choice "3" then
        interactive_loop country_codes reverse_codes apply_succeeds
          "none" [] made rest
      else if String.eqb choice "4" then
        match rest with
        | [] => stop InputEnded
        | confirm :: rest1 =>
            if confirmed confirm then
              let made' := made ++ [(current_type, current_items)] in
              if apply_succeeds (List.length made) then
                {| ended := Applied; final_type := current_type;
                   final_items := current_items; attempts := made' |}
              else
                interactive_loop country_codes reverse_codes apply_succeeds
                  current_type current_items made' rest1
            else
              interactive_loop country_codes reverse_codes apply_succeeds
                current_type current_items made rest1
        end
      else if String.eqb choice "5" then stop LeftWithoutChanges
      else
        interactive_loop country_codes reverse_codes apply_succeeds
          current_type current_items made rest
  end.

(** [interactive_modify_restrictions]: the working copy starts from the
    restriction read off the distribution ([none] and the empty list are
    the defaults), the reverse table is loaded, then the loop runs. *)
Definition interactive_modify_restrictions (country_codes : Py.dict string)
    (distribution_restrictions : GeoRestriction)
    (apply_succeeds : nat -> bool) (lines : list string) : Session :=
  let current_type :=
    match RestrictionType distribution_restrictions with
    | Some t => t
    | None => "none"
    end in
  let current_items :=
    match Items distribution_restrictions with Some l => l | None => [] end in
  interactive_loop country_codes (_load_country_codes_reverse country_codes)
    apply_succeeds current_type current_items [] lines.

(* ================================================================== *)
(** ** Reading the restriction, the report, the clients *)

(** Whether the account scan of [get_distribution_info] goes on after an
    answer: it stops on a response that holds [Distribution] and on the
    error code [InvalidArgument], and goes on after everything else. *)
Definition scan_goes_on (answer : api_result (Py.dict json)) : bool :=
  match answer with
  | Returned response => negb (Py.has_key "Distribution" response)
  | ClientError code =>
      negb (String.eqb (error_code_of code) "InvalidArgument")
  | OtherError => true
  end.

(** [get_geo_restrictions], on the [DistributionConfig] of the
    distribution: the value returned under [distribution_level].  It is
    the top-level [GeoRestrictions] entry (default: the empty dict) unless
    [Restrictions] holds [GeoRestriction], which then wins.  [None] is the
    exception of a [Restrictions] value that cannot be searched or
    subscripted. *)
Definition get_geo_restrictions (config : Py.dict json) : option json :=
  let distribution_geo_restrictions :=
    match Py.get "GeoRestrictions" config with
    | Some v => v
    | None => JDict []
    end in
  match Py.get "Restrictions" config with
  | Some restrictions =>
      match json_contains "GeoRestriction" restrictions with
      | None => None
      | Some true =>
          match restrictions with
          | JDict d => Py.get "GeoRestriction" d
          | _ => None
          end
      | Some false => Some distribution_geo_restrictions
      end
  | None => Some distribution_geo_restrictions
  end.

(** The two list comprehensions of the whitelist check on the raw dict:
    [[c for c in countries if c not in allowed]] for [keep_absent], and
    [[c for c in countries if c in allowed]] otherwise.  [None] is the
    [TypeError] of an [allowed] value that cannot be searched. *)
Fixpoint countries_by_membership (keep_absent : bool) (allowed : json)
    (countries : list string) : option (list string) :=
  match countries with
  | [] => Some []
  | c :: rest =>
      match json_contains c allowed with
      | None => None
      | Some present =>
          match countries_by_membership keep_absent allowed rest with
          | None => None
          | Some kept =>
              Some (if Bool.eqb present (negb keep_absent)
                    then c :: kept else kept)
          end
      end
  end.

(** Lines 499-520 on the raw value of [distribution_level]: the two
    [.get] calls need a dict; the type is compared with the two type
    strings; the lists are built as above. *)
Definition check_restrictions_raw (dist_restrictions : json)
    (countries : list string) : option (list string * list string) :=
  match dist_restrictions with
  | JDict d =>
      let restriction_type :=
        match Py.get "RestrictionType" d with
        | Some v => v
        | None => JStr "none"
        end in
      let allowed_countries :=
        match Py.get "Items" d with Some v => v | None => JList [] end in
      match restriction_type with
      | JStr t =>
          if String.eqb t "whitelist" then
            match countries_by_membership true allowed_countries countries
            with
            | Some missing => Some (missing, [])
            | None => None
            end
          else if String.eqb t "blacklist" then
            match countries_by_membership false allowed_countries countries
            with
            | Some blocked => Some ([], blocked)
            | None => None
            end
          else Some ([], [])
      | _ => Some ([], [])
      end
  | _ => None
  end.

(** [sep.join(parts)]. *)
Fixpoint join (sep : string) (parts : list string) : string :=
  match parts with
  | [] => EmptyString
  | [x] => x
  | x :: rest => x +++ sep +++ join sep rest
  end.

(** [format_geo_restrictions] on a restriction with a string type and a
    list of codes: each code is shown by its display name, or as it is
    when the table has no name for it.  The empty dict, which the source
    tests for first, gets the same answer as a dict without a known
    type. *)
Definition format_geo_restrictions (country_codes : Py.dict string)
    (distribution_restrictions : GeoRestriction) : string :=
  let restriction_type :=
    match RestrictionType distribution_restrictions with
    | Some t => t
    | None => "N/A"
    end in
  let items :=
    match Items distribution_restrictions with Some l => l | None => [] end in
  let country_names := map (display_name country_codes) items in
  if String.eqb restriction_type "whitelist" then
    "ALLOWED Countries: " +++ join ", " country_names
  else if String.eqb restriction_type "blacklist" then
    "BLOCKED Countries: " +++ join ", " country_names
  else "No geo restrictions".

(** The fields [_initialize_clients] asks of an account. *)
Definition required_fields : list string :=
  ["account_name"; "access_key_id"; "secret_access_key"; "region"].

(** [field in account and account[field]], for string-valued fields. *)
Definition field_given (account : Py.dict string) (field : string) : bool :=
  Py.truthy (Py.get field account).

(** The keyword arguments passed to [boto3.client]: the session token
    goes in only when the account gives one. *)
Definition client_params (account : Py.dict string) : Py.dict string :=
  let base :=
    [("service_name", "cloudfront");
     ("region_name", Py.str_of (Py.get "region" account))] in
  let keys :=
    [("aws_access_key_id", Py.str_of (Py.get "access_key_id" account));
     ("aws_secret_access_key",
      Py.str_of (Py.get "secret_access_key" account))] in
  if field_given account "session_token"
  then base ++ keys
       ++ [("aws_session_token", Py.str_of (Py.get "session_token" account))]
  else base ++ keys.

(** [_initialize_clients]: [boto3_client] stands for [boto3.client],
    [None] being an exception it raises (logged, the account is skipped).
    An account that lacks a required field is skipped before any client
    is made. *)
Definition _initialize_clients
    (boto3_client : Py.dict string -> option Client)
    (aws_accounts : list (Py.dict string)) : Py.dict Client :=
  fold_left
    (fun clients account =>
       if forallb (field_given account) required_fields then
         match boto3_client (client_params account) with
         | Some client =>
             Py.set (Py.str_of (Py.get "account_name" account)) client clients
         | None => clients
         end
       else clients)
    aws_accounts [].

(* ================================================================== *)
(** ** The whitelist check of a channel, end to end *)

(** [get_geo_restrictions(distribution_info)] from the distribution as the
    provider returned it: [distribution['DistributionConfig']] must be
    there and be a dict, otherwise the method raises ([None]). *)
Definition get_geo_restrictions_of (distribution : json) : option json :=
  match distribution with
  | JDict d =>
      match Py.get "DistributionConfig" d with
      | Some (JDict config) => get_geo_restrictions config
      | _ => None
      end
  | _ => None
  end.

(** Where [check_channel_whitelist_status] ends: one of its early
    returns, the [except] branch around the CloudFront part, or the
    comparison with the two lists it warns about. *)
Inductive whitelist_outcome : Type :=
| NoDeliveryDetails
| NoSetupValues
| NoCountries
| NoDistributionInfo
| CheckRaised
| Compared (missing_countries blocked_countries : list string).

(** [check_channel_whitelist_status].  [delivery_details] is what
    [get_channel_delivery_details] returned ([None]: the fetch failed).
    The result is where the method ended, the provider calls it made, and
    the instance afterwards. *)
Definition check_channel_whitelist_status (self : Manager)
    (clients : Py.dict Client) (delivery_details : option json)
    (distribution_id : string)
  : whitelist_outcome * list api_call * Manager :=
  match delivery_details with
  | None => (NoDeliveryDetails, [], self)
  | Some details =>
      if negb (json_truthy details) then (NoDeliveryDetails, [], self)
      else
        match resolve_channel self details with
        | (None, self') => (NoSetupValues, [], self')
        | (Some (_, _, countries), self') =>
            match countries with
            | [] => (NoCountries, [], self')
            | _ :: _ =>
                let '(distribution_info, calls) :=
                  get_distribution_info clients distribution_id in
                match distribution_info with
                | None => (NoDistributionInfo, calls, self')
                | Some (_, distribution) =>
                    match get_geo_restrictions_of distribution with
                    | None => (CheckRaised, calls, self')
                    | Some dist_restrictions =>
                        match check_restrictions_raw dist_restrictions
                                                     countries with
                        | None => (CheckRaised, calls, self')
                        | Some (missing, blocked) =>
                            (Compared missing blocked, calls, self')
                        end
                    end
                end
            end
        end
  end.

(* ================================================================== *)
(** * Properties *)

(** ** Lists and strings *)

Lemma mem_In (x : string) (xs : list string) :
  Py.mem x xs = true <-> In x xs.
Proof.
  unfold Py.mem. rewrite existsb_exists. split.
  - intros [y [Hy Heq]]. apply String.eqb_eq in Heq. now subst.
  - intros H. exists x. split; [assumption | apply String.eqb_refl].
Qed.

Lemma mem_not_In (x : string) (xs : list string) :
  Py.mem x xs = false <-> ~ In x xs.
Proof.
  rewrite <- mem_In. destruct (Py.mem x xs); split; intro H;
    congruence || (exfalso; now apply H).
Qed.

Lemma prefix_append (s t : string) : String.prefix s (s +++ t) = true.
Proof.
  induction s as [| c s IH]; simpl.
  - now destruct t.
  - destruct (Ascii.ascii_dec c c) as [_ | Hne]; [exact IH | now elim Hne].
Qed.

Lemma is_substring_unfold (needle hay : string) :
  Py.is_substring needle hay =
  String.prefix needle hay ||
  match hay with
  | EmptyString => false
  | String _ rest => Py.is_substring needle rest
  end.
Proof. destruct hay; reflexivity. Qed.

Lemma is_substring_append (s t : string) :
  Py.is_substring s (s +++ t) = true.
Proof. rewrite is_substring_unfold, prefix_append. reflexivity. Qed.

(** ** Setup extraction *)

Lemma extract_list_cons (item : json) (rest : list json) (acc : list string) :
  extract_setup_values_acc (JList (item :: rest)) acc =
  extract_setup_values_acc (JList rest) (extract_setup_values_acc item acc).
Proof. reflexivity. Qed.

Lemma extract_dict_cons (key : string) (value : json)
    (rest : list (string * json)) (acc : list string) :
  extract_setup_values_acc (JDict ((key, value) :: rest)) acc =
  extract_setup_values_acc (JDict rest)
    match value with
    | JStr s => if String.eqb key "setup" then acc ++ [s] else acc
    | JDict _ | JList _ => extract_setup_values_acc value acc
    | _ => acc
    end.
Proof. reflexivity. Qed.

Lemma setup_strings_list_cons (item : json) (rest : list json) :
  setup_strings (JList (item :: rest)) =
  setup_strings item ++ setup_strings (JList rest).
Proof. unfold setup_strings. simpl. now rewrite flat_map_app. Qed.

Lemma setup_strings_dict_cons (key : string) (value : json)
    (rest : list (string * json)) :
  setup_strings (JDict ((key, value) :: rest)) =
  setup_string_of (key, value) ++ setup_strings value
  ++ setup_strings (JDict rest).
Proof. unfold setup_strings. simpl. now rewrite flat_map_app. Qed.

Lemma extract_acc_appends (t : json) :
  forall acc, extract_setup_values_acc t acc = acc ++ setup_strings t.
Proof.
  induction t as [| b | n | s | items IH | members IH] using json_induction;
    intros acc; try (cbn; now rewrite app_nil_r).
  - (* a sequence: the items are walked left to right *)
    revert acc.
    induction IH as [| item rest Hitem _ IHrest]; intros acc.
    + cbn. now rewrite app_nil_r.
    + rewrite extract_list_cons, setup_strings_list_cons, IHrest, Hitem.
      now rewrite app_assoc.
  - (* a mapping: each value is looked at, then walked *)
    revert acc.
    induction IH as [| [key value] rest Hvalue _ IHrest]; intros acc.
    + cbn. now rewrite app_nil_r.
    + rewrite extract_dict_cons, setup_strings_dict_cons, IHrest.
      cbn [snd] in Hvalue. rewrite !app_assoc. f_equal.
      destruct value as [| b | n | s | items | members'];
        try (cbn; now rewrite ?app_nil_r).
      * cbn. destruct (String.eqb key "setup"); cbn; now rewrite ?app_nil_r.
      * cbn [setup_string_of]. now rewrite Hvalue, app_nil_r.
      * cbn [setup_string_of]. now rewrite Hvalue, app_nil_r.
Qed.

(** C3. Setup extraction returns exactly the string values stored under
    keys named [setup], in the order a depth-first walk first meets them,
    duplicates kept; with a list passed in, it only appends to it.  The
    function is total: every tree has a result. *)
Theorem extract_setup_values_exact :
  forall t : json,
    extract_setup_values t = setup_strings t /\
    forall acc, extract_setup_values_acc t acc = acc ++ setup_strings t.
Proof.
  intros t. split.
  - unfold extract_setup_values. now rewrite extract_acc_appends.
  - apply extract_acc_appends.
Qed.

(** A tree with a repeated value, a [setup] key holding a mapping, and a
    [setup] key inside a sequence. *)
Example extract_setup_values_sample :
  extract_setup_values
    (JDict [("deploy", JDict [("setup", JStr "ts-us-e1-n2")]);
            ("setup", JDict [("setup", JStr "b"); ("x", JNum 1)]);
            ("l", JList [JStr "setup"; JDict [("setup", JStr "ts-us-e1-n2")]]);
            ("setup", JNum 3)])
  = ["ts-us-e1-n2"; "b"; "ts-us-e1-n2"].
Proof. reflexivity. Qed.

(** ** The whitelist / blacklist check *)

Lemma check_restrictions_by_kind (rec : GeoRestriction) (R : list string) :
  check_restrictions rec R =
  match kind_of rec with
  | NONE => ([], [])
  | ALLOW_LIST =>
      (filter (fun c => negb (Py.mem c (items_of rec))) R, [])
  | BLOCK_LIST =>
      ([], filter (fun c => Py.mem c (items_of rec)) R)
  end.
Proof.
  unfold check_restrictions, kind_of, items_of.
  destruct (RestrictionType rec) as [t |]; [| reflexivity].
  destruct (String.eqb t "whitelist"); [reflexivity |].
  destruct (String.eqb t "blacklist"); reflexivity.
Qed.

(** C1. The check follows the three cases.  A record whose type is neither
    [whitelist] nor [blacklist] (also a record without a type) gives two
    empty lists whatever the required countries are.  An allow-list [A]
    gives as missing the required countries that are not in [A], in the
    order of the required list, and nothing as blocked.  A block-list [B]
    gives as blocked the required countries that are in [B], in the order
    of the required list, and nothing as missing. *)
Theorem check_restrictions_three_cases :
  forall (rec : GeoRestriction) (R : list string),
    let missing := fst (check_restrictions rec R) in
    let blocked := snd (check_restrictions rec R) in
    match kind_of rec with
    | NONE => missing = [] /\ blocked = []
    | ALLOW_LIST =>
        missing = filter (fun c => negb (Py.mem c (items_of rec))) R /\
        (forall c, In c missing <-> In c R /\ ~ In c (items_of rec)) /\
        blocked = []
    | BLOCK_LIST =>
        blocked = filter (fun c => Py.mem c (items_of rec)) R /\
        (forall c, In c blocked <-> In c R /\ In c (items_of rec)) /\
        missing = []
    end.
Proof.
  intros rec R missing blocked. subst missing blocked.
  rewrite check_restrictions_by_kind.
  destruct (kind_of rec); cbn [fst snd].
  - split; reflexivity.
  - split; [reflexivity | split; [| reflexivity]].
    intros c. rewrite filter_In, negb_true_iff, mem_not_In. tauto.
  - split; [reflexivity | split; [| reflexivity]].
    intros c. rewrite filter_In, mem_In. tauto.
Qed.

(** The two examples of the spec: R = US, GB, IN against the allow-list
    US, IN, and R = US, GB against the block-list GB, FR. *)
Example check_restrictions_allow_sample :
  check_restrictions
    {| RestrictionType := Some "whitelist"; Items := Some ["US"; "IN"] |}
    ["US"; "GB"; "IN"] = (["GB"], []).
Proof. reflexivity. Qed.

Example check_restrictions_block_sample :
  check_restrictions
    {| RestrictionType := Some "blacklist"; Items := Some ["GB"; "FR"] |}
    ["US"; "GB"] = ([], ["GB"]).
Proof. reflexivity. Qed.

(** ** Setup resolution *)

Lemma not_found_characterised (cr : ClusterRegions) (setups : list string)
    (s : string) :
  let res := resolve_setups cr setups in
  In s (res_not_found_setups res) <->
  In s setups /\ ~ In s (res_found_setups res) /\
  forall found, In found (res_found_setups res) ->
                Py.is_substring s found = false.
Proof.
  cbn. unfold is_not_found. rewrite filter_In, andb_true_iff.
  rewrite !negb_true_iff, mem_not_In.
  split.
  - intros [Hs [Hm Hsub]]. repeat split; try assumption.
    intros found Hfound.
    destruct (Py.is_substring s found) eqn:E; [| reflexivity].
    assert (existsb (Py.is_substring s)
              (snd (fold_left (gcp_cluster_step setups) (gcp_gke_clusters cr)
                 ([], snd (fold_left (aws_cluster_step setups)
                                     (aws_eks_clusters cr) ([], [])))))
            = true) as Hex
      by (apply existsb_exists; exists found; split; assumption).
    congruence.
  - intros [Hs [Hm Hsub]]. repeat split; try assumption.
    destruct (existsb _ _) eqn:E; [| reflexivity].
    apply existsb_exists in E. destruct E as [found [Hfound Hyes]].
    rewrite (Hsub found Hfound) in Hyes. discriminate.
Qed.

(** C2, at an input where the code leaves a setup out.  The registry has
    the one AWS cluster [ts-us-e1-n2-eks]; the setups are that cluster and
    [ts-us-e1-n2].  The second matches no key under either rule, yet it is
    not in the not-found list: it occurs inside the name of a found
    cluster, and the last loop takes that for a match. *)
Theorem not_found_omits_unmatched_setup :
  let cr :=
    {| aws_eks_clusters :=
         [("ts-us-e1-n2-eks",
           {| region := Some "us-east-1";
              location := Some "N. Virginia";
              country := Some "US" |})];
       gcp_gke_clusters := [] |} in
  let setups := ["ts-us-e1-n2-eks"; "ts-us-e1-n2"] in
  let res := resolve_setups cr setups in
  In "ts-us-e1-n2" setups /\
  setup_matches cr "ts-us-e1-n2" = false /\
  res_found_setups res = ["ts-us-e1-n2-eks"] /\
  res_not_found_setups res = [] /\
  ~ In "ts-us-e1-n2" (res_not_found_setups res).
Proof.
  cbv zeta. repeat split; try reflexivity.
  - right. left. reflexivity.
  - vm_compute. tauto.
Qed.

Lemma gcp_fold_regions (setups : list string) (cl : Py.dict ClusterInfo) :
  forall st,
    fst (fold_left (gcp_cluster_step setups) cl st) =
    fst st ++ flat_map (gcp_matched_region setups) cl.
Proof.
  induction cl as [| [k info] cl IH]; intros st; cbn [fold_left flat_map].
  - now rewrite app_nil_r.
  - rewrite IH. unfold gcp_cluster_step, gcp_matched_region. cbn [fst snd].
    destruct (Py.mem k setups); cbn [orb].
    + destruct (region info) as [r |]; [| now rewrite app_nil_l].
      destruct (Py.nonempty r); cbn [fst]; [| now rewrite app_nil_l].
      now rewrite <- app_assoc.
    + destruct (Py.mem (Py.replace_gke k) setups); [| now rewrite app_nil_l].
      destruct (region info) as [r |]; [| now rewrite app_nil_l].
      destruct (Py.nonempty r); cbn [fst]; [| now rewrite app_nil_l].
      now rewrite <- app_assoc.
Qed.

Lemma gcp_step_found_grows (setups : list string) (c : string * ClusterInfo)
    (st : list string * list string) (x : string) :
  In x (snd st) -> In x (snd (gcp_cluster_step setups st c)).
Proof.
  intros Hx. destruct c as [k info]. unfold gcp_cluster_step.
  destruct (Py.mem k setups).
  - destruct (region info) as [r |]; [| exact Hx].
    destruct (Py.nonempty r); [| exact Hx].
    cbn [snd]. apply in_or_app. now left.
  - destruct (Py.mem (Py.replace_gke k) setups); [| exact Hx].
    destruct (region info) as [r |]; [| exact Hx].
    destruct (Py.nonempty r); [| exact Hx].
    cbn [snd]. apply in_or_app. now left.
Qed.

Lemma gcp_fold_found_grows (setups : list string) (cl : Py.dict ClusterInfo) :
  forall st x,
    In x (snd st) -> In x (snd (fold_left (gcp_cluster_step setups) cl st)).
Proof.
  induction cl as [| c cl IH]; intros st x Hx; cbn [fold_left].
  - exact Hx.
  - apply IH, gcp_step_found_grows, Hx.
Qed.

Lemma gcp_fold_records_mapped (setups : list string)
    (cl : Py.dict ClusterInfo) (k : string) (info : ClusterInfo) (r : string) :
  In (k, info) cl ->
  Py.mem k setups = false ->
  Py.mem (Py.replace_gke k) setups = true ->
  region info = Some r ->
  Py.nonempty r = true ->
  forall st,
    In (mapped_label (Py.replace_gke k) k)
       (snd (fold_left (gcp_cluster_step setups) cl st)).
Proof.
  intros Hin Hk Hbase Hr Hne.
  induction cl as [| c cl IH]; intros st; [contradiction |].
  cbn [fold_left]. destruct Hin as [-> | Hin].
  - apply gcp_fold_found_grows. unfold gcp_cluster_step.
    rewrite Hk, Hbase, Hr, Hne. cbn [snd]. apply in_or_app. right. now left.
  - now apply IH.
Qed.

Lemma nonempty_true (s : string) : s <> EmptyString -> Py.nonempty s = true.
Proof. destruct s; [congruence | reflexivity]. Qed.

(** Removing [-gke] from a key that ends in it: when the part before the
    suffix holds no [-gke] of its own, what is left is that part. *)
Ltac by_char c := destruct c as [[] [] [] [] [] [] [] []]; try reflexivity.

Lemma replace_gke_miss (c : ascii) (rest : string) :
  String.prefix "-gke" (String c rest) = false ->
  Py.replace_gke (String c rest) = String c (Py.replace_gke rest).
Proof.
  intros H. by_char c.
  destruct rest as [| c1 rest]; [reflexivity |]. by_char c1.
  destruct rest as [| c2 rest]; [reflexivity |]. by_char c2.
  destruct rest as [| c3 rest]; [reflexivity |]. by_char c3.
  cbn in H. destruct rest; discriminate H.
Qed.

Lemma prefix_gke_extend (c : ascii) (s : string) :
  String.prefix "-gke" (String c s) = false ->
  String.prefix "-gke" (String c (s +++ "-gke")) = false.
Proof.
  intros H. by_char c.
  destruct s as [| c1 s]; [reflexivity |]. by_char c1.
  destruct s as [| c2 s]; [reflexivity |]. by_char c2.
  destruct s as [| c3 s]; [reflexivity |]. by_char c3.
  cbn in H. destruct s; discriminate H.
Qed.

Lemma replace_gke_suffix (s : string) :
  Py.is_substring "-gke" s = false ->
  Py.replace_gke (s +++ "-gke") = s.
Proof.
  induction s as [| c s IH]; intros H; [reflexivity |].
  rewrite is_substring_unfold in H. apply orb_false_iff in H.
  destruct H as [Hhead Htail].
  change (String c s +++ "-gke") with (String c (s +++ "-gke")).
  rewrite replace_gke_miss by now apply prefix_gke_extend.
  now rewrite IH.
Qed.

(** [replace] is not a suffix strip: an inner [-gke] goes as well. *)
Example replace_gke_inner :
  Py.replace_gke "ts-gke-us-e1-gke" = "ts-us-e1" /\
  Py.replace_gke ("a-gke" +++ "-gke") = "a".
Proof. split; reflexivity. Qed.

(** C4, as the code has it.  Let [s] be one of the setups and [k] a GCP
    key that is not itself one of the setups, that becomes [s] when every
    [-gke] in it is removed, and whose entry has a non-empty region [r].
    Then [r] is in the GCP region list, [s (mapped to k)] is in the
    found-setups list, and [s] is not reported as not found.  The region
    list treats both kinds of match alike: it holds, in registry order,
    the non-empty region of every entry whose key or shortened key is a
    setup. *)
Theorem gcp_suffix_fallback_records_mapping :
  forall (cr : ClusterRegions) (setups : list string)
         (s k : string) (info : ClusterInfo) (r : string),
    In s setups ->
    In (k, info) (gcp_gke_clusters cr) ->
    ~ In k setups ->
    Py.replace_gke k = s ->
    region info = Some r ->
    r <> EmptyString ->
    let res := resolve_setups cr setups in
    In r (regions_gcp res) /\
    In (mapped_label s k) (res_found_setups res) /\
    ~ In s (res_not_found_setups res) /\
    regions_gcp res =
      flat_map (gcp_matched_region setups) (gcp_gke_clusters cr).
Proof.
  intros cr setups s k info r Hs Hk Hnk Hbase Hr Hne res.
  apply mem_In in Hs. apply mem_not_In in Hnk. apply nonempty_true in Hne.
  assert (Hregions : regions_gcp res =
            flat_map (gcp_matched_region setups) (gcp_gke_clusters cr)).
  { subst res. cbn [resolve_setups regions_gcp].
    now rewrite gcp_fold_regions. }
  assert (Hfound : In (mapped_label s k) (res_found_setups res)).
  { subst res. cbn [resolve_setups res_found_setups]. rewrite <- Hbase.
    apply gcp_fold_records_mapped with (info := info) (r := r);
      try assumption.
    now rewrite Hbase. }
  split; [| split; [exact Hfound | split; [| exact Hregions]]].
  - rewrite Hregions. apply in_flat_map. exists (k, info).
    split; [exact Hk |]. unfold gcp_matched_region. cbn [fst snd].
    rewrite Hbase, Hs, orb_true_r, Hr, Hne. now left.
  - intros Hnf. apply not_found_characterised in Hnf.
    destruct Hnf as [_ [_ Hsub]].
    specialize (Hsub _ Hfound). unfold mapped_label in Hsub.
    rewrite is_substring_append in Hsub. discriminate.
Qed.

(** The spec's example: [ts-us-e1-n2] against the key [ts-us-e1-n2-gke]. *)
Lemma gcp_suffix_fallback_records_mapping_witness :
  let cr :=
    {| aws_eks_clusters := [];
       gcp_gke_clusters :=
         [("ts-us-e1-n2-gke",
           {| region := Some "us-east1";
              location := Some "SC";
              country := Some "US" |})] |} in
  let res := resolve_setups cr ["ts-us-e1-n2"] in
  In "us-east1" (regions_gcp res) /\
  In "ts-us-e1-n2 (mapped to ts-us-e1-n2-gke)" (res_found_setups res) /\
  ~ In "ts-us-e1-n2" (res_not_found_setups res) /\
  regions_gcp res =
    flat_map (gcp_matched_region ["ts-us-e1-n2"]) (gcp_gke_clusters cr).
Proof.
  cbv zeta.
  apply (gcp_suffix_fallback_records_mapping
           {| aws_eks_clusters := [];
              gcp_gke_clusters :=
                [("ts-us-e1-n2-gke",
                  {| region := Some "us-east1";
                     location := Some "SC";
                     country := Some "US" |})] |}
           ["ts-us-e1-n2"] "ts-us-e1-n2" "ts-us-e1-n2-gke"
           {| region := Some "us-east1";
              location := Some "SC";
              country := Some "US" |}
           "us-east1").
  - simpl. left. reflexivity.
  - simpl. left. reflexivity.
  - simpl. intros [H | H]; [discriminate H | exact H].
  - reflexivity.
  - reflexivity.
  - discriminate.
Defined.

(** C4 as stated fails when the registry key is itself among the setups.
    [ts-us-e1-n2] is no key of the registry, and the GCP key
    [ts-us-e1-n2-gke] is that identifier followed by [-gke]; with both
    strings among the setups the entry takes the exact-match branch, so
    the region is listed but the identifier is never recorded as mapped. *)
Lemma gcp_suffix_fallback_counterexample :
  let info :=
    {| region := Some "us-east1"; location := Some "SC";
       country := Some "US" |} in
  let cr :=
    {| aws_eks_clusters := [];
       gcp_gke_clusters := [("ts-us-e1-n2-gke", info)] |} in
  let setups := ["ts-us-e1-n2"; "ts-us-e1-n2-gke"] in
  let res := resolve_setups cr setups in
  In "ts-us-e1-n2" setups /\
  Py.has_key "ts-us-e1-n2" (aws_eks_clusters cr) = false /\
  Py.has_key "ts-us-e1-n2" (gcp_gke_clusters cr) = false /\
  In ("ts-us-e1-n2" +++ "-gke", info) (gcp_gke_clusters cr) /\
  regions_gcp res = ["us-east1"] /\
  res_found_setups res = ["ts-us-e1-n2-gke"] /\
  ~ In (mapped_label "ts-us-e1-n2" "ts-us-e1-n2-gke") (res_found_setups res).
Proof.
  cbv zeta. repeat split; try reflexivity.
  - left. reflexivity.
  - left. reflexivity.
  - vm_compute. intros [H | H]; [discriminate H | exact H].
Qed.

(** ** Country resolution *)

Section CountryLoops.

Variable cr : ClusterRegions.

Lemma cluster_step_countries (r : string) (st : CountryResolution)
    (c : string * ClusterInfo) :
  res_countries (country_cluster_step r st c) =
  countries_cluster_step r (res_countries st) c.
Proof.
  destruct c as [name info].
  unfold country_cluster_step, countries_cluster_step. cbn [snd].
  destruct (region_is info r); cbn [andb]; [| reflexivity].
  destruct (Py.truthy (location info)); cbn [andb negb].
  - destruct (Py.truthy (country info)); reflexivity.
  - reflexivity.
Qed.

Lemma cluster_fold_countries (r : string) (cl : Py.dict ClusterInfo) :
  forall st,
    res_countries (fold_left (country_cluster_step r) cl st) =
    fold_left (countries_cluster_step r) cl (res_countries st).
Proof.
  induction cl as [| c cl IH]; intros st; cbn [fold_left].
  - reflexivity.
  - now rewrite IH, cluster_step_countries.
Qed.

Lemma cluster_step_missing_grows (r : string) (st : CountryResolution)
    (c : string * ClusterInfo) (x : string) :
  In x (res_missing_country_clusters st) ->
  In x (res_missing_country_clusters (country_cluster_step r st c)).
Proof.
  intros Hx. destruct c as [name info]. unfold country_cluster_step.
  destruct (region_is info r); [| exact Hx].
  destruct (Py.truthy (location info) && Py.truthy (country info));
    [exact Hx |].
  destruct (Py.truthy (location info) && negb (Py.truthy (country info)));
    [cbn; apply in_or_app; now left |].
  destruct (negb (Py.truthy (location info)));
    [cbn; apply in_or_app; now left | exact Hx].
Qed.

Lemma cluster_fold_missing_grows (r : string) (cl : Py.dict ClusterInfo) :
  forall st x,
    In x (res_missing_country_clusters st) ->
    In x (res_missing_country_clusters
            (fold_left (country_cluster_step r) cl st)).
Proof.
  induction cl as [| c cl IH]; intros st x Hx; cbn [fold_left].
  - exact Hx.
  - apply IH, cluster_step_missing_grows, Hx.
Qed.

Lemma region_fold_missing_grows (cl : Py.dict ClusterInfo)
    (rs : list string) :
  forall st x,
    In x (res_missing_country_clusters st) ->
    In x (res_missing_country_clusters
            (fold_left (country_region_step cl) rs st)).
Proof.
  induction rs as [| r rs IH]; intros st x Hx; cbn [fold_left].
  - exact Hx.
  - apply IH. unfold country_region_step.
    apply cluster_fold_missing_grows, Hx.
Qed.

Lemma cloud_fold_missing_grows (regions : Py.dict (list string)) :
  forall st x,
    In x (res_missing_country_clusters st) ->
    In x (res_missing_country_clusters
            (fold_left (country_cloud_step cr) regions st)).
Proof.
  induction regions as [| [ct rs] regions IH]; intros st x Hx;
    cbn [fold_left].
  - exact Hx.
  - apply IH. unfold country_cloud_step.
    apply region_fold_missing_grows, Hx.
Qed.

End CountryLoops.

Lemma cluster_step_reports (r name loc : string) (info : ClusterInfo)
    (st : CountryResolution) :
  region_is info r = true ->
  location info = Some loc ->
  Py.truthy (country info) = false ->
  In (missing_country_label name loc)
     (res_missing_country_clusters (country_cluster_step r st (name, info))).
Proof.
  intros Hr Hloc Hc. unfold country_cluster_step, missing_country_label.
  rewrite Hr, Hloc, Hc. cbn [Py.truthy Py.str_of].
  destruct (Py.nonempty loc); cbn; apply in_or_app; right; now left.
Qed.

Lemma cluster_fold_reports (r name loc : string) (info : ClusterInfo)
    (cl : Py.dict ClusterInfo) :
  In (name, info) cl ->
  region_is info r = true ->
  location info = Some loc ->
  Py.truthy (country info) = false ->
  forall st,
    In (missing_country_label name loc)
       (res_missing_country_clusters
          (fold_left (country_cluster_step r) cl st)).
Proof.
  intros Hin Hr Hloc Hc.
  induction cl as [| c cl IH]; intros st; [contradiction |].
  cbn [fold_left]. destruct Hin as [-> | Hin].
  - apply cluster_fold_missing_grows. now apply cluster_step_reports.
  - now apply IH.
Qed.

Lemma region_fold_reports (r name loc : string) (info : ClusterInfo)
    (cl : Py.dict ClusterInfo) (rs : list string) :
  In r rs ->
  In (name, info) cl ->
  region_is info r = true ->
  location info = Some loc ->
  Py.truthy (country info) = false ->
  forall st,
    In (missing_country_label name loc)
       (res_missing_country_clusters
          (fold_left (country_region_step cl) rs st)).
Proof.
  intros Hrs Hin Hr Hloc Hc.
  induction rs as [| r' rs IH]; intros st; [contradiction |].
  cbn [fold_left]. destruct Hrs as [-> | Hrs].
  - apply region_fold_missing_grows. unfold country_region_step.
    now apply cluster_fold_reports with (info := info).
  - now apply IH.
Qed.

Lemma cloud_fold_reports (cr : ClusterRegions)
    (regions : Py.dict (list string)) (cloud_type r name loc : string)
    (rs : list string) (info : ClusterInfo) :
  In (cloud_type, rs) regions ->
  In r rs ->
  In (name, info) (clusters_for cr cloud_type) ->
  region_is info r = true ->
  location info = Some loc ->
  Py.truthy (country info) = false ->
  forall st,
    In (missing_country_label name loc)
       (res_missing_country_clusters
          (fold_left (country_cloud_step cr) regions st)).
Proof.
  intros Hreg Hrs Hin Hr Hloc Hc.
  induction regions as [| item regions IH]; intros st; [contradiction |].
  cbn [fold_left]. destruct Hreg as [-> | Hreg].
  - apply cloud_fold_missing_grows. unfold country_cloud_step.
    now apply region_fold_reports with (r := r) (info := info).
  - now apply IH.
Qed.

(** An entry without a country leaves the country list of every step as
    it was, so the loops go the same way with and without it. *)
Lemma countries_step_skips (r : string) (countries : list string)
    (e : string * ClusterInfo) :
  Py.truthy (country (snd e)) = false ->
  countries_cluster_step r countries e = countries.
Proof.
  intros Hc. unfold countries_cluster_step.
  now rewrite Hc, andb_false_r.
Qed.

Lemma countries_fold_without (r : string) (e : string * ClusterInfo)
    (before after : Py.dict ClusterInfo) (countries : list string) :
  Py.truthy (country (snd e)) = false ->
  fold_left (countries_cluster_step r) (before ++ e :: after) countries =
  fold_left (countries_cluster_step r) (before ++ after) countries.
Proof.
  intros Hc. rewrite !fold_left_app. cbn [fold_left].
  now rewrite countries_step_skips.
Qed.

Lemma clusters_fold_without (e : string * ClusterInfo)
    (cr cr' : ClusterRegions) :
  without_entry e cr cr' ->
  Py.truthy (country (snd e)) = false ->
  forall cloud_type r countries,
    fold_left (countries_cluster_step r) (clusters_for cr cloud_type)
              countries =
    fold_left (countries_cluster_step r) (clusters_for cr' cloud_type)
              countries.
Proof.
  intros Hw Hc cloud_type r countries. unfold clusters_for.
  destruct Hw; cbn [aws_eks_clusters gcp_gke_clusters];
    destruct (String.eqb cloud_type "aws");
    try reflexivity; now apply countries_fold_without.
Qed.

Lemma region_fold_without (e : string * ClusterInfo)
    (cr cr' : ClusterRegions) (cloud_type : string) (rs : list string) :
  without_entry e cr cr' ->
  Py.truthy (country (snd e)) = false ->
  forall st st',
    res_countries st = res_countries st' ->
    res_countries
      (fold_left (country_region_step (clusters_for cr cloud_type)) rs st) =
    res_countries
      (fold_left (country_region_step (clusters_for cr' cloud_type)) rs st').
Proof.
  intros Hw Hc.
  induction rs as [| r rs IH]; intros st st' Heq; cbn [fold_left].
  - exact Heq.
  - apply IH. unfold country_region_step.
    rewrite !cluster_fold_countries, Heq.
    now apply clusters_fold_without with (e := e).
Qed.

Lemma cloud_fold_without (e : string * ClusterInfo)
    (cr cr' : ClusterRegions) (regions : Py.dict (list string)) :
  without_entry e cr cr' ->
  Py.truthy (country (snd e)) = false ->
  forall st st',
    res_countries st = res_countries st' ->
    res_countries (fold_left (country_cloud_step cr) regions st) =
    res_countries (fold_left (country_cloud_step cr') regions st').
Proof.
  intros Hw Hc.
  induction regions as [| [ct rs] regions IH]; intros st st' Heq;
    cbn [fold_left].
  - exact Heq.
  - apply IH. unfold country_cloud_step.
    now apply region_fold_without with (e := e).
Qed.

(** C5, as the code has it.  Take an entry of a partition that has a
    [location] entry and no country (absent, or empty), and whose region
    is one of the resolved regions listed for that same partition (the
    [aws] list is read against the AWS clusters only, every other list
    against the GCP clusters only).  It adds nothing to the returned
    country list: the list is the same with the entry taken out of the
    registry.  And it is reported: its diagnostic, [name (location)], or
    [name (no location)] when the location is the empty string, is in the
    missing-country list. *)
Theorem entry_without_country_is_reported :
  forall (self : Manager) (regions : Py.dict (list string))
         (cloud_type : string) (region_list : list string)
         (r name loc : string) (info : ClusterInfo),
    In (cloud_type, region_list) regions ->
    In r region_list ->
    In (name, info) (clusters_for (cluster_regions self) cloud_type) ->
    region info = Some r ->
    location info = Some loc ->
    Py.truthy (country info) = false ->
    let '(countries, self') := get_countries_for_regions self regions in
    (exists missing,
        missing_country_clusters self' = Some missing /\
        In (missing_country_label name loc) missing) /\
    (forall cr',
        without_entry (name, info) (cluster_regions self) cr' ->
        res_countries (resolve_countries cr' regions) = countries).
Proof.
  intros self regions cloud_type region_list r name loc info
         Hreg Hr Hin Hregion Hloc Hc.
  unfold get_countries_for_regions. split.
  - eexists. split; [reflexivity |]. unfold resolve_countries.
    apply cloud_fold_reports
      with (cloud_type := cloud_type) (r := r) (rs := region_list)
           (info := info); try assumption.
    unfold region_is. rewrite Hregion. apply String.eqb_refl.
  - intros cr' Hw. symmetry. unfold resolve_countries.
    apply cloud_fold_without with (e := (name, info));
      [exact Hw | exact Hc | reflexivity].
Qed.

Lemma entry_without_country_is_reported_witness :
  let info :=
    {| region := Some "us-east1"; location := Some "South Carolina";
       country := None |} in
  let self :=
    {| country_codes := [("US", "United States")];
       cluster_regions :=
         {| aws_eks_clusters := [];
            gcp_gke_clusters :=
              [("ts-us-e1-n1-gke", info);
               ("ts-us-e1-n2-gke",
                {| region := Some "us-east1"; location := Some "SC";
                   country := Some "US" |})] |};
       found_setups := None;
       not_found_setups := None;
       found_locations := None;
       missing_country_clusters := None |} in
  let regions := [("aws", []); ("gcp", ["us-east1"])] in
  let '(countries, self') := get_countries_for_regions self regions in
  (exists missing,
      missing_country_clusters self' = Some missing /\
      In (missing_country_label "ts-us-e1-n1-gke" "South Carolina") missing) /\
  (forall cr',
      without_entry ("ts-us-e1-n1-gke", info) (cluster_regions self) cr' ->
      res_countries (resolve_countries cr' regions) = countries).
Proof.
  cbv zeta.
  refine (entry_without_country_is_reported _ _ "gcp" ["us-east1"]
            "us-east1" "ts-us-e1-n1-gke" "South Carolina" _ _ _ _ _ _ _).
  - simpl. right. left. reflexivity.
  - simpl. left. reflexivity.
  - simpl. left. reflexivity.
  - reflexivity.
  - reflexivity.
  - reflexivity.
Defined.

(** C5 as stated fails across partitions.  The AWS cluster
    [ts-us-e1-n1-eks] has the region [us-east1], a location and no
    country.  The one setup resolves, through the GCP cluster
    [ts-us-e1-n2-gke], to that same region, which is therefore listed
    under [gcp] only.  The AWS partition is never searched for it, so the
    AWS cluster is not reported: the missing-country list stays empty. *)
Lemma entry_without_country_counterexample :
  let a1 :=
    {| region := Some "us-east1"; location := Some "South Carolina";
       country := None |} in
  let g1 :=
    {| region := Some "us-east1"; location := Some "SC";
       country := Some "US" |} in
  let self :=
    {| country_codes := [];
       cluster_regions :=
         {| aws_eks_clusters := [("ts-us-e1-n1-eks", a1)];
            gcp_gke_clusters := [("ts-us-e1-n2-gke", g1)] |};
       found_setups := None;
       not_found_setups := None;
       found_locations := None;
       missing_country_clusters := None |} in
  let regions :=
    regions_dict (resolve_setups (cluster_regions self) ["ts-us-e1-n2-gke"]) in
  regions = [("aws", []); ("gcp", ["us-east1"])] /\
  In ("ts-us-e1-n1-eks", a1) (aws_eks_clusters (cluster_regions self)) /\
  region a1 = Some "us-east1" /\
  In "us-east1" (regions_gcp
                   (resolve_setups (cluster_regions self)
                                   ["ts-us-e1-n2-gke"])) /\
  location a1 = Some "South Carolina" /\
  country a1 = None /\
  get_countries_for_regions self regions =
    (["US"],
     {| country_codes := [];
        cluster_regions := cluster_regions self;
        found_setups := None;
        not_found_setups := None;
        found_locations := Some ["us-east1 (SC)"];
        missing_country_clusters := Some [] |}) /\
  ~ In (missing_country_label "ts-us-e1-n1-eks" "South Carolina")
       (res_missing_country_clusters
          (resolve_countries (cluster_regions self) regions)).
Proof.
  cbv zeta. repeat split; try reflexivity.
  - left. reflexivity.
  - left. reflexivity.
  - vm_compute. tauto.
Qed.

(** ** Resolution run twice *)

(** C6. Running the resolution (extraction, region resolution, country
    resolution) a second time on the same metadata, on the instance as the
    first run left it, returns the same setups, regions and countries and
    leaves the same four diagnostic lists; the registry is the same
    throughout, and nothing depends on what the instance held before the
    first run. *)
Theorem resolve_channel_twice :
  forall (self : Manager) (delivery_details : json),
    let '(result1, self1) := resolve_channel self delivery_details in
    let '(result2, self2) := resolve_channel self1 delivery_details in
    result2 = result1 /\
    found_setups self2 = found_setups self1 /\
    not_found_setups self2 = not_found_setups self1 /\
    found_locations self2 = found_locations self1 /\
    missing_country_clusters self2 = missing_country_clusters self1 /\
    cluster_regions self2 = cluster_regions self /\
    (forall other : Manager,
        cluster_regions other = cluster_regions self ->
        fst (resolve_channel other delivery_details) = result1).
Proof.
  intros self delivery_details. unfold resolve_channel.
  destruct (extract_setup_values delivery_details) as [| s setups].
  - repeat split; reflexivity.
  - cbn. repeat split; try reflexivity.
    intros other ->. reflexivity.
Qed.

(** The end-to-end example of the spec: one setup, one GCP entry reached
    through the shortened key, the allow-list GB. *)
Example resolve_channel_sample :
  let self :=
    {| country_codes := [];
       cluster_regions :=
         {| aws_eks_clusters := [];
            gcp_gke_clusters :=
              [("ts-us-e1-n2-gke",
                {| region := Some "us-east1"; location := Some "SC";
                   country := Some "US" |})] |};
       found_setups := None;
       not_found_setups := None;
       found_locations := None;
       missing_country_clusters := None |} in
  let data := JDict [("deploy", JDict [("setup", JStr "ts-us-e1-n2")])] in
  fst (resolve_channel self data) =
    Some (["ts-us-e1-n2"], [("aws", []); ("gcp", ["us-east1"])], ["US"]) /\
  check_restrictions
    {| RestrictionType := Some "whitelist"; Items := Some ["GB"] |} ["US"]
  = (["US"], []).
Proof. split; reflexivity. Qed.

(** ** The editor *)

Lemma get_set {V : Type} (k k' : string) (v : V) (d : Py.dict V) :
  Py.get k (Py.set k' v d) = if String.eqb k' k then Some v else Py.get k d.
Proof.
  induction d as [| [k0 v0] d IH]; cbn.
  - reflexivity.
  - destruct (String.eqb k0 k') eqn:E0; cbn.
    + apply String.eqb_eq in E0. subst k0.
      destruct (String.eqb k' k); reflexivity.
    + rewrite IH. destruct (String.eqb k0 k) eqn:E1; [| reflexivity].
      destruct (String.eqb k' k) eqn:E2; [| reflexivity].
      apply String.eqb_eq in E1, E2. subst.
      rewrite String.eqb_refl in E0. discriminate.
Qed.

Lemma reverse_fold_has (name : string) (codes : Py.dict string) :
  forall acc,
    (exists code,
        Py.get name
          (fold_left (fun acc kv => Py.set (Py.lower (snd kv)) (fst kv) acc)
                     codes acc) = Some code) <->
    (exists code, Py.get name acc = Some code) \/
    (exists code display, In (code, display) codes /\ Py.lower display = name).
Proof.
  induction codes as [| [c d] codes IH]; intros acc; cbn [fold_left].
  - split.
    + intros H. now left.
    + intros [H | [code [display [[] _]]]]. exact H.
  - rewrite IH. cbn [fst snd]. rewrite get_set. split.
    + intros [H | [code [display [Hin Hl]]]].
      * destruct (String.eqb (Py.lower d) name) eqn:E.
        -- apply String.eqb_eq in E. right. exists c, d. split; [now left | exact E].
        -- now left.
      * right. exists code, display. split; [now right | exact Hl].
    + intros [H | [code [display [[Heq | Hin] Hl]]]].
      * left. destruct (String.eqb (Py.lower d) name); [now exists c | exact H].
      * inversion Heq; subst. left. rewrite String.eqb_refl. now exists code.
      * right. now exists code, display.
Qed.

Lemma reverse_codes_has (name : string) (codes : Py.dict string) :
  (exists code, Py.get name (_load_country_codes_reverse codes) = Some code)
  <->
  exists code display, In (code, display) codes /\ Py.lower display = name.
Proof.
  unfold _load_country_codes_reverse. rewrite reverse_fold_has. split.
  - intros [[code H] | H]; [discriminate H | exact H].
  - intros H. now right.
Qed.

Lemma nonempty_false (s : string) : Py.nonempty s = false <-> s = EmptyString.
Proof. destruct s; cbn; split; intros H; congruence. Qed.

(** C7, as the code has it.  The typed line is stripped and upper-cased.
    It is accepted (a country code is found for it) exactly when it is
    then non-empty and either is a key of the code table, or its
    lower-casing is the whole lower-cased display name of a country of the
    table.  A line that is not accepted leaves the working list as it
    was, whatever the answer to the confirmation would be. *)
Theorem add_country_accepts_code_or_whole_name :
  forall (codes : Py.dict string) (items : list string)
         (line confirm : string),
    let country_input := Py.upper (Py.strip line) in
    let reverse_codes := _load_country_codes_reverse codes in
    ((exists code, add_country_lookup codes reverse_codes line = Some code)
     <->
     country_input <> EmptyString /\
     (Py.has_key country_input codes = true \/
      exists code display,
        In (code, display) codes /\
        Py.lower display = Py.lower country_input)) /\
    (add_country_lookup codes reverse_codes line = None ->
     _add_country_to_list items codes reverse_codes line confirm = items).
Proof.
  intros codes items line confirm country_input reverse_codes. split.
  - unfold add_country_lookup. fold country_input.
    destruct (Py.nonempty country_input) eqn:Hne; cbn [negb].
    + assert (Hne' : country_input <> EmptyString).
      { intros Heq. apply nonempty_false in Heq. congruence. }
      destruct (Py.has_key country_input codes) eqn:Hkey.
      * split; [intros _; split; [exact Hne' | now left] |].
        intros _. now exists country_input.
      * subst reverse_codes. rewrite reverse_codes_has. split.
        -- intros H. split; [exact Hne' | now right].
        -- intros [_ [H | H]]; [discriminate H | exact H].
    + apply nonempty_false in Hne. split.
      * intros [code H]. discriminate H.
      * intros [H _]. contradiction.
  - intros Hnone. unfold _add_country_to_list. now rewrite Hnone.
Qed.

Lemma add_country_accepts_code_or_whole_name_witness :
  let codes := [("US", "United States"); ("GB", "United Kingdom")] in
  let reverse_codes := _load_country_codes_reverse codes in
  ((exists code,
       add_country_lookup codes reverse_codes " fr " = Some code)
   <->
   Py.upper (Py.strip " fr ") <> EmptyString /\
   (Py.has_key (Py.upper (Py.strip " fr ")) codes = true \/
    exists code display,
      In (code, display) codes /\
      Py.lower display = Py.lower (Py.upper (Py.strip " fr ")))) /\
  _add_country_to_list ["GB"] codes reverse_codes " fr " "yes" = ["GB"].
Proof.
  cbv zeta.
  destruct (add_country_accepts_code_or_whole_name
              [("US", "United States"); ("GB", "United Kingdom")]
              ["GB"] " fr " "yes") as [Hiff Hrej].
  split; [exact Hiff | apply Hrej; reflexivity].
Defined.

(** C7 as stated fails on a part of a name.  [united] occurs, case
    ignored, in the display name [United States], yet the line is not
    accepted and the list stays as it was. *)
Lemma add_country_substring_counterexample :
  let codes := [("US", "United States")] in
  let reverse_codes := _load_country_codes_reverse codes in
  Py.is_substring (Py.lower "united") (Py.lower "United States") = true /\
  add_country_lookup codes reverse_codes "united" = None /\
  _add_country_to_list ["GB"] codes reverse_codes "united" "yes" = ["GB"].
Proof. cbv zeta. repeat split; reflexivity. Qed.

(** The whole name, in any case, and the code, in any case, are accepted. *)
Example add_country_samples :
  let codes := [("US", "United States")] in
  let reverse_codes := _load_country_codes_reverse codes in
  _add_country_to_list ["GB"] codes reverse_codes " united states " "y"
    = ["GB"; "US"] /\
  _add_country_to_list ["GB"] codes reverse_codes "us" "YES" = ["GB"; "US"] /\
  _add_country_to_list ["GB"] codes reverse_codes "us" "no" = ["GB"] /\
  _add_country_to_list ["US"] codes reverse_codes "us" "yes" = ["US"].
Proof. cbv zeta. repeat split; reflexivity. Qed.

Lemma first_name_match_none (codes : Py.dict string) (choice : string)
    (items : list string) :
  (forall code, In code items ->
     Py.is_substring (Py.lower choice)
                     (Py.lower (display_name codes code)) = false) ->
  first_name_match codes choice items = None.
Proof.
  induction items as [| code items IH]; intros Hno; cbn.
  - reflexivity.
  - rewrite (Hno code (or_introl eq_refl)). apply IH.
    intros c Hc. apply Hno. now right.
Qed.

Lemma first_name_match_first (codes : Py.dict string) (choice : string)
    (items : list string) (code : string) :
  first_name_match codes choice items = Some code ->
  exists before after,
    items = before ++ code :: after /\
    Py.is_substring (Py.lower choice)
                    (Py.lower (display_name codes code)) = true /\
    forall c, In c before ->
      Py.is_substring (Py.lower choice)
                      (Py.lower (display_name codes c)) = false.
Proof.
  induction items as [| c0 items IH]; cbn; [discriminate |].
  destruct (Py.is_substring (Py.lower choice)
              (Py.lower (display_name codes c0))) eqn:E.
  - intros [= <-]. exists [], items. repeat split; [exact E |].
    intros c [].
  - intros H. destruct (IH H) as [before [after [-> [Hm Hno]]]].
    exists (c0 :: before), after. repeat split; [exact Hm |].
    intros c [<- | Hc]; [exact E | now apply Hno].
Qed.

(** C8, as the code has it.  The typed line is stripped.  The working
    list stays as it was when the choice is empty, when it is absent (its
    upper-casing is no listed code, and it occurs, case ignored, in no
    listed country's display name), and when the confirmation is
    declined.  An ambiguous choice is not turned away.  A choice that is
    not empty and whose upper-casing is a listed code selects that code.
    Any other choice that is not empty selects the first listed country
    whose display name contains it, case ignored.  Once the removal is
    confirmed with yes or y, the selected code, when it is not the empty
    string, is taken out of the list at its first place. *)
Theorem remove_country_absent_or_declined :
  forall (items : list string) (codes : Py.dict string)
         (line confirm : string),
    let choice := Py.strip line in
    let named code :=
      Py.is_substring (Py.lower choice)
                      (Py.lower (display_name codes code)) = true in
    let result := _remove_country_from_list items codes line confirm in
    (choice = EmptyString -> result = items) /\
    (~ In (Py.upper choice) items ->
     (forall code, In code items -> ~ named code) ->
     result = items) /\
    (confirmed confirm = false -> result = items) /\
    (choice <> EmptyString ->
     In (Py.upper choice) items ->
     confirmed confirm = true ->
     result = Py.remove_first (Py.upper choice) items) /\
    (forall before code after,
        choice <> EmptyString ->
        ~ In (Py.upper choice) items ->
        items = before ++ code :: after ->
        (forall c, In c before -> ~ named c) ->
        named code ->
        code <> EmptyString ->
        confirmed confirm = true ->
        result = before ++ after /\
        result = Py.remove_first code items).
Proof.
  intros items codes line confirm choice named result.
  subst result. unfold _remove_country_from_list. fold choice.
  split; [| split; [| split; [| split]]].
  - intros Hempty. destruct items as [| i items]; [reflexivity |].
    now rewrite Hempty.
  - intros Hcode Hname. destruct items as [| i items]; [reflexivity |].
    destruct (Py.nonempty choice); cbn [negb]; [| reflexivity].
    unfold find_country_to_remove.
    apply mem_not_In in Hcode. rewrite Hcode.
    rewrite first_name_match_none; [reflexivity |].
    intros code Hin. specialize (Hname code Hin). unfold named in Hname.
    now destruct (Py.is_substring _ _).
  - intros Hno. destruct items as [| i items]; [reflexivity |].
    destruct (Py.nonempty choice); cbn [negb]; [| reflexivity].
    rewrite Hno. now destruct (Py.truthy _).
  - intros Hchoice Hin Hyes.
    destruct items as [| i items]; [contradiction |].
    rewrite (nonempty_true _ Hchoice). cbn [negb].
    unfold find_country_to_remove. apply mem_In in Hin. rewrite Hin, Hyes.
    cbn [Py.truthy Py.str_of].
    assert (Hne : Py.nonempty (Py.upper choice) = true).
    { destruct choice; [congruence | reflexivity]. }
    now rewrite Hne.
  - intros before code after Hchoice Hcode Hitems Hbefore Hnamed Hne Hyes.
    assert (Hfirst : first_name_match codes choice items = Some code).
    { rewrite Hitems. clear Hitems Hcode.
      induction before as [| b before IH]; cbn [app first_name_match].
      - unfold named in Hnamed. now rewrite Hnamed.
      - assert (Hb : Py.is_substring (Py.lower choice)
                       (Py.lower (display_name codes b)) = false).
        { specialize (Hbefore b (or_introl eq_refl)). unfold named in Hbefore.
          now destruct (Py.is_substring _ _). }
        rewrite Hb. apply IH. intros c Hc. apply Hbefore. now right. }
    assert (Hfresh : ~ In code before).
    { intros Hin. now apply (Hbefore code Hin). }
    assert (Hrm : Py.remove_first code items = before ++ after).
    { rewrite Hitems. clear Hitems Hfirst Hcode Hbefore.
      induction before as [| b before IH]; cbn [app Py.remove_first].
      - now rewrite String.eqb_refl.
      - destruct (String.eqb b code) eqn:E.
        + apply String.eqb_eq in E. subst b. elim Hfresh. now left.
        + f_equal. apply IH. intros Hin. apply Hfresh. now right. }
    rewrite <- Hrm.
    assert (Hres :
      match items with
      | [] => items
      | _ :: _ =>
          if negb (Py.nonempty choice) then items
          else if Py.truthy (find_country_to_remove items codes choice)
               then if confirmed confirm
                    then Py.remove_first
                           (Py.str_of
                              (find_country_to_remove items codes choice))
                           items
                    else items
               else items
      end = Py.remove_first code items).
    { destruct items as [| i items']; [now destruct before |].
      rewrite (nonempty_true _ Hchoice). cbn [negb].
      unfold find_country_to_remove.
      apply mem_not_In in Hcode. rewrite Hcode, Hfirst, Hyes.
      cbn [Py.truthy Py.str_of]. now rewrite (nonempty_true _ Hne). }
    split; exact Hres.
Qed.

Lemma remove_country_absent_or_declined_witness :
  let codes := [("US", "United States"); ("GB", "United Kingdom")] in
  _remove_country_from_list ["US"; "GB"] codes "france" "yes" = ["US"; "GB"]
  /\ _remove_country_from_list ["US"; "GB"] codes "king" "no" = ["US"; "GB"]
  /\ _remove_country_from_list ["US"; "GB"] codes "king" "yes" = ["US"].
Proof.
  cbv zeta.
  split; [| split].
  - destruct (remove_country_absent_or_declined
                ["US"; "GB"]
                [("US", "United States"); ("GB", "United Kingdom")]
                "france" "yes") as [_ [Habsent _]].
    apply Habsent.
    + intros [H | [H | []]]; discriminate H.
    + intros code [<- | [<- | []]]; discriminate.
  - destruct (remove_country_absent_or_declined
                ["US"; "GB"]
                [("US", "United States"); ("GB", "United Kingdom")]
                "king" "no") as [_ [_ [Hdeclined _]]].
    apply Hdeclined. reflexivity.
  - destruct (remove_country_absent_or_declined
                ["US"; "GB"]
                [("US", "United States"); ("GB", "United Kingdom")]
                "king" "yes") as [_ [_ [_ [_ Hfirst]]]].
    apply (Hfirst ["US"] "GB" []).
    + discriminate.
    + intros [H | [H | []]]; discriminate H.
    + reflexivity.
    + intros c [<- | []]. discriminate.
    + reflexivity.
    + discriminate.
    + reflexivity.
Defined.

(** C8 as stated fails on an ambiguous choice.  [united] occurs in the
    display names of both listed countries; the first of them is picked
    and, the removal confirmed, taken out of the list. *)
Lemma remove_country_ambiguous_counterexample :
  let codes := [("US", "United States"); ("GB", "United Kingdom")] in
  let items := ["US"; "GB"] in
  Py.is_substring (Py.lower "united")
                  (Py.lower (display_name codes "US")) = true /\
  Py.is_substring (Py.lower "united")
                  (Py.lower (display_name codes "GB")) = true /\
  _remove_country_from_list items codes "united" "yes" = ["GB"] /\
  _remove_country_from_list items codes "united" "yes" <> items.
Proof. cbv zeta. repeat split; try reflexivity. discriminate. Qed.

(** ** The account scan *)

Lemma scan_accounts_skips (distribution_id : string)
    (skipped rest : Py.dict Client) :
  Forall (fun kv =>
            skips_account (get_distribution (snd kv) (JStr distribution_id)))
         skipped ->
  scan_accounts distribution_id (skipped ++ rest) =
  (fst (scan_accounts distribution_id rest),
   calls_to distribution_id skipped
   ++ snd (scan_accounts distribution_id rest)).
Proof.
  induction 1 as [| [account_name client] skipped Hskip _ IH].
  - cbn. now destruct (scan_accounts distribution_id rest).
  - cbn [app scan_accounts calls_to map fst snd] in *.
    rewrite IH. destruct Hskip as [-> | ->]; reflexivity.
Qed.

Lemma scan_accounts_invalid (distribution_id account_name : string)
    (client : Client) (rest : Py.dict Client) :
  get_distribution client (JStr distribution_id)
    = ClientError (Some "InvalidArgument") ->
  scan_accounts distribution_id ((account_name, client) :: rest) =
  (None, [CallGet account_name (JStr distribution_id)]).
Proof. intros H. cbn. rewrite H. reflexivity. Qed.

Lemma strip_nonempty (s : string) :
  Py.nonempty (Py.strip s) = true -> Py.nonempty s = true.
Proof. destruct s; [discriminate | reflexivity]. Qed.

(** C9. For a distribution identifier that is not blank, accounts that
    answer not-found or access-denied are passed over: the scan goes on
    with the accounts after them, and its result is the result of scanning
    those.  An account that answers [InvalidArgument] ends the scan: the
    result is the failure [None], and no account after it is queried. *)
Theorem scan_continues_or_stops :
  forall (distribution_id : string) (skipped after : Py.dict Client)
         (account_name : string) (client : Client),
    Py.nonempty (Py.strip distribution_id) = true ->
    Forall (fun kv =>
              skips_account (get_distribution (snd kv) (JStr distribution_id)))
           skipped ->
    get_distribution_info (skipped ++ after) distribution_id =
      (fst (get_distribution_info after distribution_id),
       calls_to distribution_id skipped
       ++ snd (get_distribution_info after distribution_id)) /\
    (get_distribution client (JStr distribution_id)
       = ClientError (Some "InvalidArgument") ->
     get_distribution_info (skipped ++ (account_name, client) :: after)
                           distribution_id =
       (None,
        calls_to distribution_id skipped
        ++ [CallGet account_name (JStr distribution_id)])).
Proof.
  intros distribution_id skipped after account_name client Hid Hskip.
  unfold get_distribution_info.
  rewrite Hid, (strip_nonempty _ Hid). cbn [negb orb].
  split.
  - now apply scan_accounts_skips.
  - intros Hinvalid. rewrite (scan_accounts_skips _ _ _ Hskip).
    now rewrite (scan_accounts_invalid _ _ _ _ Hinvalid).
Qed.

Lemma scan_continues_or_stops_witness :
  let answers (a : api_result (Py.dict json)) :=
    {| get_distribution := fun _ => a;
       update_distribution := fun _ _ _ => OtherError |} in
  let not_found := answers (ClientError (Some "NoSuchDistribution")) in
  let denied := answers (ClientError (Some "AccessDenied")) in
  let invalid := answers (ClientError (Some "InvalidArgument")) in
  let holder :=
    answers (Returned [("ETag", JStr "E1"); ("Distribution", JDict [])]) in
  get_distribution_info
    [("a", not_found); ("b", denied); ("c", holder)] "E123" =
    (Some ("c", JDict []),
     [CallGet "a" (JStr "E123"); CallGet "b" (JStr "E123");
      CallGet "c" (JStr "E123")]) /\
  get_distribution_info
    [("a", not_found); ("b", denied); ("d", invalid); ("c", holder)] "E123" =
    (None,
     [CallGet "a" (JStr "E123"); CallGet "b" (JStr "E123");
      CallGet "d" (JStr "E123")]).
Proof.
  cbv zeta.
  pose (answers := fun a : api_result (Py.dict json) =>
          {| get_distribution := fun _ => a;
             update_distribution := fun _ _ _ => OtherError |}).
  destruct (scan_continues_or_stops "E123"
              [("a", answers (ClientError (Some "NoSuchDistribution")));
               ("b", answers (ClientError (Some "AccessDenied")))]
              [("c", answers (Returned [("ETag", JStr "E1");
                                        ("Distribution", JDict [])]))]
              "d" (answers (ClientError (Some "InvalidArgument"))))
    as [Hgo Hstop].
  - reflexivity.
  - constructor; [left; reflexivity |].
    constructor; [right; reflexivity | constructor].
  - split.
    + exact Hgo.
    + exact (Hstop eq_refl).
Defined.

(** ** Applying the edits *)

Lemma get_del_other {V : Type} (k k' : string) (d : Py.dict V) :
  k <> k' -> Py.get k (Py.del k' d) = Py.get k d.
Proof.
  intros Hne. unfold Py.del.
  induction d as [| [k0 v0] d IH]; cbn; [reflexivity |].
  destruct (String.eqb k0 k') eqn:E; cbn.
  - apply String.eqb_eq in E. subst k0.
    destruct (String.eqb k' k) eqn:E'; [| exact IH].
    apply String.eqb_eq in E'. congruence.
  - now rewrite IH.
Qed.

Lemma get_del_same {V : Type} (k : string) (d : Py.dict V) :
  Py.get k (Py.del k d) = None.
Proof.
  unfold Py.del. induction d as [| [k0 v0] d IH]; cbn; [reflexivity |].
  destruct (String.eqb k0 k) eqn:E; cbn; [exact IH |].
  now rewrite E.
Qed.

Lemma get_set_other {V : Type} (k k' : string) (v : V) (d : Py.dict V) :
  k <> k' -> Py.get k (Py.set k' v d) = Py.get k d.
Proof.
  intros Hne. rewrite get_set.
  destruct (String.eqb k' k) eqn:E; [| reflexivity].
  apply String.eqb_eq in E. congruence.
Qed.

Lemma get_set_same {V : Type} (k : string) (v : V) (d : Py.dict V) :
  Py.get k (Py.set k v d) = Some v.
Proof. now rewrite get_set, String.eqb_refl. Qed.

Lemma has_key_false {V : Type} (k : string) (d : Py.dict V) :
  Py.has_key k d = false -> Py.get k d = None.
Proof. unfold Py.has_key. now destruct (Py.get k d). Qed.

(** Only [Restrictions] differs between the held configuration and the
    copy that is submitted. *)
Lemma update_geo_frame_top (held config held' : Py.dict json)
    (restriction_type : string) (items : list string) :
  update_geo_restrictions held restriction_type items = Some (config, held') ->
  forall key, key <> "Restrictions" -> Py.get key config = Py.get key held.
Proof.
  unfold update_geo_restrictions. intros H key Hkey.
  destruct (String.eqb restriction_type "none").
  - destruct (Py.get "Restrictions" held) as [v |];
      [| now inversion H].
    destruct (json_contains "GeoRestriction" v) as [[|] |];
      [| | discriminate H].
    + destruct v as [| | | | | d]; try discriminate H.
      destruct (Py.del "GeoRestriction" d); inversion H; subst;
        rewrite ?get_del_other, ?get_set_other by assumption; reflexivity.
    + destruct (json_truthy v); inversion H; subst;
        rewrite ?get_del_other by assumption; reflexivity.
  - destruct (Py.get "Restrictions" held) as [v |].
    + destruct v as [| | | | | d]; try discriminate H.
      inversion H; subst. now rewrite get_set_other.
    + inversion H; subst. now rewrite get_set_other.
Qed.

(** Inside [Restrictions], only [GeoRestriction] differs. *)
Lemma update_geo_frame_inner (held config held' : Py.dict json)
    (restriction_type : string) (items : list string) :
  update_geo_restrictions held restriction_type items = Some (config, held') ->
  forall key, key <> "GeoRestriction" ->
    restrictions_get key config = restrictions_get key held.
Proof.
  unfold update_geo_restrictions, restrictions_get. intros H key Hkey.
  destruct (String.eqb restriction_type "none").
  - destruct (Py.get "Restrictions" held) as [v |] eqn:Hv;
      [| inversion H; subst; now rewrite Hv].
    destruct (json_contains "GeoRestriction" v) as [[|] |];
      [| | discriminate H].
    + destruct v as [| | | | | d]; try discriminate H.
      rewrite <- (get_del_other key "GeoRestriction" d Hkey).
      destruct (Py.del "GeoRestriction" d) as [| kv d'] eqn:Hd;
        inversion H; subst.
      * now rewrite get_del_same.
      * now rewrite get_set_same.
    + destruct (json_truthy v) eqn:Ht; inversion H; subst.
      * now rewrite Hv.
      * rewrite get_del_same.
        destruct v as [| | | | | d]; try reflexivity.
        destruct d; [reflexivity | discriminate Ht].
  - destruct (Py.get "Restrictions" held) as [v |] eqn:Hv.
    + destruct v as [| | | | | d]; try discriminate H.
      inversion H; subst. rewrite get_set_same. now rewrite get_set_other.
    + inversion H; subst. rewrite get_set_same. cbn [Py.get].
      destruct (String.eqb "GeoRestriction" key) eqn:E; [| reflexivity].
      apply String.eqb_eq in E. congruence.
Qed.

(** [GeoRestriction] itself holds the edited value, or is gone when the
    restrictions are cleared. *)
Lemma update_geo_sets_field (held config held' : Py.dict json)
    (restriction_type : string) (items : list string) :
  update_geo_restrictions held restriction_type items = Some (config, held') ->
  restrictions_get "GeoRestriction" config =
  if String.eqb restriction_type "none" then None
  else Some (geo_restriction_value restriction_type items).
Proof.
  unfold update_geo_restrictions, restrictions_get. intros H.
  destruct (String.eqb restriction_type "none").
  - destruct (Py.get "Restrictions" held) as [v |] eqn:Hv;
      [| inversion H; subst; now rewrite Hv].
    destruct (json_contains "GeoRestriction" v) as [[|] |] eqn:Hc;
      [| | discriminate H].
    + destruct v as [| | | | | d]; try discriminate H.
      pose proof (get_del_same "GeoRestriction" d) as Hgone.
      destruct (Py.del "GeoRestriction" d) as [| kv d'] eqn:Hd;
        inversion H; subst.
      * now rewrite get_del_same.
      * now rewrite get_set_same.
    + destruct (json_truthy v) eqn:Ht; inversion H; subst.
      * rewrite Hv. destruct v as [| | | | | d]; try reflexivity.
        cbn [json_contains] in Hc. injection Hc as Hk.
        now apply has_key_false.
      * now rewrite get_del_same.
  - destruct (Py.get "Restrictions" held) as [v |] eqn:Hv.
    + destruct v as [| | | | | d]; try discriminate H.
      inversion H; subst. now rewrite !get_set_same.
    + inversion H; subst. now rewrite get_set_same.
Qed.

(** The held configuration shares the [Restrictions] dict with the copy,
    so the edit shows in it too; everything else in it stays. *)
Lemma update_geo_held_frame (held config held' : Py.dict json)
    (restriction_type : string) (items : list string) :
  update_geo_restrictions held restriction_type items = Some (config, held') ->
  (forall key, key <> "Restrictions" -> Py.get key held' = Py.get key held) /\
  (forall key, key <> "GeoRestriction" ->
     restrictions_get key held' = restrictions_get key held).
Proof.
  unfold update_geo_restrictions, restrictions_get. intros H.
  destruct (String.eqb restriction_type "none").
  - destruct (Py.get "Restrictions" held) as [v |] eqn:Hv;
      [| inversion H; subst; split; intros; rewrite ?Hv; reflexivity].
    destruct (json_contains "GeoRestriction" v) as [[|] |];
      [| | discriminate H].
    + destruct v as [| | | | | d]; try discriminate H.
      assert (held' = Py.set "Restrictions"
                        (JDict (Py.del "GeoRestriction" d)) held) as ->
        by (destruct (Py.del "GeoRestriction" d); now inversion H).
      split; intros key Hkey.
      * now apply get_set_other.
      * rewrite get_set_same. now apply get_del_other.
    + destruct (json_truthy v); inversion H; subst; split; intros;
        rewrite ?Hv; reflexivity.
  - destruct (Py.get "Restrictions" held) as [v |] eqn:Hv.
    + destruct v as [| | | | | d]; try discriminate H.
      inversion H; subst. split; intros key Hkey.
      * now apply get_set_other.
      * rewrite get_set_same. now apply get_set_other.
    + inversion H; subst. split; intros; rewrite ?Hv; reflexivity.
Qed.

Lemma apply_keeps_held_frame (clients : Py.dict Client)
    (info : DistributionInfo) (restriction_type : string)
    (items : list string) :
  let info' :=
    snd (_apply_changes_to_cloudfront clients info restriction_type items) in
  (forall key, key <> "Restrictions" ->
     Py.get key (distribution_config info') =
     Py.get key (distribution_config info)) /\
  (forall key, key <> "GeoRestriction" ->
     restrictions_get key (distribution_config info') =
     restrictions_get key (distribution_config info)).
Proof.
  unfold _apply_changes_to_cloudfront.
  destruct (Py.get (account info) clients) as [client |]; [| now split].
  destruct (update_geo_restrictions _ _ _) as [[config held'] |] eqn:Hedit;
    [| now split].
  pose proof (update_geo_held_frame _ _ _ _ _ Hedit) as Hframe.
  destruct (get_distribution client (distribution_Id info))
    as [current_dist | code |]; try exact Hframe.
  destruct (Py.get "ETag" current_dist) as [etag |]; [| exact Hframe].
  now destruct (update_distribution client _ _ _).
Qed.

(** When an update call is made, it is the second of two calls: the first
    fetches the distribution again and gives the [ETag]. *)
Lemma apply_update_call (clients : Py.dict Client) (info : DistributionInfo)
    (restriction_type : string) (items : list string)
    (acct : string) (id : json) (config : Py.dict json) (etag : json) :
  In (CallUpdate acct id config etag)
     (calls_of (_apply_changes_to_cloudfront clients info restriction_type
                                             items)) ->
  exists client held' current_dist,
    Py.get (account info) clients = Some client /\
    update_geo_restrictions (distribution_config info) restriction_type items
      = Some (config, held') /\
    get_distribution client (distribution_Id info) = Returned current_dist /\
    Py.get "ETag" current_dist = Some etag /\
    acct = account info /\
    id = distribution_Id info /\
    calls_of (_apply_changes_to_cloudfront clients info restriction_type items)
      = [CallGet acct id; CallUpdate acct id config etag].
Proof.
  unfold _apply_changes_to_cloudfront, calls_of.
  destruct (Py.get (account info) clients) as [client |]; [| intros []].
  destruct (update_geo_restrictions _ _ _) as [[config0 held'] |];
    [| intros []].
  destruct (get_distribution client (distribution_Id info))
    as [current_dist | code |] eqn:Hget;
    try (cbn; intros [H | []]; discriminate H).
  destruct (Py.get "ETag" current_dist) as [etag0 |] eqn:Hetag;
    [| cbn; intros [H | []]; discriminate H].
  intros Hin.
  assert (Hcall : CallUpdate acct id config etag =
                  CallUpdate (account info) (distribution_Id info)
                             config0 etag0).
  { destruct (update_distribution client _ _ _); cbn in Hin;
      destruct Hin as [H | [H | []]]; try discriminate H; now symmetry. }
  injection Hcall as -> -> -> ->.
  exists client, held', current_dist.
  repeat split; try assumption; try reflexivity.
  now destruct (update_distribution client _ _ _).
Qed.

(** C10. Whenever the edits reach the update call, the configuration
    passed to it is the one held since the start of the session with only
    [Restrictions] / [GeoRestriction] changed (set to the edited value, or
    taken out when the restrictions are cleared): every other top-level
    entry and every other entry of [Restrictions] has the value that was
    held.  The [IfMatch] token is the [ETag] of a [get_distribution] call
    made just before, the only other call of the run.  The configuration
    of that fresh answer is not used: whatever the provider answers, the
    same configuration is submitted.  The held configuration itself keeps
    all its other entries through the run, so a later run of the same
    session still writes the session-start values. *)
Theorem apply_submits_held_config_with_fresh_etag :
  forall (clients : Py.dict Client) (info : DistributionInfo)
         (restriction_type : string) (items : list string)
         (acct : string) (id : json) (config : Py.dict json) (etag : json),
    In (CallUpdate acct id config etag)
       (calls_of (_apply_changes_to_cloudfront clients info restriction_type
                                               items)) ->
    (forall key, key <> "Restrictions" ->
       Py.get key config = Py.get key (distribution_config info)) /\
    (forall key, key <> "GeoRestriction" ->
       restrictions_get key config =
       restrictions_get key (distribution_config info)) /\
    restrictions_get "GeoRestriction" config =
      (if String.eqb restriction_type "none" then None
       else Some (geo_restriction_value restriction_type items)) /\
    (exists client current_dist,
        Py.get (account info) clients = Some client /\
        get_distribution client (distribution_Id info)
          = Returned current_dist /\
        Py.get "ETag" current_dist = Some etag /\
        calls_of (_apply_changes_to_cloudfront clients info restriction_type
                                               items)
          = [CallGet (account info) (distribution_Id info);
             CallUpdate (account info) (distribution_Id info) config etag]) /\
    (forall clients2 acct2 id2 config2 etag2,
        In (CallUpdate acct2 id2 config2 etag2)
           (calls_of (_apply_changes_to_cloudfront clients2 info
                                                   restriction_type items)) ->
        config2 = config) /\
    (let info' :=
       snd (_apply_changes_to_cloudfront clients info restriction_type items)
     in
     (forall key, key <> "Restrictions" ->
        Py.get key (distribution_config info') =
        Py.get key (distribution_config info)) /\
     (forall key, key <> "GeoRestriction" ->
        restrictions_get key (distribution_config info') =
        restrictions_get key (distribution_config info))).
Proof.
  intros clients info restriction_type items acct id config etag Hin.
  destruct (apply_update_call _ _ _ _ _ _ _ _ Hin)
    as [client [held' [current_dist
         [Hclient [Hedit [Hget [Hetag [-> [-> Hcalls]]]]]]]]].
  split; [| split; [| split; [| split; [| split]]]].
  - now apply update_geo_frame_top with (1 := Hedit).
  - now apply update_geo_frame_inner with (1 := Hedit).
  - now apply update_geo_sets_field with (1 := Hedit).
  - now exists client, current_dist.
  - intros clients2 acct2 id2 config2 etag2 Hin2.
    destruct (apply_update_call _ _ _ _ _ _ _ _ Hin2)
      as [_ [held2 [_ [_ [Hedit2 _]]]]].
    congruence.
  - apply apply_keeps_held_frame.
Qed.

(** A session that holds a configuration with a comment and an allow-list
    for GB; meanwhile the remote record got another comment and the tag
    E2.  Applying the allow-list US, GB submits the held comment with the
    fresh tag. *)
Lemma apply_submits_held_config_with_fresh_etag_witness :
  let held :=
    [("Comment", JStr "at session start");
     ("Restrictions",
      JDict [("GeoRestriction", geo_restriction_value "whitelist" ["GB"])])] in
  let remote :=
    [("Comment", JStr "changed meanwhile");
     ("Restrictions",
      JDict [("GeoRestriction", geo_restriction_value "whitelist" ["GB"])])] in
  let client :=
    {| get_distribution := fun _ =>
         Returned [("ETag", JStr "E2");
                   ("Distribution",
                    JDict [("Id", JStr "E123");
                           ("DistributionConfig", JDict remote)])];
       update_distribution := fun _ _ _ => Returned [("ETag", JStr "E3")] |} in
  let info :=
    {| account := "main"; distribution_Id := JStr "E123";
       distribution_config := held |} in
  let submitted :=
    [("Comment", JStr "at session start");
     ("Restrictions",
      JDict [("GeoRestriction",
              geo_restriction_value "whitelist" ["US"; "GB"])])] in
  _apply_changes_to_cloudfront [("main", client)] info "whitelist"
                               ["US"; "GB"]
  = (true,
     [CallGet "main" (JStr "E123");
      CallUpdate "main" (JStr "E123") submitted (JStr "E2")],
     {| account := "main"; distribution_Id := JStr "E123";
        distribution_config := submitted |}) /\
  Py.get "Comment" submitted = Py.get "Comment" held.
Proof.
  cbv zeta. split; [reflexivity |].
  pose (held :=
    [("Comment", JStr "at session start");
     ("Restrictions",
      JDict [("GeoRestriction", geo_restriction_value "whitelist" ["GB"])])]).
  pose (client :=
    {| get_distribution := fun _ : json =>
         Returned [("ETag", JStr "E2");
                   ("Distribution",
                    JDict [("Id", JStr "E123");
                           ("DistributionConfig",
                            JDict
                              [("Comment", JStr "changed meanwhile");
                               ("Restrictions",
                                JDict [("GeoRestriction",
                                        geo_restriction_value "whitelist"
                                                              ["GB"])])])])];
       update_distribution := fun (_ : json) (_ : Py.dict json) (_ : json) =>
         Returned [("ETag", JStr "E3")] |}).
  pose (submitted :=
    [("Comment", JStr "at session start");
     ("Restrictions",
      JDict [("GeoRestriction",
              geo_restriction_value "whitelist" ["US"; "GB"])])]).
  assert (Hcall :
    In (CallUpdate "main" (JStr "E123") submitted (JStr "E2"))
       (calls_of (_apply_changes_to_cloudfront
                    [("main", client)]
                    {| account := "main"; distribution_Id := JStr "E123";
                       distribution_config := held |}
                    "whitelist" ["US"; "GB"]))).
  { right. left. reflexivity. }
  destruct (apply_submits_held_config_with_fresh_etag _ _ _ _ _ _ _ _ Hcall)
    as [Htop _].
  apply (Htop "Comment"). discriminate.
Defined.

(* ================================================================== *)
(** * Further properties of the resolver *)

(** ** Regions and found setups *)

Lemma aws_fold_regions (setups : list string) (cl : Py.dict ClusterInfo) :
  forall st,
    fst (fold_left (aws_cluster_step setups) cl st) =
    fst st ++ flat_map (aws_matched_region setups) cl.
Proof.
  induction cl as [| [k info] cl IH]; intros st; cbn [fold_left flat_map].
  - now rewrite app_nil_r.
  - rewrite IH. unfold aws_cluster_step, aws_matched_region. cbn [fst snd].
    destruct (Py.mem k setups); [| now rewrite app_nil_l].
    destruct (region info) as [r |]; [| now rewrite app_nil_l].
    destruct (Py.nonempty r); cbn [fst]; [| now rewrite app_nil_l].
    now rewrite <- app_assoc.
Qed.

Lemma nonempty_iff (s : string) : Py.nonempty s = true <-> s <> EmptyString.
Proof. destruct s; cbn; split; congruence. Qed.

Lemma matched_region_In (r : string) (info : ClusterInfo) :
  In r match region info with
       | Some r' => if Py.nonempty r' then [r'] else []
       | None => []
       end <->
  region info = Some r /\ r <> EmptyString.
Proof.
  destruct (region info) as [r' |]; [| split; [intros [] | intros [H _]];
                                       discriminate H].
  destruct (Py.nonempty r') eqn:E.
  - split.
    + intros [-> | []]. split; [reflexivity | now apply nonempty_iff].
    + intros [[= ->] _]. now left.
  - split; [intros [] |]. intros [[= ->] Hne].
    apply nonempty_iff in Hne. congruence.
Qed.

Lemma regions_iff_matching_entries :
  forall (cr : ClusterRegions) (setups : list string) (r : string),
    let res := resolve_setups cr setups in
    (In r (regions_aws res) <->
     exists k info,
       In (k, info) (aws_eks_clusters cr) /\ In k setups /\
       region info = Some r /\ r <> EmptyString) /\
    (In r (regions_gcp res) <->
     exists k info,
       In (k, info) (gcp_gke_clusters cr) /\
       (In k setups \/ In (Py.replace_gke k) setups) /\
       region info = Some r /\ r <> EmptyString).
Proof.
  intros cr setups r res. subst res.
  cbn [resolve_setups regions_aws regions_gcp].
  rewrite aws_fold_regions, gcp_fold_regions. cbn [fst app].
  rewrite !in_flat_map. split.
  - split.
    + intros [[k info] [Hin Hr]]. unfold aws_matched_region in Hr.
      cbn [fst snd] in Hr. destruct (Py.mem k setups) eqn:Hk; [| destruct Hr].
      apply matched_region_In in Hr. apply mem_In in Hk.
      exists k, info. tauto.
    + intros [k [info [Hin [Hk Hr]]]]. exists (k, info). split; [exact Hin |].
      unfold aws_matched_region. cbn [fst snd].
      apply mem_In in Hk. rewrite Hk. now apply matched_region_In.
  - split.
    + intros [[k info] [Hin Hr]]. unfold gcp_matched_region in Hr.
      cbn [fst snd] in Hr.
      destruct (Py.mem k setups || Py.mem (Py.replace_gke k) setups) eqn:Hk;
        [| destruct Hr].
      apply matched_region_In in Hr. apply orb_true_iff in Hk.
      rewrite !mem_In in Hk. exists k, info. tauto.
    + intros [k [info [Hin [Hk Hr]]]]. exists (k, info). split; [exact Hin |].
      unfold gcp_matched_region. cbn [fst snd].
      rewrite <- !mem_In, <- orb_true_iff in Hk. rewrite Hk.
      now apply matched_region_In.
Qed.

(** X1. The region lists hold exactly the regions of the matching
    entries.  A region is in the AWS list exactly when an AWS entry whose
    key is one of the setups has it as its non-empty region; it is in the
    GCP list exactly when a GCP entry has it as its non-empty region and
    the key, or the key with [-gke] removed, is one of the setups. *)
Theorem regions_are_those_of_matching_entries :
  forall (cr : ClusterRegions) (setups : list string) (r : string),
    let res := resolve_setups cr setups in
    (In r (regions_aws res) <->
     exists k info,
       In (k, info) (aws_eks_clusters cr) /\ In k setups /\
       region info = Some r /\ r <> EmptyString) /\
    (In r (regions_gcp res) <->
     exists k info,
       In (k, info) (gcp_gke_clusters cr) /\
       (In k setups \/ In (Py.replace_gke k) setups) /\
       region info = Some r /\ r <> EmptyString).
Proof. intros cr setups r. apply regions_iff_matching_entries. Qed.

Lemma aws_step_lengths (setups : list string) (c : string * ClusterInfo)
    (st : list string * list string) :
  let st' := aws_cluster_step setups st c in
  List.length (fst st') + List.length (snd st)
  = List.length (fst st) + List.length (snd st').
Proof.
  destruct c as [k info]. unfold aws_cluster_step.
  destruct (Py.mem k setups); [| reflexivity].
  destruct (region info) as [r |]; [| reflexivity].
  destruct (Py.nonempty r); [| reflexivity].
  cbn [fst snd]. rewrite !length_app. cbn. lia.
Qed.

Lemma gcp_step_lengths (setups : list string) (c : string * ClusterInfo)
    (st : list string * list string) :
  let st' := gcp_cluster_step setups st c in
  List.length (fst st') + List.length (snd st)
  = List.length (fst st) + List.length (snd st').
Proof.
  destruct c as [k info]. unfold gcp_cluster_step.
  destruct (Py.mem k setups).
  - destruct (region info) as [r |]; [| reflexivity].
    destruct (Py.nonempty r); [| reflexivity].
    cbn [fst snd]. rewrite !length_app. cbn. lia.
  - destruct (Py.mem (Py.replace_gke k) setups); [| reflexivity].
    destruct (region info) as [r |]; [| reflexivity].
    destruct (Py.nonempty r); [| reflexivity].
    cbn [fst snd]. rewrite !length_app. cbn. lia.
Qed.

Lemma fold_lengths (step : list string * list string ->
                           string * ClusterInfo -> list string * list string)
    (cl : Py.dict ClusterInfo) :
  (forall st c,
      List.length (fst (step st c)) + List.length (snd st)
      = List.length (fst st) + List.length (snd (step st c))) ->
  forall st,
    List.length (fst (fold_left step cl st)) + List.length (snd st)
    = List.length (fst st) + List.length (snd (fold_left step cl st)).
Proof.
  intros Hstep. induction cl as [| c cl IH]; intros st; cbn [fold_left].
  - reflexivity.
  - specialize (IH (step st c)). specialize (Hstep st c). lia.
Qed.

Lemma one_found_label_per_region_aux (cr : ClusterRegions)
    (setups : list string) :
  List.length (res_found_setups (resolve_setups cr setups))
  = List.length (regions_aws (resolve_setups cr setups))
    + List.length (regions_gcp (resolve_setups cr setups)).
Proof.
  cbn [resolve_setups res_found_setups regions_aws regions_gcp].
  pose proof (fold_lengths (aws_cluster_step setups) (aws_eks_clusters cr)
                (fun st c => aws_step_lengths setups c st) ([], [])) as Haws.
  pose proof (fold_lengths (gcp_cluster_step setups) (gcp_gke_clusters cr)
                (fun st c => gcp_step_lengths setups c st)
                ([], snd (fold_left (aws_cluster_step setups)
                                    (aws_eks_clusters cr) ([], [])))) as Hgcp.
  cbn [fst snd List.length] in Haws, Hgcp. lia.
Qed.


Lemma filter_all {A : Type} (f : A -> bool) (l : list A) :
  (forall x, In x l -> f x = true) -> filter f l = l.
Proof.
  induction l as [| x l IH]; intros H; cbn; [reflexivity |].
  rewrite (H x (or_introl eq_refl)). f_equal. apply IH.
  intros y Hy. apply H. now right.
Qed.

(** X3. When no setup is found, every setup is reported: if the
    found-setups list comes out empty, the not-found list is the whole
    list of setup values, in order, and both region lists are empty.  This
    is what the empty registry (the fallback for a missing or unreadable
    registry file) gives. *)
Theorem nothing_found_reports_every_setup :
  forall (cr : ClusterRegions) (setups : list string),
    let res := resolve_setups cr setups in
    (res_found_setups res = [] ->
     res_not_found_setups res = setups /\
     regions_aws res = [] /\ regions_gcp res = []) /\
    (aws_eks_clusters cr = [] -> gcp_gke_clusters cr = [] ->
     res_found_setups res = []).
Proof.
  intros cr setups res. split.
  - intros Hnone.
    pose proof (one_found_label_per_region_aux cr setups) as Hlen.
    fold res in Hlen. rewrite Hnone in Hlen. cbn [List.length] in Hlen.
    split; [| split].
    + change (res_not_found_setups res)
        with (filter (is_not_found (res_found_setups res)) setups).
      rewrite Hnone. now apply filter_all.
    + destruct (regions_aws res); [reflexivity | cbn in Hlen; lia].
    + destruct (regions_gcp res); [reflexivity | cbn in Hlen; lia].
  - intros Haws Hgcp. subst res. cbn [resolve_setups res_found_setups].
    now rewrite Haws, Hgcp.
Qed.

Lemma nothing_found_reports_every_setup_witness :
  let cr :=
    {| aws_eks_clusters :=
         [("ts-eu-w1-n1", {| region := None; location := Some "Ireland";
                             country := Some "IE" |})];
       gcp_gke_clusters := [] |} in
  resolve_setups cr ["ts-eu-w1-n1"; "ts-us-e1-n2"] =
    {| regions_aws := []; regions_gcp := []; res_found_setups := [];
       res_not_found_setups := ["ts-eu-w1-n1"; "ts-us-e1-n2"] |} /\
  res_found_setups
    (resolve_setups {| aws_eks_clusters := []; gcp_gke_clusters := [] |}
                    ["ts-us-e1-n2"]) = [].
Proof.
  cbv zeta. split.
  - destruct (nothing_found_reports_every_setup
                {| aws_eks_clusters :=
                     [("ts-eu-w1-n1",
                       {| region := None; location := Some "Ireland";
                          country := Some "IE" |})];
                   gcp_gke_clusters := [] |}
                ["ts-eu-w1-n1"; "ts-us-e1-n2"]) as [Hall _].
    destruct (Hall eq_refl) as [Hnf [Haws Hgcp]].
    reflexivity.
  - destruct (nothing_found_reports_every_setup
                {| aws_eks_clusters := []; gcp_gke_clusters := [] |}
                ["ts-us-e1-n2"]) as [_ Hempty].
    exact (Hempty eq_refl eq_refl).
Defined.

Lemma aws_step_found_grows (setups : list string) (c : string * ClusterInfo)
    (st : list string * list string) (x : string) :
  In x (snd st) -> In x (snd (aws_cluster_step setups st c)).
Proof.
  intros Hx. destruct c as [k info]. unfold aws_cluster_step.
  destruct (Py.mem k setups); [| exact Hx].
  destruct (region info) as [r |]; [| exact Hx].
  destruct (Py.nonempty r); [| exact Hx].
  cbn [snd]. apply in_or_app. now left.
Qed.

Lemma aws_fold_found_grows (setups : list string) (cl : Py.dict ClusterInfo) :
  forall st x,
    In x (snd st) -> In x (snd (fold_left (aws_cluster_step setups) cl st)).
Proof.
  induction cl as [| c cl IH]; intros st x Hx; cbn [fold_left].
  - exact Hx.
  - apply IH, aws_step_found_grows, Hx.
Qed.

Lemma aws_fold_records_exact (setups : list string)
    (cl : Py.dict ClusterInfo) (k : string) (info : ClusterInfo) (r : string) :
  In (k, info) cl ->
  Py.mem k setups = true ->
  region info = Some r ->
  Py.nonempty r = true ->
  forall st, In k (snd (fold_left (aws_cluster_step setups) cl st)).
Proof.
  intros Hin Hk Hr Hne.
  induction cl as [| c cl IH]; intros st; [contradiction |].
  cbn [fold_left]. destruct Hin as [-> | Hin].
  - apply aws_fold_found_grows. unfold aws_cluster_step.
    rewrite Hk, Hr, Hne. cbn [snd]. apply in_or_app. right. now left.
  - now apply IH.
Qed.

Lemma gcp_fold_records_exact (setups : list string)
    (cl : Py.dict ClusterInfo) (k : string) (info : ClusterInfo) (r : string) :
  In (k, info) cl ->
  Py.mem k setups = true ->
  region info = Some r ->
  Py.nonempty r = true ->
  forall st, In k (snd (fold_left (gcp_cluster_step setups) cl st)).
Proof.
  intros Hin Hk Hr Hne.
  induction cl as [| c cl IH]; intros st; [contradiction |].
  cbn [fold_left]. destruct Hin as [-> | Hin].
  - apply gcp_fold_found_grows. unfold gcp_cluster_step.
    rewrite Hk, Hr, Hne. cbn [snd]. apply in_or_app. right. now left.
  - now apply IH.
Qed.

Lemma is_substring_refl (s : string) : Py.is_substring s s = true.
Proof.
  rewrite is_substring_unfold.
  assert (H : String.prefix s s = true).
  { induction s as [| c s IH]; cbn; [reflexivity |].
    destruct (Ascii.ascii_dec c c) as [_ | Hne]; [exact IH | now elim Hne]. }
  now rewrite H.
Qed.

(** X4. A setup that is a key of either partition, with a non-empty
    region there, is listed as found under its own name and is never
    reported as not found. *)
Theorem exact_match_is_found :
  forall (cr : ClusterRegions) (setups : list string)
         (s : string) (info : ClusterInfo) (r : string),
    In s setups ->
    In (s, info) (aws_eks_clusters cr) \/ In (s, info) (gcp_gke_clusters cr) ->
    region info = Some r ->
    r <> EmptyString ->
    let res := resolve_setups cr setups in
    In s (res_found_setups res) /\ ~ In s (res_not_found_setups res).
Proof.
  intros cr setups s info r Hs Hkey Hr Hne res.
  apply mem_In in Hs. apply nonempty_true in Hne.
  assert (Hfound : In s (res_found_setups res)).
  { subst res. cbn [resolve_setups res_found_setups].
    destruct Hkey as [Haws | Hgcp].
    - apply gcp_fold_found_grows. cbn [snd].
      now apply aws_fold_records_exact with (info := info) (r := r).
    - now apply gcp_fold_records_exact with (info := info) (r := r). }
  split; [exact Hfound |].
  intros Hnf. apply not_found_characterised in Hnf. tauto.
Qed.

Lemma exact_match_is_found_witness :
  let info :=
    {| region := Some "us-east-1"; location := Some "N. Virginia";
       country := Some "US" |} in
  let res :=
    resolve_setups
      {| aws_eks_clusters := [("ts-us-e1-n2-eks", info)];
         gcp_gke_clusters := [] |}
      ["ts-us-e1-n2-eks"; "other"] in
  In "ts-us-e1-n2-eks" (res_found_setups res) /\
  ~ In "ts-us-e1-n2-eks" (res_not_found_setups res).
Proof.
  cbv zeta.
  apply (exact_match_is_found
           {| aws_eks_clusters :=
                [("ts-us-e1-n2-eks",
                  {| region := Some "us-east-1";
                     location := Some "N. Virginia";
                     country := Some "US" |})];
              gcp_gke_clusters := [] |}
           ["ts-us-e1-n2-eks"; "other"] "ts-us-e1-n2-eks"
           {| region := Some "us-east-1"; location := Some "N. Virginia";
              country := Some "US" |}
           "us-east-1").
  - left. reflexivity.
  - left. left. reflexivity.
  - reflexivity.
  - discriminate.
Defined.

(** X5. What the not-found list holds, exactly: the setup values that
    occur in no found-setups label (a label is a found key, or
    [base (mapped to key)]), in the order of the setup values and as often
    as they are given. *)
Theorem not_found_is_setups_outside_labels :
  forall (cr : ClusterRegions) (setups : list string),
    let res := resolve_setups cr setups in
    res_not_found_setups res =
      filter (fun s => negb (existsb (Py.is_substring s)
                                     (res_found_setups res))) setups /\
    forall s,
      In s (res_not_found_setups res) <->
      In s setups /\
      forall label, In label (res_found_setups res) ->
                    Py.is_substring s label = false.
Proof.
  intros cr setups res. split.
  - change (res_not_found_setups res)
      with (filter (is_not_found (res_found_setups res)) setups).
    apply filter_ext. intros s. unfold is_not_found.
    destruct (Py.mem s (res_found_setups res)) eqn:Hm; [| reflexivity].
    cbn [negb andb]. symmetry. apply negb_false_iff, existsb_exists.
    apply mem_In in Hm. exists s. split; [exact Hm | apply is_substring_refl].
  - intros s. subst res. rewrite not_found_characterised. split.
    + tauto.
    + intros [Hs Hsub]. repeat split; try assumption.
      intros Hin. specialize (Hsub s Hin).
      rewrite is_substring_refl in Hsub. discriminate.
Qed.

(** ** Countries *)

Lemma fold_left_invariant {A B : Type} (f : A -> B -> A) (P : A -> Prop)
    (l : list B) :
  (forall a b, In b l -> P a -> P (f a b)) ->
  forall a, P a -> P (fold_left f l a).
Proof.
  induction l as [| b l IH]; intros Hstep a Ha; cbn [fold_left].
  - exact Ha.
  - apply IH.
    + intros a' b' Hb'. apply Hstep. now right.
    + apply Hstep; [now left | exact Ha].
Qed.

Lemma fold_left_reaches {A B : Type} (f : A -> B -> A) (P : A -> Prop)
    (l : list B) (b0 : B) :
  In b0 l ->
  (forall a b, P a -> P (f a b)) ->
  (forall a, P (f a b0)) ->
  forall a, P (fold_left f l a).
Proof.
  intros Hin Hkeep Hhit.
  induction l as [| b l IH]; intros a; [contradiction |].
  cbn [fold_left]. destruct Hin as [-> | Hin].
  - apply fold_left_invariant; [intros; now apply Hkeep | apply Hhit].
  - now apply IH.
Qed.

(** A property of the country list that every step keeps, for the steps
    the three loops really take, holds of their result. *)
Lemma countries_loop_invariant (cr : ClusterRegions)
    (regions : Py.dict (list string)) (P : list string -> Prop) :
  (forall cloud_type rs r c countries,
      In (cloud_type, rs) regions -> In r rs ->
      In c (clusters_for cr cloud_type) ->
      P countries -> P (countries_cluster_step r countries c)) ->
  P [] ->
  P (res_countries (resolve_countries cr regions)).
Proof.
  intros Hstep Hnil. unfold resolve_countries.
  apply (fold_left_invariant (country_cloud_step cr)
           (fun st => P (res_countries st))); [| exact Hnil].
  intros st [cloud_type rs] Hreg Hst. unfold country_cloud_step.
  apply (fold_left_invariant _ (fun st => P (res_countries st)));
    [| exact Hst].
  intros st1 r Hr Hst1. unfold country_region_step.
  apply (fold_left_invariant _ (fun st => P (res_countries st)));
    [| exact Hst1].
  intros st2 c Hc Hst2. rewrite cluster_step_countries.
  now apply Hstep with (cloud_type := cloud_type) (rs := rs).
Qed.

Lemma countries_step_grows (r : string) (countries : list string)
    (c : string * ClusterInfo) (x : string) :
  In x countries -> In x (countries_cluster_step r countries c).
Proof.
  intros Hx. unfold countries_cluster_step.
  destruct (region_is (snd c) r && Py.truthy (location (snd c))
            && Py.truthy (country (snd c))); [| exact Hx].
  destruct (Py.mem _ countries); [exact Hx |].
  apply in_or_app. now left.
Qed.

Lemma countries_step_adds (r name : string) (info : ClusterInfo)
    (countries : list string) (code : string) :
  region info = Some r ->
  Py.truthy (location info) = true ->
  country info = Some code ->
  code <> EmptyString ->
  In code (countries_cluster_step r countries (name, info)).
Proof.
  intros Hr Hloc Hc Hne. unfold countries_cluster_step, region_is.
  cbn [snd]. rewrite Hr, String.eqb_refl, Hloc, Hc.
  cbn [Py.truthy Py.str_of]. rewrite (nonempty_true _ Hne). cbn [andb].
  destruct (Py.mem code countries) eqn:E.
  - now apply mem_In.
  - apply in_or_app. right. now left.
Qed.

Lemma countries_loop_reaches (cr : ClusterRegions)
    (regions : Py.dict (list string)) (cloud_type r name code : string)
    (rs : list string) (info : ClusterInfo) :
  In (cloud_type, rs) regions ->
  In r rs ->
  In (name, info) (clusters_for cr cloud_type) ->
  region info = Some r ->
  Py.truthy (location info) = true ->
  country info = Some code ->
  code <> EmptyString ->
  In code (res_countries (resolve_countries cr regions)).
Proof.
  intros Hreg Hr Hin Hregion Hloc Hc Hne. unfold resolve_countries.
  assert (Hkeep : forall cl st r',
             In code (res_countries st) ->
             In code (res_countries
                        (fold_left (country_cluster_step r') cl st))).
  { intros cl st r' Hst.
    apply (fold_left_invariant _ (fun st => In code (res_countries st)));
      [| exact Hst].
    intros st' c _ Hst'. rewrite cluster_step_countries.
    now apply countries_step_grows. }
  assert (Hkeep_r : forall cl rs' st,
             In code (res_countries st) ->
             In code (res_countries
                        (fold_left (country_region_step cl) rs' st))).
  { intros cl rs' st Hst.
    apply (fold_left_invariant _ (fun st => In code (res_countries st)));
      [| exact Hst].
    intros st' r' _ Hst'. now apply Hkeep. }
  apply (fold_left_reaches (country_cloud_step cr)
           (fun st => In code (res_countries st)) regions (cloud_type, rs));
    [exact Hreg | |].
  - intros st [ct rs'] Hst. now apply Hkeep_r.
  - intros st. unfold country_cloud_step.
    apply (fold_left_reaches _ (fun st => In code (res_countries st)) rs r);
      [exact Hr | intros st' r' Hst'; now apply Hkeep |].
    intros st'. unfold country_region_step.
    apply (fold_left_reaches _ (fun st => In code (res_countries st))
             (clusters_for cr cloud_type) (name, info)); [exact Hin | |].
    + intros st2 c Hst2. rewrite cluster_step_countries.
      now apply countries_step_grows.
    + intros st2. rewrite cluster_step_countries.
      now apply countries_step_adds.
Qed.

Lemma countries_step_NoDup (r : string) (countries : list string)
    (c : string * ClusterInfo) :
  NoDup countries -> NoDup (countries_cluster_step r countries c).
Proof.
  intros Hnd. unfold countries_cluster_step.
  destruct (region_is (snd c) r && Py.truthy (location (snd c))
            && Py.truthy (country (snd c))); [| exact Hnd].
  destruct (Py.mem _ countries) eqn:E; [exact Hnd |].
  apply mem_not_In in E.
  apply NoDup_app; [exact Hnd | repeat constructor; intros [] |].
  intros x Hx [<- | []]. contradiction.
Qed.

(** X6. The returned country list never holds a country twice, however
    many clusters, regions or setups lead to it. *)
Theorem countries_have_no_duplicates :
  forall (cr : ClusterRegions) (regions : Py.dict (list string)),
    NoDup (res_countries (resolve_countries cr regions)).
Proof.
  intros cr regions. apply countries_loop_invariant.
  - intros. now apply countries_step_NoDup.
  - constructor.
Qed.

Lemma countries_step_source (r : string) (countries : list string)
    (c : string * ClusterInfo) (x : string) :
  In x (countries_cluster_step r countries c) ->
  In x countries \/
  (region (snd c) = Some r /\ Py.truthy (location (snd c)) = true /\
   country (snd c) = Some x /\ x <> EmptyString).
Proof.
  unfold countries_cluster_step.
  destruct (region_is (snd c) r) eqn:Hr; cbn [andb]; [| now left].
  destruct (Py.truthy (location (snd c))) eqn:Hloc; cbn [andb]; [| now left].
  destruct (Py.truthy (country (snd c))) eqn:Hc; [| now left].
  destruct (Py.mem _ countries); [now left |].
  intros Hx. apply in_app_or in Hx. destruct Hx as [Hx | [<- | []]];
    [now left |].
  right. unfold region_is in Hr.
  destruct (region (snd c)) as [r' |]; [| discriminate Hr].
  apply String.eqb_eq in Hr. subst r'.
  destruct (country (snd c)) as [code |]; [| discriminate Hc].
  cbn in Hc |- *. repeat split; try reflexivity.
  now apply nonempty_iff.
Qed.

Lemma countries_iff_located_entries :
  forall (cr : ClusterRegions) (regions : Py.dict (list string))
         (code : string),
    In code (res_countries (resolve_countries cr regions)) <->
    exists cloud_type rs r name info,
      In (cloud_type, rs) regions /\ In r rs /\
      In (name, info) (clusters_for cr cloud_type) /\
      region info = Some r /\
      Py.truthy (location info) = true /\
      country info = Some code /\ code <> EmptyString.
Proof.
  intros cr regions code. split.
  - apply (countries_loop_invariant cr regions
             (fun countries =>
                In code countries ->
                exists cloud_type rs r name info,
                  In (cloud_type, rs) regions /\ In r rs /\
                  In (name, info) (clusters_for cr cloud_type) /\
                  region info = Some r /\
                  Py.truthy (location info) = true /\
                  country info = Some code /\ code <> EmptyString)).
    + intros cloud_type rs r [name info] countries Hreg Hr Hin IH Hcode.
      apply countries_step_source in Hcode.
      destruct Hcode as [Hold | [Hregion [Hloc [Hc Hne]]]];
        [now apply IH |].
      exists cloud_type, rs, r, name, info. cbn [snd] in *. tauto.
    + intros [].
  - intros [cloud_type [rs [r [name [info
             [Hreg [Hr [Hin [Hregion [Hloc [Hc Hne]]]]]]]]]]].
    now apply countries_loop_reaches
      with (cloud_type := cloud_type) (r := r) (name := name) (rs := rs)
           (info := info).
Qed.

(** X7. Where the countries come from, exactly.  A code is in the
    returned list exactly when some entry has it as its non-empty country,
    has a non-empty location, and has a region that is listed for the
    entry's own partition (the [aws] list is read against the AWS
    clusters, every other list against the GCP clusters).  An entry
    without a location gives no country even when it has one. *)
Theorem countries_are_those_of_located_entries :
  forall (cr : ClusterRegions) (regions : Py.dict (list string))
         (code : string),
    In code (res_countries (resolve_countries cr regions)) <->
    exists cloud_type rs r name info,
      In (cloud_type, rs) regions /\ In r rs /\
      In (name, info) (clusters_for cr cloud_type) /\
      region info = Some r /\
      Py.truthy (location info) = true /\
      country info = Some code /\ code <> EmptyString.
Proof. intros cr regions code. apply countries_iff_located_entries. Qed.

(** An entry that changes the country list in no step can be taken out
    of the registry without changing the result. *)
Lemma countries_without_idle_entry (e : string * ClusterInfo)
    (cr cr' : ClusterRegions) (regions : Py.dict (list string)) :
  without_entry e cr cr' ->
  (forall r countries, countries_cluster_step r countries e = countries) ->
  res_countries (resolve_countries cr' regions)
  = res_countries (resolve_countries cr regions).
Proof.
  intros Hw Hidle.
  assert (Hcl : forall cloud_type r countries,
             fold_left (countries_cluster_step r) (clusters_for cr cloud_type)
                       countries =
             fold_left (countries_cluster_step r) (clusters_for cr' cloud_type)
                       countries).
  { intros cloud_type r countries. unfold clusters_for.
    destruct Hw; cbn [aws_eks_clusters gcp_gke_clusters];
      destruct (String.eqb cloud_type "aws"); try reflexivity;
      rewrite !fold_left_app; cbn [fold_left]; now rewrite Hidle. }
  assert (Hrs : forall cloud_type rs st st',
             res_countries st = res_countries st' ->
             res_countries
               (fold_left (country_region_step (clusters_for cr' cloud_type))
                          rs st) =
             res_countries
               (fold_left (country_region_step (clusters_for cr cloud_type))
                          rs st')).
  { intros cloud_type rs.
    induction rs as [| r rs IH]; intros st st' Heq; cbn [fold_left];
      [exact Heq |].
    apply IH. unfold country_region_step.
    now rewrite !cluster_fold_countries, Heq, Hcl. }
  unfold resolve_countries.
  enough (H : forall st st',
             res_countries st = res_countries st' ->
             res_countries (fold_left (country_cloud_step cr') regions st) =
             res_countries (fold_left (country_cloud_step cr) regions st'))
    by (apply H; reflexivity).
  induction regions as [| [ct rs] regions IH]; intros st st' Heq;
    cbn [fold_left]; [exact Heq |].
  apply IH. unfold country_cloud_step. now apply Hrs.
Qed.

Lemma cluster_step_reports_no_location (r name : string) (info : ClusterInfo)
    (st : CountryResolution) :
  region info = Some r ->
  Py.truthy (location info) = false ->
  In (name +++ " (no location)")
     (res_missing_country_clusters (country_cluster_step r st (name, info))).
Proof.
  intros Hr Hloc. unfold country_cluster_step, region_is.
  rewrite Hr, String.eqb_refl, Hloc. cbn [andb negb].
  cbn. apply in_or_app. right. now left.
Qed.

(** X8. A cluster without a location (absent or empty) whose region is
    one of the resolved regions of its partition is reported as
    [name (no location)], and its country, if it has one, is not used: the
    returned country list is the same with the entry taken out of the
    registry. *)
Theorem entry_without_location_gives_no_country :
  forall (cr : ClusterRegions) (regions : Py.dict (list string))
         (cloud_type : string) (rs : list string) (r name : string)
         (info : ClusterInfo),
    In (cloud_type, rs) regions ->
    In r rs ->
    In (name, info) (clusters_for cr cloud_type) ->
    region info = Some r ->
    Py.truthy (location info) = false ->
    In (name +++ " (no location)")
       (res_missing_country_clusters (resolve_countries cr regions)) /\
    forall cr',
      without_entry (name, info) cr cr' ->
      res_countries (resolve_countries cr' regions)
      = res_countries (resolve_countries cr regions).
Proof.
  intros cr regions cloud_type rs r name info Hreg Hr Hin Hregion Hloc.
  split.
  - unfold resolve_countries.
    apply (fold_left_reaches (country_cloud_step cr)
             (fun st => In (name +++ " (no location)")
                           (res_missing_country_clusters st))
             regions (cloud_type, rs)); [exact Hreg | |].
    + intros st item Hst. now apply cloud_fold_missing_grows with (regions := [item]).
    + intros st. unfold country_cloud_step.
      apply (fold_left_reaches _
               (fun st => In (name +++ " (no location)")
                             (res_missing_country_clusters st)) rs r);
        [exact Hr | |].
      * intros st' r' Hst'. unfold country_region_step.
        now apply cluster_fold_missing_grows.
      * intros st'. unfold country_region_step.
        apply (fold_left_reaches _
                 (fun st => In (name +++ " (no location)")
                               (res_missing_country_clusters st))
                 (clusters_for cr cloud_type) (name, info)); [exact Hin | |].
        -- intros st2 c Hst2. now apply cluster_step_missing_grows.
        -- intros st2. now apply cluster_step_reports_no_location.
  - intros cr' Hw. apply countries_without_idle_entry with (e := (name, info));
      [exact Hw |].
    intros r' countries. unfold countries_cluster_step. cbn [snd].
    now rewrite Hloc, andb_false_r.
Qed.

Lemma entry_without_location_gives_no_country_witness :
  let info :=
    {| region := Some "us-east1"; location := None; country := Some "US" |} in
  let cr :=
    {| aws_eks_clusters := [];
       gcp_gke_clusters := [("ts-us-e1-n3-gke", info)] |} in
  let regions := [("aws", []); ("gcp", ["us-east1"])] in
  In "ts-us-e1-n3-gke (no location)"
     (res_missing_country_clusters (resolve_countries cr regions)) /\
  res_countries (resolve_countries cr regions) = [].
Proof.
  cbv zeta.
  destruct (entry_without_location_gives_no_country
              {| aws_eks_clusters := [];
                 gcp_gke_clusters :=
                   [("ts-us-e1-n3-gke",
                     {| region := Some "us-east1"; location := None;
                        country := Some "US" |})] |}
              [("aws", []); ("gcp", ["us-east1"])]
              "gcp" ["us-east1"] "us-east1" "ts-us-e1-n3-gke"
              {| region := Some "us-east1"; location := None;
                 country := Some "US" |}) as [Hreported Hsame].
  - right. left. reflexivity.
  - left. reflexivity.
  - left. reflexivity.
  - reflexivity.
  - reflexivity.
  - split; [exact Hreported |].
    rewrite <- (Hsame {| aws_eks_clusters := []; gcp_gke_clusters := [] |}).
    + reflexivity.
    + exact (without_gcp_entry _ [] [] []).
Defined.

(* ================================================================== *)
(** * Further properties of the editor *)

(** ** The reverse table *)

Lemma reverse_fold_source (name code : string) (codes : Py.dict string) :
  forall acc,
    Py.get name
      (fold_left (fun acc kv => Py.set (Py.lower (snd kv)) (fst kv) acc)
                 codes acc) = Some code ->
    Py.get name acc = Some code \/
    exists display, In (code, display) codes /\ Py.lower display = name.
Proof.
  induction codes as [| [c d] codes IH]; intros acc H; cbn [fold_left] in H.
  - now left.
  - apply IH in H. cbn [fst snd] in H. rewrite get_set in H.
    destruct H as [H | [display [Hin Hl]]].
    + destruct (String.eqb (Py.lower d) name) eqn:E; [| now left].
      apply String.eqb_eq in E. injection H as ->.
      right. exists d. split; [now left | exact E].
    + right. exists display. split; [now right | exact Hl].
Qed.

Lemma reverse_fold_untouched (name : string) (codes : Py.dict string) :
  (forall kv, In kv codes -> Py.lower (snd kv) <> name) ->
  forall acc,
    Py.get name
      (fold_left (fun acc kv => Py.set (Py.lower (snd kv)) (fst kv) acc)
                 codes acc) = Py.get name acc.
Proof.
  induction codes as [| [c d] codes IH]; intros Hno acc; cbn [fold_left].
  - reflexivity.
  - rewrite IH by (intros kv Hkv; apply Hno; now right).
    cbn [fst snd]. apply get_set_other.
    intros Heq. apply (Hno (c, d)); [now left | now symmetry].
Qed.

Lemma reverse_fold_finds (code display : string) (codes : Py.dict string) :
  NoDup (map (fun kv => Py.lower (snd kv)) codes) ->
  In (code, display) codes ->
  forall acc,
    Py.get (Py.lower display)
      (fold_left (fun acc kv => Py.set (Py.lower (snd kv)) (fst kv) acc)
                 codes acc) = Some code.
Proof.
  induction codes as [| [c d] codes IH]; intros Hnd Hin acc;
    [contradiction |].
  cbn [fold_left map] in *. inversion Hnd as [| x l Hfresh Hnd']; subst.
  destruct Hin as [[= -> ->] | Hin].
  - rewrite reverse_fold_untouched.
    + cbn [fst snd]. apply get_set_same.
    + intros kv Hkv Heq. apply Hfresh. cbn [snd]. rewrite <- Heq.
      now apply (in_map (fun kv => Py.lower (snd kv))).
  - now apply IH.
Qed.

(** X9. The reverse table maps lower-cased display names back to codes.
    Whatever it returns for a name is the code of a country of the table
    with that lower-cased display name; and when no two countries of the
    table share a display name up to case, every country is found again
    under its lower-cased display name. *)
Theorem reverse_table_inverts_names :
  forall (codes : Py.dict string),
    (forall name code,
        Py.get name (_load_country_codes_reverse codes) = Some code ->
        exists display, In (code, display) codes /\ Py.lower display = name)
    /\
    (NoDup (map (fun kv => Py.lower (snd kv)) codes) ->
     forall code display,
       In (code, display) codes ->
       Py.get (Py.lower display) (_load_country_codes_reverse codes)
       = Some code).
Proof.
  intros codes. unfold _load_country_codes_reverse. split.
  - intros name code H. apply reverse_fold_source in H.
    destruct H as [H | H]; [discriminate H | exact H].
  - intros Hnd code display Hin. now apply reverse_fold_finds.
Qed.

Lemma reverse_table_inverts_names_witness :
  let codes := [("US", "United States"); ("GB", "United Kingdom")] in
  Py.get (Py.lower "United Kingdom") (_load_country_codes_reverse codes)
  = Some "GB".
Proof.
  cbv zeta.
  destruct (reverse_table_inverts_names
              [("US", "United States"); ("GB", "United Kingdom")])
    as [_ Hfinds].
  apply Hfinds.
  - repeat constructor; cbn; intuition discriminate.
  - right. left. reflexivity.
Defined.

(** ** Adding and removing *)

Lemma In_has_key {V : Type} (k : string) (v : V) (d : Py.dict V) :
  In (k, v) d -> Py.has_key k d = true.
Proof.
  unfold Py.has_key. induction d as [| [k0 v0] d IH]; intros Hin;
    [contradiction |].
  cbn [Py.get]. destruct (String.eqb k0 k) eqn:E; [reflexivity |].
  destruct Hin as [[= -> ->] | Hin].
  - rewrite String.eqb_refl in E. discriminate E.
  - now apply IH.
Qed.

Lemma add_lookup_gives_table_code (codes : Py.dict string)
    (line code : string) :
  add_country_lookup codes (_load_country_codes_reverse codes) line
    = Some code ->
  Py.has_key code codes = true.
Proof.
  unfold add_country_lookup.
  destruct (Py.nonempty (Py.upper (Py.strip line))); cbn [negb];
    [| discriminate].
  destruct (Py.has_key (Py.upper (Py.strip line)) codes) eqn:Hkey.
  - intros [= <-]. exact Hkey.
  - intros H. apply reverse_fold_source in H.
    destruct H as [H | [display [Hin _]]]; [discriminate H |].
    now apply In_has_key with (v := display).
Qed.

(** X10. Adding changes the working list in one way only: it appends,
    at the end, one code that is a key of the country table, was not yet
    in the list, and was confirmed with yes or y.  In every other case the
    list stays as it was.  So a list without duplicates stays without
    duplicates. *)
Theorem add_country_appends_one_new_code :
  forall (items : list string) (codes : Py.dict string)
         (line confirm : string),
    let result :=
      _add_country_to_list items codes (_load_country_codes_reverse codes)
                           line confirm in
    (result = items \/
     exists code,
       result = items ++ [code] /\ ~ In code items /\
       Py.has_key code codes = true /\ confirmed confirm = true) /\
    (NoDup items -> NoDup result).
Proof.
  intros items codes line confirm result.
  assert (Hshape :
    result = items \/
    exists code,
      result = items ++ [code] /\ ~ In code items /\
      Py.has_key code codes = true /\ confirmed confirm = true).
  { subst result. unfold _add_country_to_list.
    destruct (add_country_lookup codes _ line) as [code |] eqn:Hlook;
      [| now left].
    destruct (Py.mem code items) eqn:Hmem; [now left |].
    destruct (confirmed confirm) eqn:Hyes; [| now left].
    right. exists code. repeat split; try reflexivity.
    - now apply mem_not_In.
    - now apply add_lookup_gives_table_code with (line := line). }
  split; [exact Hshape |].
  intros Hnd. destruct Hshape as [-> | [code [-> [Hnew _]]]]; [exact Hnd |].
  apply NoDup_app; [exact Hnd | repeat constructor; intros [] |].
  intros x Hx [<- | []]. contradiction.
Qed.

Lemma add_country_appends_one_new_code_witness :
  let codes := [("US", "United States"); ("GB", "United Kingdom")] in
  NoDup (_add_country_to_list ["GB"] codes (_load_country_codes_reverse codes)
                              "united states" "yes").
Proof.
  cbv zeta.
  destruct (add_country_appends_one_new_code
              ["GB"] [("US", "United States"); ("GB", "United Kingdom")]
              "united states" "yes") as [_ Hnd].
  apply Hnd. repeat constructor. intros [].
Defined.

Lemma remove_first_split (x : string) (l : list string) :
  In x l ->
  exists before after,
    l = before ++ x :: after /\ ~ In x before /\
    Py.remove_first x l = before ++ after.
Proof.
  induction l as [| y l IH]; intros Hin; [contradiction |].
  cbn [Py.remove_first]. destruct (String.eqb y x) eqn:E.
  - apply String.eqb_eq in E. subst y. exists [], l.
    repeat split. intros [].
  - destruct Hin as [-> | Hin];
      [rewrite String.eqb_refl in E; discriminate E |].
    destruct (IH Hin) as [before [after [-> [Hnot Hrm]]]].
    exists (y :: before), after. repeat split.
    + intros [-> | H]; [| contradiction].
      rewrite String.eqb_refl in E. discriminate E.
    + cbn. now rewrite Hrm.
Qed.

Lemma first_name_match_In (codes : Py.dict string) (choice code : string)
    (items : list string) :
  first_name_match codes choice items = Some code -> In code items.
Proof.
  intros H. destruct (first_name_match_first _ _ _ _ H)
    as [before [after [-> _]]].
  apply in_or_app. right. now left.
Qed.

(** X11. Removing changes the working list in one way only: one listed
    code goes, at its first place in the list, after a yes or y.  In
    every other case, an empty list included, the list stays as it was.
    A choice whose upper-casing is a listed code removes that code, also
    when the choice occurs in the display names of other listed
    countries. *)
Theorem remove_country_takes_one_listed_code :
  forall (items : list string) (codes : Py.dict string)
         (line confirm : string),
    let result := _remove_country_from_list items codes line confirm in
    (result = items \/
     exists code before after,
       items = before ++ code :: after /\ ~ In code before /\
       result = before ++ after /\ confirmed confirm = true) /\
    (Py.strip line <> EmptyString ->
     In (Py.upper (Py.strip line)) items ->
     confirmed confirm = true ->
     result = Py.remove_first (Py.upper (Py.strip line)) items).
Proof.
  intros items codes line confirm result. subst result.
  unfold _remove_country_from_list. split.
  - destruct items as [| i items]; [now left |].
    destruct (Py.nonempty (Py.strip line)); cbn [negb]; [| now left].
    destruct (find_country_to_remove (i :: items) codes (Py.strip line))
      as [code |] eqn:Hfind; [| now left].
    cbn [Py.truthy Py.str_of].
    destruct (Py.nonempty code); [| now left].
    destruct (confirmed confirm); [| now left].
    right. assert (Hin : In code (i :: items)).
    { unfold find_country_to_remove in Hfind.
      destruct (Py.mem (Py.upper (Py.strip line)) (i :: items)) eqn:Hm.
      - injection Hfind as <-. now apply mem_In.
      - now apply first_name_match_In in Hfind. }
    destruct (remove_first_split code _ Hin)
      as [before [after [Heq [Hnot Hrm]]]].
    exists code, before, after. now rewrite Hrm.
  - intros Hchoice Hin Hyes.
    destruct items as [| i items]; [contradiction |].
    rewrite (nonempty_true _ Hchoice). cbn [negb].
    unfold find_country_to_remove. apply mem_In in Hin. rewrite Hin, Hyes.
    cbn [Py.truthy Py.str_of].
    assert (Hne : Py.nonempty (Py.upper (Py.strip line)) = true).
    { destruct (Py.strip line); [congruence | reflexivity]. }
    now rewrite Hne.
Qed.

Lemma remove_country_takes_one_listed_code_witness :
  let codes := [("IN", "India"); ("CN", "China")] in
  _remove_country_from_list ["CN"; "IN"] codes " in " "y" = ["CN"].
Proof.
  cbv zeta.
  destruct (remove_country_takes_one_listed_code
              ["CN"; "IN"] [("IN", "India"); ("CN", "China")] " in " "y")
    as [_ Hcode].
  apply Hcode.
  - discriminate.
  - right. left. reflexivity.
  - reflexivity.
Defined.

Lemma remove_first_last (x : string) (l : list string) :
  ~ In x l -> Py.remove_first x (l ++ [x]) = l.
Proof.
  induction l as [| y l IH]; intros Hnot; cbn.
  - now rewrite String.eqb_refl.
  - destruct (String.eqb y x) eqn:E.
    + apply String.eqb_eq in E. subst y. elim Hnot. now left.
    + rewrite IH; [reflexivity |]. intros H. apply Hnot. now right.
Qed.

(** X12. Removing undoes adding.  When a line is accepted for adding, the
    code found for it is new to the list and non-empty and the addition is
    confirmed, then removing with a line that upper-cases to that code,
    confirmed as well, gives back the list as it was before the
    addition. *)
Theorem remove_undoes_add :
  forall (items : list string) (codes : Py.dict string)
         (line confirm line2 confirm2 code : string),
    add_country_lookup codes (_load_country_codes_reverse codes) line
      = Some code ->
    ~ In code items ->
    code <> EmptyString ->
    confirmed confirm = true ->
    Py.upper (Py.strip line2) = code ->
    confirmed confirm2 = true ->
    _remove_country_from_list
      (_add_country_to_list items codes (_load_country_codes_reverse codes)
                            line confirm)
      codes line2 confirm2 = items.
Proof.
  intros items codes line confirm line2 confirm2 code
         Hlook Hnew Hne Hyes Hcode Hyes2.
  unfold _add_country_to_list. rewrite Hlook.
  apply mem_not_In in Hnew. rewrite Hnew, Hyes. apply mem_not_In in Hnew.
  unfold _remove_country_from_list.
  destruct (items ++ [code]) as [| i rest] eqn:Happ;
    [now destruct items |].
  rewrite <- Happ. clear i rest Happ.
  assert (Hchoice : Py.nonempty (Py.strip line2) = true).
  { destruct (Py.strip line2); [cbn in Hcode; congruence | reflexivity]. }
  rewrite Hchoice. cbn [negb]. unfold find_country_to_remove.
  assert (Hm : Py.mem (Py.upper (Py.strip line2)) (items ++ [code]) = true).
  { apply mem_In, in_or_app. right. left. now symmetry. }
  rewrite Hm, Hcode, Hyes2. cbn [Py.truthy Py.str_of].
  rewrite (nonempty_true _ Hne). now apply remove_first_last.
Qed.

Lemma remove_undoes_add_witness :
  let codes := [("US", "United States"); ("GB", "United Kingdom")] in
  _remove_country_from_list
    (_add_country_to_list ["GB"] codes (_load_country_codes_reverse codes)
                          "United States" "yes")
    codes "us" "y" = ["GB"].
Proof.
  cbv zeta.
  apply (remove_undoes_add
           ["GB"] [("US", "United States"); ("GB", "United Kingdom")]
           "United States" "yes" "us" "y" "US").
  - reflexivity.
  - intros [H | []]. discriminate H.
  - discriminate.
  - reflexivity.
  - reflexivity.
  - reflexivity.
Defined.

(** ** The menu loop *)

(** Reasoning about a whole session: a relation between the state a run
    of the loop starts in and the session it leaves holds as soon as it
    holds where the loop stops and goes back through each kind of step. *)
Section LoopInduction.

Variables country_codes reverse_codes : Py.dict string.
Variable apply_succeeds : nat -> bool.
Variable P : string -> list string -> list (string * list string) ->
             Session -> Prop.

Hypothesis P_stop :
  forall t its made e,
    e <> Applied ->
    P t its made
      {| ended := e; final_type := t; final_items := its; attempts := made |}.
Hypothesis P_applied :
  forall t its made,
    apply_succeeds (List.length made) = true ->
    P t its made
      {| ended := Applied; final_type := t; final_items := its;
         attempts := made ++ [(t, its)] |}.
Hypothesis P_add :
  forall t its made line confirm s,
    P t (_add_country_to_list its country_codes reverse_codes line confirm)
      made s ->
    P t its made s.
Hypothesis P_remove :
  forall t its made line confirm s,
    P t (_remove_country_from_list its country_codes line confirm) made s ->
    P t its made s.
Hypothesis P_clear :
  forall t its made s, P "none" [] made s -> P t its made s.
Hypothesis P_failed :
  forall t its made s,
    apply_succeeds (List.length made) = false ->
    P t its (made ++ [(t, its)]) s ->
    P t its made s.

Lemma interactive_loop_bounded (n : nat) :
  forall lines t its made,
    List.length lines <= n ->
    P t its made
      (interactive_loop country_codes reverse_codes apply_succeeds
                        t its made lines).
Proof.
  induction n as [| n IH]; intros lines t its made Hlen.
  - destruct lines; [| cbn in Hlen; lia].
    cbn. now apply P_stop.
  - destruct lines as [| l rest]; [cbn; now apply P_stop |].
    cbn [List.length] in Hlen.
    assert (Hrest : List.length rest <= n) by lia.
    cbn [interactive_loop].
    destruct (String.eqb (Py.strip l) "1").
    { destruct rest as [| line rest1]; [now apply P_stop |].
      cbn [List.length] in Hrest.
      destruct (add_country_lookup country_codes reverse_codes line)
        as [code |]; [| apply IH; lia].
      destruct (Py.mem code its); [apply IH; lia |].
      destruct rest1 as [| confirm rest2]; [now apply P_stop |].
      cbn [List.length] in Hrest.
      apply P_add with (line := line) (confirm := confirm).
      apply IH. lia. }
    destruct (String.eqb (Py.strip l) "2").
    { destruct its as [| i its']; [now apply IH |].
      destruct rest as [| line rest1]; [now apply P_stop |].
      cbn [List.length] in Hrest.
      destruct (negb (Py.nonempty (Py.strip line))); [apply IH; lia |].
      destruct (Py.truthy _); [| apply IH; lia].
      destruct rest1 as [| confirm rest2]; [now apply P_stop |].
      cbn [List.length] in Hrest.
      apply P_remove with (line := line) (confirm := confirm).
      apply IH. lia. }
    destruct (String.eqb (Py.strip l) "3").
    { apply P_clear. now apply IH. }
    destruct (String.eqb (Py.strip l) "4").
    { destruct rest as [| confirm rest1]; [now apply P_stop |].
      cbn [List.length] in Hrest.
      destruct (confirmed confirm); [| apply IH; lia].
      destruct (apply_succeeds (List.length made)) eqn:Hok.
      - now apply P_applied.
      - apply P_failed; [exact Hok |]. apply IH. lia. }
    destruct (String.eqb (Py.strip l) "5"); [now apply P_stop |].
    now apply IH.
Qed.

Lemma interactive_loop_relates (lines : list string) :
  forall t its made,
    P t its made
      (interactive_loop country_codes reverse_codes apply_succeeds
                        t its made lines).
Proof.
  intros t its made.
  now apply interactive_loop_bounded with (n := List.length lines).
Qed.

End LoopInduction.

(** X13. The editor never turns a restriction on or switches its kind:
    through a whole session the restriction type is the one the session
    started with, or [none] once the restrictions were cleared.  Every
    call that applies the changes is made with one of these two types.  So
    a session that starts without restriction submits no
    [GeoRestriction], whatever countries were added to the working
    list. *)
Theorem editor_type_is_kept_or_cleared :
  forall (country_codes : Py.dict string) (geo : GeoRestriction)
         (apply_succeeds : nat -> bool) (lines : list string),
    let start_type :=
      match RestrictionType geo with Some t => t | None => "none" end in
    let s :=
      interactive_modify_restrictions country_codes geo apply_succeeds lines in
    (final_type s = start_type \/ final_type s = "none") /\
    (forall t its, In (t, its) (attempts s) ->
                   t = start_type \/ t = "none") /\
    (start_type = "none" ->
     forall t its held config held',
       In (t, its) (attempts s) ->
       update_geo_restrictions held t its = Some (config, held') ->
       restrictions_get "GeoRestriction" config = None).
Proof.
  intros country_codes geo apply_succeeds lines start_type s.
  assert (H : (final_type s = start_type \/ final_type s = "none") /\
              (forall t its, In (t, its) (attempts s) ->
                             t = start_type \/ t = "none")).
  { subst s. unfold interactive_modify_restrictions. fold start_type.
    apply (interactive_loop_relates country_codes
             (_load_country_codes_reverse country_codes) apply_succeeds
             (fun t its made s =>
                (t = start_type \/ t = "none") ->
                (forall t' its', In (t', its') made ->
                                 t' = start_type \/ t' = "none") ->
                (final_type s = start_type \/ final_type s = "none") /\
                (forall t' its', In (t', its') (attempts s) ->
                                 t' = start_type \/ t' = "none"))).
    - intros t its made e _ Ht Hmade. now split.
    - intros t its made _ Ht Hmade. split; [exact Ht |].
      intros t' its' Hin. apply in_app_or in Hin.
      destruct Hin as [Hin | [[= <- <-] | []]]; [now apply Hmade with its' |].
      exact Ht.
    - intros t its made line confirm s IH Ht Hmade. now apply IH.
    - intros t its made line confirm s IH Ht Hmade. now apply IH.
    - intros t its made s IH Ht Hmade. apply IH; [now right | exact Hmade].
    - intros t its made s _ IH Ht Hmade. apply IH; [exact Ht |].
      intros t' its' Hin. apply in_app_or in Hin.
      destruct Hin as [Hin | [[= <- <-] | []]]; [now apply Hmade with its' |].
      exact Ht.
    - now left.
    - intros t' its' []. }
  destruct H as [Hfinal Hattempts]. split; [exact Hfinal |].
  split; [exact Hattempts |].
  intros Hnone t its held config held' Hin Hedit.
  assert (Ht : t = "none").
  { destruct (Hattempts t its Hin) as [-> | ->]; [exact Hnone | reflexivity]. }
  subst t. now rewrite (update_geo_sets_field _ _ _ _ _ Hedit).
Qed.

Lemma editor_type_is_kept_or_cleared_witness :
  let codes := [("US", "United States")] in
  let geo := {| RestrictionType := None; Items := None |} in
  let s :=
    interactive_modify_restrictions codes geo (fun _ => true)
      ["1"; "us"; "yes"; "4"; "yes"] in
  attempts s = [("none", ["US"])] /\
  forall held config held',
    update_geo_restrictions held "none" ["US"] = Some (config, held') ->
    restrictions_get "GeoRestriction" config = None.
Proof.
  cbv zeta. split; [reflexivity |].
  intros held config held'.
  destruct (editor_type_is_kept_or_cleared
              [("US", "United States")]
              {| RestrictionType := None; Items := None |}
              (fun _ => true) ["1"; "us"; "yes"; "4"; "yes"])
    as [_ [_ Hnone]].
  apply (Hnone eq_refl "none" ["US"] held config held').
  left. reflexivity.
Defined.

(** X14. Only a successful update ends a session as applied, and a
    failed one does not end it.  At choice 4 with the confirmation given,
    a successful call ends the session there as applied, whatever lines
    follow; a failed call is recorded and the loop goes on with the lines
    that follow, from the same working copy.  So in every session every
    call that applies the changes but the last one failed, and the
    session ends as applied exactly when its last call succeeded. *)
Theorem editor_ends_applied_on_success_only :
  forall (country_codes : Py.dict string) (geo : GeoRestriction)
         (apply_succeeds : nat -> bool) (lines : list string),
    let s :=
      interactive_modify_restrictions country_codes geo apply_succeeds lines in
    (forall i, S i < List.length (attempts s) -> apply_succeeds i = false) /\
    (ended s = Applied <->
     exists n, List.length (attempts s) = S n /\ apply_succeeds n = true) /\
    (forall reverse_codes t its made choice confirm rest,
        Py.strip choice = "4" ->
        confirmed confirm = true ->
        interactive_loop country_codes reverse_codes apply_succeeds
                         t its made (choice :: confirm :: rest) =
        if apply_succeeds (List.length made)
        then {| ended := Applied; final_type := t; final_items := its;
                attempts := made ++ [(t, its)] |}
        else interactive_loop country_codes reverse_codes apply_succeeds
                              t its (made ++ [(t, its)]) rest).
Proof.
  intros country_codes geo apply_succeeds lines s.
  assert (H :
    (forall i, S i < List.length (attempts s) -> apply_succeeds i = false) /\
    (ended s = Applied ->
     exists n, List.length (attempts s) = S n /\ apply_succeeds n = true) /\
    (ended s <> Applied ->
     forall i, i < List.length (attempts s) -> apply_succeeds i = false)).
  { subst s. unfold interactive_modify_restrictions.
    apply (interactive_loop_relates country_codes
             (_load_country_codes_reverse country_codes) apply_succeeds
             (fun t its made s =>
                (forall i, i < List.length made -> apply_succeeds i = false) ->
                (forall i, S i < List.length (attempts s) ->
                           apply_succeeds i = false) /\
                (ended s = Applied ->
                 exists n, List.length (attempts s) = S n /\
                           apply_succeeds n = true) /\
                (ended s <> Applied ->
                 forall i, i < List.length (attempts s) ->
                           apply_succeeds i = false))).
    - intros t its made e He Hmade. cbn. repeat split.
      + intros i Hi. apply Hmade. lia.
      + intros Heq. contradiction.
      + intros _. exact Hmade.
    - intros t its made Hok Hmade. cbn. rewrite length_app. cbn.
      repeat split.
      + intros i Hi. apply Hmade. lia.
      + intros _. exists (List.length made). split; [lia | exact Hok].
      + intros Hne. now elim Hne.
    - intros t its made line confirm s IH Hmade. now apply IH.
    - intros t its made line confirm s IH Hmade. now apply IH.
    - intros t its made s IH Hmade. now apply IH.
    - intros t its made s Hfail IH Hmade. apply IH.
      intros i Hi. rewrite length_app in Hi. cbn in Hi.
      destruct (Nat.eq_dec i (List.length made)) as [-> | Hne];
        [exact Hfail | apply Hmade; lia].
    - intros i Hi. cbn in Hi. lia. }
  destruct H as [Hearlier [Happlied Hnot]].
  split; [exact Hearlier |]. split; [split; [exact Happlied |] |].
  - intros [n [Hlen Hok]].
    destruct (ended s) eqn:He; [reflexivity | |];
      (rewrite Hnot in Hok; [discriminate Hok | discriminate | lia]).
  - intros reverse_codes t its made choice confirm rest Hchoice Hyes.
    cbn [interactive_loop]. rewrite Hchoice, Hyes. reflexivity.
Qed.

Lemma editor_ends_applied_on_success_only_witness :
  let codes := [("US", "United States")] in
  let geo := {| RestrictionType := Some "whitelist"; Items := Some ["GB"] |} in
  let second_only n := Nat.eqb n 1 in
  let s :=
    interactive_modify_restrictions codes geo second_only
      ["4"; "yes"; "1"; "US"; "y"; "4"; "y"; "5"] in
  attempts s = [("whitelist", ["GB"]); ("whitelist", ["GB"; "US"])] /\
  ended s = Applied /\
  interactive_loop codes (_load_country_codes_reverse codes) second_only
                   "whitelist" ["GB"] [] [" 4 "; "yes"; "5"] =
  interactive_loop codes (_load_country_codes_reverse codes) second_only
                   "whitelist" ["GB"] [("whitelist", ["GB"])] ["5"].
Proof.
  cbv zeta. split; [reflexivity |].
  destruct (editor_ends_applied_on_success_only
              [("US", "United States")]
              {| RestrictionType := Some "whitelist"; Items := Some ["GB"] |}
              (fun n => Nat.eqb n 1)
              ["4"; "yes"; "1"; "US"; "y"; "4"; "y"; "5"])
    as [_ [[_ Hback] Hstep]].
  split.
  - apply Hback. exists 1. split; reflexivity.
  - apply (Hstep (_load_country_codes_reverse [("US", "United States")])
                 "whitelist" ["GB"] [] " 4 " "yes" ["5"]); reflexivity.
Defined.

Lemma remove_first_subset (x y : string) (l : list string) :
  In y (Py.remove_first x l) -> In y l.
Proof.
  induction l as [| z l IH]; cbn; [tauto |].
  destruct (String.eqb z x); [now right |].
  intros [-> | H]; [now left | right; now apply IH].
Qed.

Lemma remove_first_NoDup (x : string) (l : list string) :
  NoDup l -> NoDup (Py.remove_first x l).
Proof.
  induction 1 as [| z l Hz Hnd IH]; cbn; [constructor |].
  destruct (String.eqb z x); [exact Hnd |].
  constructor; [| exact IH].
  intros H. apply Hz. now apply remove_first_subset in H.
Qed.

Lemma remove_country_subset (items : list string) (codes : Py.dict string)
    (line confirm x : string) :
  In x (_remove_country_from_list items codes line confirm) -> In x items.
Proof.
  unfold _remove_country_from_list.
  destruct items as [| i items]; [tauto |].
  destruct (negb (Py.nonempty (Py.strip line))); [tauto |].
  destruct (Py.truthy _); [| tauto].
  destruct (confirmed confirm); [| tauto].
  apply remove_first_subset.
Qed.

Lemma remove_country_NoDup (items : list string) (codes : Py.dict string)
    (line confirm : string) :
  NoDup items ->
  NoDup (_remove_country_from_list items codes line confirm).
Proof.
  intros Hnd. unfold _remove_country_from_list.
  destruct items as [| i items]; [exact Hnd |].
  destruct (negb (Py.nonempty (Py.strip line))); [exact Hnd |].
  destruct (Py.truthy _); [| exact Hnd].
  destruct (confirmed confirm); [| exact Hnd].
  now apply remove_first_NoDup.
Qed.

Lemma add_country_NoDup (items : list string) (codes rev : Py.dict string)
    (line confirm : string) :
  NoDup items ->
  NoDup (_add_country_to_list items codes rev line confirm).
Proof.
  intros Hnd. unfold _add_country_to_list.
  destruct (add_country_lookup codes rev line) as [code |]; [| exact Hnd].
  destruct (Py.mem code items) eqn:Hmem; [exact Hnd |].
  destruct (confirmed confirm); [| exact Hnd].
  apply mem_not_In in Hmem.
  apply NoDup_app; [exact Hnd | repeat constructor; intros [] |].
  intros x Hx [<- | []]. contradiction.
Qed.

Lemma add_country_known (items : list string) (codes : Py.dict string)
    (line confirm x : string) :
  In x (_add_country_to_list items codes (_load_country_codes_reverse codes)
                             line confirm) ->
  In x items \/ Py.has_key x codes = true.
Proof.
  unfold _add_country_to_list.
  destruct (add_country_lookup codes _ line) as [code |] eqn:Hlook;
    [| now left].
  destruct (Py.mem code items); [now left |].
  destruct (confirmed confirm); [| now left].
  intros Hx. apply in_app_or in Hx. destruct Hx as [Hx | [<- | []]];
    [now left |].
  right. now apply add_lookup_gives_table_code with (line := line).
Qed.

(** A property of the working list that holds of the empty list and that
    adding and removing keep holds of the list in every call that applies
    the changes, and of the list the session ends with. *)
Lemma editor_items_invariant (country_codes : Py.dict string)
    (Q : list string -> Prop) (apply_succeeds : nat -> bool)
    (lines : list string) (t : string) (items : list string) :
  Q [] ->
  (forall its line confirm,
      Q its ->
      Q (_add_country_to_list its country_codes
           (_load_country_codes_reverse country_codes) line confirm)) ->
  (forall its line confirm,
      Q its -> Q (_remove_country_from_list its country_codes line confirm)) ->
  Q items ->
  let s :=
    interactive_loop country_codes (_load_country_codes_reverse country_codes)
                     apply_succeeds t items [] lines in
  Q (final_items s) /\ forall t' its, In (t', its) (attempts s) -> Q its.
Proof.
  intros Hnil Hadd Hremove Hitems s. subst s.
  apply (interactive_loop_relates country_codes
           (_load_country_codes_reverse country_codes) apply_succeeds
           (fun t its made s =>
              Q its ->
              (forall t' its', In (t', its') made -> Q its') ->
              Q (final_items s) /\
              forall t' its', In (t', its') (attempts s) -> Q its')).
  - intros t0 its made e _ Hits Hmade. now split.
  - intros t0 its made _ Hits Hmade. split; [exact Hits |].
    intros t' its' Hin. apply in_app_or in Hin.
    destruct Hin as [Hin | [[= <- <-] | []]]; [now apply Hmade with t' |].
    exact Hits.
  - intros t0 its made line confirm s IH Hits Hmade.
    apply IH; [now apply Hadd | exact Hmade].
  - intros t0 its made line confirm s IH Hits Hmade.
    apply IH; [now apply Hremove | exact Hmade].
  - intros t0 its made s IH Hits Hmade. now apply IH.
  - intros t0 its made s _ IH Hits Hmade. apply IH; [exact Hits |].
    intros t' its' Hin. apply in_app_or in Hin.
    destruct Hin as [Hin | [[= <- <-] | []]]; [now apply Hmade with t' |].
    exact Hits.
  - exact Hitems.
  - intros t' its' [].
Qed.

(** X15. A session that starts from a country list without duplicates
    never applies, and never ends with, a list that holds a country
    twice. *)
Theorem editor_never_submits_duplicates :
  forall (country_codes : Py.dict string) (geo : GeoRestriction)
         (apply_succeeds : nat -> bool) (lines : list string),
    NoDup (match Items geo with Some l => l | None => [] end) ->
    let s :=
      interactive_modify_restrictions country_codes geo apply_succeeds lines in
    NoDup (final_items s) /\
    forall t its, In (t, its) (attempts s) -> NoDup its.
Proof.
  intros country_codes geo apply_succeeds lines Hnd s. subst s.
  unfold interactive_modify_restrictions.
  apply (editor_items_invariant country_codes (@NoDup string)).
  - constructor.
  - intros. now apply add_country_NoDup.
  - intros. now apply remove_country_NoDup.
  - exact Hnd.
Qed.

Lemma editor_never_submits_duplicates_witness :
  let s :=
    interactive_modify_restrictions
      [("US", "United States"); ("GB", "United Kingdom")]
      {| RestrictionType := Some "whitelist"; Items := Some ["GB"] |}
      (fun _ => true)
      ["1"; "gb"; "1"; "us"; "yes"; "1"; "US"; "4"; "yes"] in
  NoDup (final_items s) /\
  forall t its, In (t, its) (attempts s) -> NoDup its.
Proof.
  cbv zeta.
  apply (editor_never_submits_duplicates
           [("US", "United States"); ("GB", "United Kingdom")]
           {| RestrictionType := Some "whitelist"; Items := Some ["GB"] |}
           (fun _ => true)
           ["1"; "gb"; "1"; "us"; "yes"; "1"; "US"; "4"; "yes"]).
  cbn. repeat constructor. intros [].
Defined.

(** X16. The editor never applies a country it does not know: every code
    in a list that is applied, or that the session ends with, was in the
    list the session started from or is a key of the country table. *)
Theorem editor_submits_known_codes_only :
  forall (country_codes : Py.dict string) (geo : GeoRestriction)
         (apply_succeeds : nat -> bool) (lines : list string),
    let start_items := match Items geo with Some l => l | None => [] end in
    let known code :=
      In code start_items \/ Py.has_key code country_codes = true in
    let s :=
      interactive_modify_restrictions country_codes geo apply_succeeds lines in
    (forall code, In code (final_items s) -> known code) /\
    forall t its code, In (t, its) (attempts s) -> In code its -> known code.
Proof.
  intros country_codes geo apply_succeeds lines start_items known s.
  subst s. unfold interactive_modify_restrictions. fold start_items.
  destruct (editor_items_invariant country_codes
              (fun its => forall code, In code its -> known code)
              apply_succeeds lines
              match RestrictionType geo with Some t => t | None => "none" end
              start_items) as [Hfinal Hattempts].
  - intros code [].
  - intros its line confirm Hits code Hcode.
    apply add_country_known in Hcode.
    destruct Hcode as [Hin | Hkey]; [now apply Hits | now right].
  - intros its line confirm Hits code Hcode.
    apply Hits. now apply remove_country_subset in Hcode.
  - intros code Hin. now left.
  - split; [exact Hfinal |].
    intros t its code Hin Hcode. now apply (Hattempts t its Hin).
Qed.

(* ================================================================== *)
(** * Further properties of the provider calls *)

(** ** The account scan *)

Lemma scan_accounts_goes_on (distribution_id account_name : string)
    (client : Client) (rest : Py.dict Client) :
  scan_goes_on (get_distribution client (JStr distribution_id)) = true ->
  scan_accounts distribution_id ((account_name, client) :: rest) =
  (fst (scan_accounts distribution_id rest),
   CallGet account_name (JStr distribution_id)
   :: snd (scan_accounts distribution_id rest)).
Proof.
  intros Hgo. cbn [scan_accounts].
  destruct (scan_accounts distribution_id rest) as [r calls]. cbn [fst snd].
  destruct (get_distribution client (JStr distribution_id))
    as [response | code |]; cbn [scan_goes_on] in Hgo.
  - unfold Py.has_key in Hgo.
    destruct (Py.get "Distribution" response); [discriminate Hgo |].
    reflexivity.
  - destruct (String.eqb (error_code_of code) "NoSuchDistribution");
      [reflexivity |].
    destruct (String.eqb (error_code_of code) "AccessDenied");
      [reflexivity |].
    destruct (String.eqb (error_code_of code) "InvalidArgument");
      [discriminate Hgo | reflexivity].
  - reflexivity.
Qed.

Lemma scan_accounts_passes (distribution_id : string)
    (passed rest : Py.dict Client) :
  Forall (fun kv =>
            scan_goes_on (get_distribution (snd kv) (JStr distribution_id))
            = true) passed ->
  scan_accounts distribution_id (passed ++ rest) =
  (fst (scan_accounts distribution_id rest),
   calls_to distribution_id passed
   ++ snd (scan_accounts distribution_id rest)).
Proof.
  induction 1 as [| [account_name client] passed Hgo _ IH].
  - cbn. now destruct (scan_accounts distribution_id rest).
  - cbn [app calls_to map fst snd] in *.
    rewrite scan_accounts_goes_on by exact Hgo. now rewrite IH.
Qed.

Lemma scan_accounts_stops (distribution_id account_name : string)
    (client : Client) (rest : Py.dict Client) :
  scan_goes_on (get_distribution client (JStr distribution_id)) = false ->
  scan_accounts distribution_id ((account_name, client) :: rest) =
  (match get_distribution client (JStr distribution_id) with
   | Returned response =>
       match Py.get "Distribution" response with
       | Some d => Some (account_name, d)
       | None => None
       end
   | _ => None
   end,
   [CallGet account_name (JStr distribution_id)]).
Proof.
  intros Hstop. cbn [scan_accounts].
  destruct (scan_accounts distribution_id rest) as [r calls].
  destruct (get_distribution client (JStr distribution_id))
    as [response | code |]; cbn [scan_goes_on] in Hstop.
  - unfold Py.has_key in Hstop.
    destruct (Py.get "Distribution" response);
      [reflexivity | discriminate Hstop].
  - apply negb_false_iff in Hstop.
    destruct (String.eqb (error_code_of code) "NoSuchDistribution") eqn:E1.
    { apply String.eqb_eq in E1, Hstop. congruence. }
    destruct (String.eqb (error_code_of code) "AccessDenied") eqn:E2.
    { apply String.eqb_eq in E2, Hstop. congruence. }
    now rewrite Hstop.
  - discriminate Hstop.
Qed.

(** X17. The first account that holds the distribution, or that rejects
    the identifier as malformed, decides the lookup.  For an identifier
    that is not blank, the accounts are queried in the order of the
    configuration; every other answer (not found, access denied, an
    unknown error code, any other exception, a response without
    [Distribution]) passes on to the next account.  The first account
    whose answer does not pass on is the last one queried, and the result
    is its distribution, or a failure when it rejected the identifier.
    When every account passes on, all are queried and the lookup fails.
    A blank identifier makes no call at all. *)
Theorem first_deciding_account_ends_the_lookup :
  forall (clients : Py.dict Client) (distribution_id : string),
    (Py.nonempty (Py.strip distribution_id) = false ->
     get_distribution_info clients distribution_id = (None, [])) /\
    (Py.nonempty (Py.strip distribution_id) = true ->
     (Forall (fun kv =>
                scan_goes_on (get_distribution (snd kv) (JStr distribution_id))
                = true) clients ->
      get_distribution_info clients distribution_id
      = (None, calls_to distribution_id clients)) /\
     (forall passed account_name client rest,
         clients = passed ++ (account_name, client) :: rest ->
         Forall (fun kv =>
                   scan_goes_on
                     (get_distribution (snd kv) (JStr distribution_id))
                   = true) passed ->
         scan_goes_on (get_distribution client (JStr distribution_id))
         = false ->
         get_distribution_info clients distribution_id =
         (match get_distribution client (JStr distribution_id) with
          | Returned response =>
              match Py.get "Distribution" response with
              | Some d => Some (account_name, d)
              | None => None
              end
          | _ => None
          end,
          calls_to distribution_id passed
          ++ [CallGet account_name (JStr distribution_id)]))).
Proof.
  intros clients distribution_id. unfold get_distribution_info. split.
  - intros Hblank. rewrite Hblank. now rewrite orb_true_r.
  - intros Hid. rewrite Hid, (strip_nonempty _ Hid). cbn [negb orb]. split.
    + intros Hall.
      rewrite <- (app_nil_r clients) at 1.
      rewrite (scan_accounts_passes _ _ _ Hall). cbn.
      now rewrite app_nil_r.
    + intros passed account_name client rest -> Hpassed Hstop.
      rewrite (scan_accounts_passes _ _ _ Hpassed).
      now rewrite (scan_accounts_stops _ _ _ _ Hstop).
Qed.

Lemma first_deciding_account_ends_the_lookup_witness :
  let answers (a : api_result (Py.dict json)) :=
    {| get_distribution := fun _ => a;
       update_distribution := fun _ _ _ => OtherError |} in
  get_distribution_info
    [("a", answers (ClientError (Some "Throttling")));
     ("b", answers OtherError);
     ("c", answers (Returned [("ETag", JStr "E1")]));
     ("d", answers (Returned [("Distribution", JDict [])]));
     ("e", answers (Returned [("Distribution", JDict [])]))]
    "E123"
  = (Some ("d", JDict []),
     [CallGet "a" (JStr "E123"); CallGet "b" (JStr "E123");
      CallGet "c" (JStr "E123"); CallGet "d" (JStr "E123")]).
Proof.
  cbv zeta.
  pose (answers := fun a : api_result (Py.dict json) =>
          {| get_distribution := fun _ : json => a;
             update_distribution :=
               fun (_ : json) (_ : Py.dict json) (_ : json) =>
                 @OtherError (Py.dict json) |}).
  destruct (first_deciding_account_ends_the_lookup
              [("a", answers (ClientError (Some "Throttling")));
               ("b", answers OtherError);
               ("c", answers (Returned [("ETag", JStr "E1")]));
               ("d", answers (Returned [("Distribution", JDict [])]));
               ("e", answers (Returned [("Distribution", JDict [])]))]
              "E123") as [_ Hscan].
  destruct (Hscan eq_refl) as [_ Hfirst].
  apply (Hfirst
           [("a", answers (ClientError (Some "Throttling")));
            ("b", answers OtherError);
            ("c", answers (Returned [("ETag", JStr "E1")]))]
           "d" (answers (Returned [("Distribution", JDict [])]))
           [("e", answers (Returned [("Distribution", JDict [])]))]).
  - reflexivity.
  - repeat constructor.
  - reflexivity.
Defined.

(** ** Applying and reading back *)

(** X18. The update is reported as done exactly when the provider
    accepted it: the method returns true exactly when the account has a
    client, the edit of the configuration went through, the second fetch
    gave an [ETag], and [update_distribution] with that configuration and
    tag returned.  Without a client for the account, or when the edit
    raises, no call is made at all. *)
Theorem apply_succeeds_only_with_accepted_update :
  forall (clients : Py.dict Client) (info : DistributionInfo)
         (restriction_type : string) (items : list string),
    let out :=
      _apply_changes_to_cloudfront clients info restriction_type items in
    (fst (fst out) = true <->
     exists client config held' current_dist etag response,
       Py.get (account info) clients = Some client /\
       update_geo_restrictions (distribution_config info) restriction_type
                               items = Some (config, held') /\
       get_distribution client (distribution_Id info)
         = Returned current_dist /\
       Py.get "ETag" current_dist = Some etag /\
       update_distribution client (distribution_Id info) config etag
         = Returned response) /\
    (Py.get (account info) clients = None \/
     update_geo_restrictions (distribution_config info) restriction_type items
       = None ->
     out = (false, [], info)).
Proof.
  intros clients info restriction_type items out. subst out.
  unfold _apply_changes_to_cloudfront. split; [split |].
  - destruct (Py.get (account info) clients) as [client |];
      [| discriminate].
    destruct (update_geo_restrictions _ _ _) as [[config held'] |];
      [| discriminate].
    destruct (get_distribution client (distribution_Id info))
      as [current_dist | code |] eqn:Hget; try discriminate.
    destruct (Py.get "ETag" current_dist) as [etag |] eqn:Hetag;
      [| discriminate].
    destruct (update_distribution client _ config etag)
      as [response | code |] eqn:Hupd; try discriminate.
    intros _. exists client, config, held', current_dist, etag, response.
    repeat split; assumption.
  - intros [client [config [held' [current_dist [etag [response
              [Hc [He [Hg [Ht Hu]]]]]]]]]].
    rewrite Hc. cbv beta iota. rewrite He. cbv beta iota zeta.
    rewrite Hg. cbv beta iota. rewrite Ht. cbv beta iota zeta.
    rewrite Hu. reflexivity.
  - intros [Hnone | Hedit].
    + now rewrite Hnone.
    + destruct (Py.get (account info) clients); [| reflexivity].
      now rewrite Hedit.
Qed.

Lemma apply_succeeds_only_with_accepted_update_witness :
  _apply_changes_to_cloudfront
    [("other", {| get_distribution := fun _ => OtherError;
                  update_distribution := fun _ _ _ => OtherError |})]
    {| account := "main"; distribution_Id := JStr "E123";
       distribution_config := [] |}
    "whitelist" ["US"]
  = (false, [],
     {| account := "main"; distribution_Id := JStr "E123";
        distribution_config := [] |}).
Proof.
  destruct (apply_succeeds_only_with_accepted_update
              [("other", {| get_distribution := fun _ => OtherError;
                            update_distribution := fun _ _ _ => OtherError |})]
              {| account := "main"; distribution_Id := JStr "E123";
                 distribution_config := [] |}
              "whitelist" ["US"]) as [_ Hnone].
  apply Hnone. left. reflexivity.
Defined.

Lemma existsb_map_JStr (c : string) (items : list string) :
  existsb (fun x => match x with
                    | JStr s => String.eqb s c
                    | _ => false
                    end) (map JStr items) = Py.mem c items.
Proof.
  unfold Py.mem. induction items as [| i items IH]; cbn; [reflexivity |].
  now rewrite IH, (String.eqb_sym i c).
Qed.

Lemma countries_by_membership_strings (keep_absent : bool)
    (items countries : list string) :
  countries_by_membership keep_absent (JList (map JStr items)) countries =
  Some (filter (fun c => Bool.eqb (Py.mem c items) (negb keep_absent))
               countries).
Proof.
  induction countries as [| c countries IH]; [reflexivity |].
  cbn [countries_by_membership json_contains filter].
  rewrite IH, existsb_map_JStr. reflexivity.
Qed.

Lemma check_raw_agrees (d : Py.dict json) (rec : GeoRestriction)
    (countries : list string) :
  Py.get "RestrictionType" d = option_map JStr (RestrictionType rec) ->
  Py.get "Items" d = option_map (fun l => JList (map JStr l)) (Items rec) ->
  check_restrictions_raw (JDict d) countries
  = Some (check_restrictions rec countries).
Proof.
  intros Htype Hitems. unfold check_restrictions_raw, check_restrictions.
  rewrite Htype, Hitems.
  assert (Hlist :
    match option_map (fun l => JList (map JStr l)) (Items rec) with
    | Some v => v
    | None => JList []
    end = JList (map JStr match Items rec with Some l => l | None => [] end)).
  { now destruct (Items rec). }
  rewrite Hlist.
  assert (Ht :
    match option_map JStr (RestrictionType rec) with
    | Some v => v
    | None => JStr "none"
    end = JStr match RestrictionType rec with Some t => t | None => "none" end).
  { now destruct (RestrictionType rec). }
  rewrite Ht, !countries_by_membership_strings.
  destruct (String.eqb _ "whitelist").
  - erewrite filter_ext; [reflexivity |].
    intros c. cbn [negb]. now destruct (Py.mem c _).
  - destruct (String.eqb _ "blacklist"); [| reflexivity].
    erewrite filter_ext; [reflexivity |].
    intros c. cbn [negb]. now destruct (Py.mem c _).
Qed.

(** X19. The whitelist check on the raw restriction dict is the check on
    its typed reading: for a dict whose [RestrictionType], when present,
    is a string and whose [Items], when present, is a list of strings, the
    lines of the source that work on the dict never raise and build the
    two lists that [check_restrictions] gives for the same type and
    items. *)
Theorem raw_check_is_typed_check :
  forall (d : Py.dict json) (rec : GeoRestriction) (countries : list string),
    Py.get "RestrictionType" d = option_map JStr (RestrictionType rec) ->
    Py.get "Items" d = option_map (fun l => JList (map JStr l)) (Items rec) ->
    check_restrictions_raw (JDict d) countries
    = Some (check_restrictions rec countries).
Proof. intros d rec countries. apply check_raw_agrees. Qed.

Lemma raw_check_is_typed_check_witness :
  check_restrictions_raw
    (JDict [("RestrictionType", JStr "whitelist"); ("Quantity", JNum 2);
            ("Items", JList [JStr "US"; JStr "IN"])])
    ["US"; "GB"; "IN"]
  = Some (["GB"], []).
Proof.
  apply (raw_check_is_typed_check
           [("RestrictionType", JStr "whitelist"); ("Quantity", JNum 2);
            ("Items", JList [JStr "US"; JStr "IN"])]
           {| RestrictionType := Some "whitelist";
              Items := Some ["US"; "IN"] |}
           ["US"; "GB"; "IN"]); reflexivity.
Defined.

Lemma get_geo_restrictions_after_edit (held config held' : Py.dict json)
    (restriction_type : string) (items : list string) :
  update_geo_restrictions held restriction_type items = Some (config, held') ->
  get_geo_restrictions config =
  Some (if String.eqb restriction_type "none"
        then match Py.get "GeoRestrictions" held with
             | Some v => v
             | None => JDict []
             end
        else geo_restriction_value restriction_type items).
Proof.
  intros Hedit.
  pose proof (update_geo_frame_top _ _ _ _ _ Hedit "GeoRestrictions") as Htop.
  pose proof (update_geo_sets_field _ _ _ _ _ Hedit) as Hfield.
  unfold get_geo_restrictions. rewrite Htop by discriminate. clear Htop.
  unfold update_geo_restrictions in Hedit. unfold restrictions_get in Hfield.
  destruct (String.eqb restriction_type "none").
  - destruct (Py.get "Restrictions" held) as [v |] eqn:Hv;
      [| injection Hedit as <- _; now rewrite Hv].
    destruct (json_contains "GeoRestriction" v) as [[|] |] eqn:Hc;
      [| | discriminate Hedit].
    + destruct v as [| | | | | d]; try discriminate Hedit.
      destruct (Py.del "GeoRestriction" d) as [| kv d'] eqn:Hd.
      * injection Hedit as <- _. now rewrite get_del_same.
      * injection Hedit as <- _. rewrite get_set_same in *.
        cbn [json_contains]. unfold Py.has_key. now rewrite Hfield.
    + destruct (json_truthy v); injection Hedit as <- _.
      * now rewrite Hv, Hc.
      * now rewrite get_del_same.
  - destruct (Py.get "Restrictions" config) as [v |] eqn:Hv;
      [| discriminate Hfield].
    destruct v as [| | | | | d]; try discriminate Hfield.
    cbn [json_contains]. unfold Py.has_key. now rewrite Hfield.
Qed.

(** X20. What is submitted reads back as what was edited.  Reading the
    geo restriction off the submitted configuration, the way
    [get_geo_restrictions] does, gives the dict with the applied type and
    country list (with [Quantity] their number); after clearing it gives
    the top-level [GeoRestrictions] entry, or the empty dict.  So the
    whitelist check on the dict read back is the check against the
    applied list. *)
Theorem submitted_restriction_reads_back :
  forall (held config held' : Py.dict json)
         (restriction_type : string) (items : list string),
    update_geo_restrictions held restriction_type items
      = Some (config, held') ->
    get_geo_restrictions config =
      Some (if String.eqb restriction_type "none"
            then match Py.get "GeoRestrictions" held with
                 | Some v => v
                 | None => JDict []
                 end
            else geo_restriction_value restriction_type items) /\
    (restriction_type <> "none" ->
     forall countries,
       exists read_back,
         get_geo_restrictions config = Some read_back /\
         check_restrictions_raw read_back countries =
         Some (check_restrictions
                 {| RestrictionType := Some restriction_type;
                    Items := Some items |} countries)).
Proof.
  intros held config held' restriction_type items Hedit.
  pose proof (get_geo_restrictions_after_edit _ _ _ _ _ Hedit) as Hread.
  split; [exact Hread |].
  intros Hne countries. apply String.eqb_neq in Hne. rewrite Hne in Hread.
  exists (geo_restriction_value restriction_type items).
  split; [exact Hread |]. unfold geo_restriction_value.
  now apply check_raw_agrees.
Qed.

Lemma submitted_restriction_reads_back_witness :
  let held :=
    [("Comment", JStr "c");
     ("Restrictions",
      JDict [("GeoRestriction", geo_restriction_value "whitelist" ["GB"])])] in
  exists config held',
    update_geo_restrictions held "blacklist" ["FR"] = Some (config, held') /\
    get_geo_restrictions config
    = Some (geo_restriction_value "blacklist" ["FR"]).
Proof.
  cbv zeta. eexists. eexists. split; [reflexivity |].
  refine (proj1 (submitted_restriction_reads_back
                   [("Comment", JStr "c");
                    ("Restrictions",
                     JDict [("GeoRestriction",
                             geo_restriction_value "whitelist" ["GB"])])]
                   _ _ "blacklist" ["FR"] _)).
  reflexivity.
Defined.

(* ================================================================== *)
(** * Further properties: the report and the clients *)

Lemma display_name_unknown (codes : Py.dict string) (code : string) :
  Py.has_key code codes = false -> display_name codes code = code.
Proof.
  unfold display_name, Py.has_key.
  now destruct (Py.get code codes).
Qed.

(** X21. The report and the whitelist check read the restriction type the
    same way.  The report is [No geo restrictions] exactly when the type
    is neither [whitelist] nor [blacklist], which is when the check
    compares nothing; for an allow-list it is [ALLOWED Countries:] and for
    a block-list [BLOCKED Countries:], followed by the display names
    joined by commas.  A code the table has no name for is shown as it
    is, so with an empty table (the fallback when the lookup file is
    missing) the report lists the codes themselves. *)
Theorem report_names_the_restriction_kind :
  forall (codes : Py.dict string) (rec : GeoRestriction),
    (format_geo_restrictions codes rec = "No geo restrictions"
     <-> kind_of rec = NONE) /\
    format_geo_restrictions codes rec =
      match kind_of rec with
      | NONE => "No geo restrictions"
      | ALLOW_LIST =>
          "ALLOWED Countries: "
          +++ join ", " (map (display_name codes) (items_of rec))
      | BLOCK_LIST =>
          "BLOCKED Countries: "
          +++ join ", " (map (display_name codes) (items_of rec))
      end /\
    map (display_name []) (items_of rec) = items_of rec /\
    (forall code, Py.has_key code codes = false ->
                  display_name codes code = code).
Proof.
  intros codes rec.
  assert (Hfmt :
    format_geo_restrictions codes rec =
      match kind_of rec with
      | NONE => "No geo restrictions"
      | ALLOW_LIST =>
          "ALLOWED Countries: "
          +++ join ", " (map (display_name codes) (items_of rec))
      | BLOCK_LIST =>
          "BLOCKED Countries: "
          +++ join ", " (map (display_name codes) (items_of rec))
      end).
  { unfold format_geo_restrictions, kind_of, items_of.
    destruct (RestrictionType rec) as [t |]; [| reflexivity].
    destruct (String.eqb t "whitelist"); [reflexivity |].
    now destruct (String.eqb t "blacklist"). }
  split; [| split; [exact Hfmt | split]].
  - rewrite Hfmt. destruct (kind_of rec); split; intros H;
      try reflexivity; discriminate H.
  - clear Hfmt. induction (items_of rec) as [| c l IH]; cbn;
      [reflexivity |].
    now rewrite IH.
  - intros code. apply display_name_unknown.
Qed.

Lemma has_key_set {V : Type} (k k' : string) (v : V) (d : Py.dict V) :
  Py.has_key k (Py.set k' v d) = String.eqb k' k || Py.has_key k d.
Proof.
  unfold Py.has_key. rewrite get_set.
  now destruct (String.eqb k' k).
Qed.

Lemma initialize_fold_keys
    (boto3_client : Py.dict string -> option Client) (name : string)
    (aws_accounts : list (Py.dict string)) :
  forall clients,
    Py.has_key name
      (fold_left
         (fun clients account =>
            if forallb (field_given account) required_fields then
              match boto3_client (client_params account) with
              | Some client =>
                  Py.set (Py.str_of (Py.get "account_name" account))
                         client clients
              | None => clients
              end
            else clients)
         aws_accounts clients) = true <->
    Py.has_key name clients = true \/
    exists account,
      In account aws_accounts /\
      forallb (field_given account) required_fields = true /\
      boto3_client (client_params account) <> None /\
      Py.get "account_name" account = Some name.
Proof.
  induction aws_accounts as [| a accounts IH]; intros clients;
    cbn [fold_left].
  - split; [now left | intros [H | [account [[] _]]]; exact H].
  - rewrite IH. clear IH. split.
    + intros [Hkey | [account [Hin Hrest]]];
        [| right; exists account; split; [now right | exact Hrest]].
      destruct (forallb (field_given a) required_fields) eqn:Hreq;
        [| now left].
      destruct (boto3_client (client_params a)) as [client |] eqn:Hmk;
        [| now left].
      rewrite has_key_set in Hkey. apply orb_true_iff in Hkey.
      destruct Hkey as [Hname | Hkey]; [| now left].
      right. exists a. apply String.eqb_eq in Hname.
      repeat split; [now left | exact Hreq | congruence |].
      cbn in Hreq. unfold field_given at 1 in Hreq.
      destruct (Py.get "account_name" a) as [n |]; [| discriminate Hreq].
      cbn in Hname. now subst.
    + intros [Hkey | [account [[<- | Hin] [Hreq [Hmk Hname]]]]].
      * left. destruct (forallb (field_given a) required_fields);
          [| exact Hkey].
        destruct (boto3_client (client_params a)); [| exact Hkey].
        rewrite has_key_set, Hkey. apply orb_true_r.
      * left. rewrite Hreq.
        destruct (boto3_client (client_params a)); [| now elim Hmk].
        rewrite has_key_set, Hname. cbn [Py.str_of].
        now rewrite String.eqb_refl.
      * right. exists account. now repeat split.
Qed.

(** X22. Which accounts get a client.  An account name is a key of the
    clients exactly when some configured account of that name gives all
    four required fields (name, access key, secret key, region), each
    non-empty, and [boto3.client] made a client for it.  An account that
    lacks one of them gets no client. *)
Theorem clients_are_the_complete_accounts :
  forall (boto3_client : Py.dict string -> option Client)
         (aws_accounts : list (Py.dict string)) (name : string),
    Py.has_key name (_initialize_clients boto3_client aws_accounts) = true
    <->
    exists account,
      In account aws_accounts /\
      forallb (field_given account) required_fields = true /\
      boto3_client (client_params account) <> None /\
      Py.get "account_name" account = Some name.
Proof.
  intros boto3_client aws_accounts name. unfold _initialize_clients.
  rewrite initialize_fold_keys. split.
  - intros [H | H]; [discriminate H | exact H].
  - intros H. now right.
Qed.

(* ================================================================== *)
(** * Further properties: the whitelist check of a channel *)



(** X24. End to end, on the data as the files and the provider give it.
    When the delivery details hold a setup value, the resolution finds
    at least one country, an account returns the distribution, and its
    geo restriction has a string type and a list of string codes, the
    check ends with the comparison, and the two lists it warns about are
    those of [check_restrictions] for the resolved countries. *)
Theorem channel_check_compares_resolved_countries :
  forall (self : Manager) (clients : Py.dict Client) (details : json)
         (distribution_id account_name : string)
         (distribution config level : Py.dict json) (rec : GeoRestriction),
    let countries :=
      res_countries
        (resolve_countries (cluster_regions self)
           (regions_dict
              (resolve_setups (cluster_regions self)
                              (extract_setup_values details)))) in
    json_truthy details = true ->
    extract_setup_values details <> [] ->
    countries <> [] ->
    fst (get_distribution_info clients distribution_id)
      = Some (account_name, JDict distribution) ->
    Py.get "DistributionConfig" distribution = Some (JDict config) ->
    get_geo_restrictions config = Some (JDict level) ->
    Py.get "RestrictionType" level = option_map JStr (RestrictionType rec) ->
    Py.get "Items" level
      = option_map (fun l => JList (map JStr l)) (Items rec) ->
    fst (fst (check_channel_whitelist_status self clients (Some details)
                                             distribution_id))
    = Compared (fst (check_restrictions rec countries))
               (snd (check_restrictions rec countries)).
Proof.
  intros self clients details distribution_id account_name
         distribution config level rec countries
         Htruthy Hsetups Hcountries Hinfo Hconfig Hlevel Htype Hitems.
  unfold check_channel_whitelist_status. rewrite Htruthy. cbn [negb].
  unfold resolve_channel.
  destruct (extract_setup_values details) as [| s setups] eqn:Hextract;
    [now elim Hsetups |].
  unfold get_regions_for_setups, get_countries_for_regions.
  cbn [cluster_regions]. fold countries.
  destruct countries as [| c cs] eqn:Hc; [now elim Hcountries |].
  destruct (get_distribution_info clients distribution_id) as [info calls].
  cbn [fst] in Hinfo. subst info.
  cbn [get_geo_restrictions_of]. rewrite Hconfig, Hlevel.
  rewrite (check_raw_agrees level rec (c :: cs) Htype Hitems).
  now destruct (check_restrictions rec (c :: cs)).
Qed.

Lemma channel_check_compares_resolved_countries_witness :
  let self :=
    {| country_codes := [];
       cluster_regions :=
         {| aws_eks_clusters := [];
            gcp_gke_clusters :=
              [("ts-us-e1-n2-gke",
                {| region := Some "us-east1"; location := Some "SC";
                   country := Some "US" |})] |};
       found_setups := None;
       not_found_setups := None;
       found_locations := None;
       missing_country_clusters := None |} in
  let level :=
    [("RestrictionType", JStr "whitelist"); ("Quantity", JNum 1);
     ("Items", JList [JStr "GB"])] in
  let config := [("Restrictions", JDict [("GeoRestriction", JDict level)])] in
  let distribution :=
    [("Id", JStr "E123"); ("DistributionConfig", JDict config)] in
  let client :=
    {| get_distribution := fun _ =>
         Returned [("ETag", JStr "E1"); ("Distribution", JDict distribution)];
       update_distribution := fun _ _ _ => OtherError |} in
  fst (fst (check_channel_whitelist_status self [("main", client)]
              (Some (JDict [("deploy",
                             JDict [("setup", JStr "ts-us-e1-n2")])]))
              "E123"))
  = Compared ["US"] [].
Proof.
  cbv zeta.
  pose (level :=
    [("RestrictionType", JStr "whitelist"); ("Quantity", JNum 1);
     ("Items", JList [JStr "GB"])]).
  pose (config := [("Restrictions", JDict [("GeoRestriction", JDict level)])]).
  pose (distribution :=
    [("Id", JStr "E123"); ("DistributionConfig", JDict config)]).
  apply (channel_check_compares_resolved_countries
           {| country_codes := [];
              cluster_regions :=
                {| aws_eks_clusters := [];
                   gcp_gke_clusters :=
                     [("ts-us-e1-n2-gke",
                       {| region := Some "us-east1"; location := Some "SC";
                          country := Some "US" |})] |};
              found_setups := None;
              not_found_setups := None;
              found_locations := None;
              missing_country_clusters := None |}
           [("main",
             {| get_distribution := fun _ : json =>
                  Returned [("ETag", JStr "E1");
                            ("Distribution", JDict distribution)];
                update_distribution :=
                  fun (_ : json) (_ : Py.dict json) (_ : json) =>
                    @OtherError (Py.dict json) |})]
           (JDict [("deploy", JDict [("setup", JStr "ts-us-e1-n2")])])
           "E123" "main" distribution config level
           {| RestrictionType := Some "whitelist"; Items := Some ["GB"] |});
    try reflexivity; discriminate.
Defined.

(* ================================================================== *)
(** * Further properties: extraction and the whole resolution *)

(** X25. Extraction goes through a tree part by part: the setup values
    of a sequence are those of its items, one after the other, and those
    of a mapping are, member by member, the value itself when the key is
    [setup] and the value a string, followed by the setup values found
    inside the value.  Splitting a sequence or a mapping in two splits
    the result the same way. *)
Theorem extraction_goes_part_by_part :
  forall (xs ys : list json) (ms ns : list (string * json)),
    extract_setup_values (JList (xs ++ ys)) =
      extract_setup_values (JList xs) ++ extract_setup_values (JList ys) /\
    extract_setup_values (JDict (ms ++ ns)) =
      extract_setup_values (JDict ms) ++ extract_setup_values (JDict ns) /\
    extract_setup_values (JList xs) = flat_map extract_setup_values xs /\
    extract_setup_values (JDict ms) =
      flat_map (fun kv => setup_string_of kv ++ extract_setup_values (snd kv))
               ms.
Proof.
  intros xs ys ms ns. unfold extract_setup_values.
  rewrite !extract_acc_appends. cbn [app].
  assert (Hlist : forall l,
             setup_strings (JList l) = flat_map setup_strings l).
  { induction l as [| x l IH]; [reflexivity |].
    rewrite setup_strings_list_cons, IH. reflexivity. }
  assert (Hdict : forall m,
             setup_strings (JDict m) =
             flat_map (fun kv => setup_string_of kv ++ setup_strings (snd kv))
                      m).
  { induction m as [| [k v] m IH]; [reflexivity |].
    rewrite setup_strings_dict_cons, IH. cbn [flat_map snd].
    now rewrite <- app_assoc. }
  rewrite !Hlist, !Hdict, !flat_map_app.
  repeat split.
  - apply flat_map_ext. intros x. now rewrite extract_acc_appends.
  - apply flat_map_ext. intros kv. now rewrite extract_acc_appends.
Qed.

(** X26. Countries are reached through regions, not through clusters.
    With the regions of the setup resolution passed on to the country
    resolution, a code is returned exactly when, within one partition,
    some entry matches a setup (AWS: by its key; GCP: by its key or by
    the key with [-gke] removed) and has a non-empty region, and some
    entry of that partition, the same or another, has that region, a
    non-empty location and the code as its country. *)
Theorem countries_come_through_shared_regions :
  forall (cr : ClusterRegions) (setups : list string) (code : string),
    In code
       (res_countries
          (resolve_countries cr (regions_dict (resolve_setups cr setups))))
    <->
    (exists k info r name located,
        In (k, info) (aws_eks_clusters cr) /\ In k setups /\
        region info = Some r /\ r <> EmptyString /\
        In (name, located) (aws_eks_clusters cr) /\
        region located = Some r /\
        Py.truthy (location located) = true /\
        country located = Some code /\ code <> EmptyString) \/
    (exists k info r name located,
        In (k, info) (gcp_gke_clusters cr) /\
        (In k setups \/ In (Py.replace_gke k) setups) /\
        region info = Some r /\ r <> EmptyString /\
        In (name, located) (gcp_gke_clusters cr) /\
        region located = Some r /\
        Py.truthy (location located) = true /\
        country located = Some code /\ code <> EmptyString).
Proof.
  intros cr setups code. rewrite countries_iff_located_entries.
  split.
  - intros [cloud_type [rs [r [name [located
             [Hreg [Hr [Hin [Hregion [Hloc [Hc Hne]]]]]]]]]]].
    unfold regions_dict in Hreg.
    destruct Hreg as [[= <- <-] | [[= <- <-] | []]].
    + left. apply (regions_iff_matching_entries cr setups r) in Hr.
      destruct Hr as [k [info [Hk [Hs [Hkr Hkne]]]]].
      exists k, info, r, name, located. unfold clusters_for in Hin.
      cbn in Hin. tauto.
    + right. apply (regions_iff_matching_entries cr setups r) in Hr.
      destruct Hr as [k [info [Hk [Hs [Hkr Hkne]]]]].
      exists k, info, r, name, located. unfold clusters_for in Hin.
      cbn in Hin. tauto.
  - intros [[k [info [r [name [located H]]]]]
           | [k [info [r [name [located H]]]]]].
    + exists "aws", (regions_aws (resolve_setups cr setups)), r, name, located.
      repeat split; try tauto.
      * left. reflexivity.
      * apply (regions_iff_matching_entries cr setups r).
        exists k, info. tauto.
    + exists "gcp", (regions_gcp (resolve_setups cr setups)), r, name, located.
      repeat split; try tauto.
      * right. left. reflexivity.
      * apply (regions_iff_matching_entries cr setups r).
        exists k, info. tauto.
Qed.

(* ================================================================== *)
(** * Further properties: the held configuration *)

(** X27. Applying rewrites the held configuration in place, whether or
    not the update goes through.  When the account has a client and the
    held configuration has a [Restrictions] dict, then after the call
    with a type other than [none] the geo restriction read off the held
    configuration is the edited one, even when the second fetch or the
    update failed; with the type [none] the held [Restrictions] has lost
    its [GeoRestriction].  A held configuration without [Restrictions] is
    left as it was: the key is added to the submitted copy only. *)
Theorem apply_rewrites_held_restrictions :
  forall (clients : Py.dict Client) (info : DistributionInfo)
         (restriction_type : string) (items : list string) (client : Client),
    Py.get (account info) clients = Some client ->
    let held := distribution_config info in
    let held_after :=
      distribution_config
        (snd (_apply_changes_to_cloudfront clients info restriction_type
                                           items)) in
    (forall d,
        Py.get "Restrictions" held = Some (JDict d) ->
        restriction_type <> "none" ->
        get_geo_restrictions held_after
        = Some (geo_restriction_value restriction_type items)) /\
    (forall d,
        Py.get "Restrictions" held = Some (JDict d) ->
        restriction_type = "none" ->
        restrictions_get "GeoRestriction" held_after = None) /\
    (Py.get "Restrictions" held = None -> held_after = held).
Proof.
  intros clients info restriction_type items client Hclient held held_after.
  assert (Hafter :
    forall config held',
      update_geo_restrictions held restriction_type items
        = Some (config, held') ->
      held_after = held').
  { intros config held' Hedit. subst held_after held.
    unfold _apply_changes_to_cloudfront. rewrite Hclient, Hedit.
    destruct (get_distribution client (distribution_Id info))
      as [current_dist | code |]; try reflexivity.
    destruct (Py.get "ETag" current_dist) as [etag |]; [| reflexivity].
    now destruct (update_distribution client _ config etag). }
  split; [| split].
  - intros d Hd Hne. apply String.eqb_neq in Hne.
    rewrite (Hafter
               (Py.set "Restrictions"
                  (JDict (Py.set "GeoRestriction"
                            (geo_restriction_value restriction_type items) d))
                  held)
               (Py.set "Restrictions"
                  (JDict (Py.set "GeoRestriction"
                            (geo_restriction_value restriction_type items) d))
                  held)).
    + unfold get_geo_restrictions. rewrite get_set_same.
      cbn [json_contains]. unfold Py.has_key.
      now rewrite get_set_same.
    + unfold update_geo_restrictions. now rewrite Hne, Hd.
  - intros d Hd ->.
    destruct (update_geo_restrictions held "none" items)
      as [[config held'] |] eqn:Hedit.
    + rewrite (Hafter _ _ eq_refl).
      unfold update_geo_restrictions in Hedit.
      rewrite String.eqb_refl, Hd in Hedit.
      cbn [json_contains] in Hedit. unfold restrictions_get.
      destruct (Py.has_key "GeoRestriction" d) eqn:Hk.
      * assert (held' = Py.set "Restrictions"
                          (JDict (Py.del "GeoRestriction" d)) held) as ->
          by (destruct (Py.del "GeoRestriction" d); now inversion Hedit).
        rewrite get_set_same. apply get_del_same.
      * assert (held' = held) as ->
          by (destruct (json_truthy (JDict d)); now inversion Hedit).
        rewrite Hd. now apply has_key_false.
    + exfalso. unfold update_geo_restrictions in Hedit.
      rewrite String.eqb_refl, Hd in Hedit. cbn [json_contains] in Hedit.
      destruct (Py.has_key "GeoRestriction" d).
      * destruct (Py.del "GeoRestriction" d); discriminate Hedit.
      * destruct (json_truthy (JDict d)); discriminate Hedit.
  - intros Hnone.
    destruct (update_geo_restrictions held restriction_type items)
      as [[config held'] |] eqn:Hedit.
    + rewrite (Hafter _ _ eq_refl).
      unfold update_geo_restrictions in Hedit. rewrite Hnone in Hedit.
      destruct (String.eqb restriction_type "none"); now inversion Hedit.
    + exfalso. unfold update_geo_restrictions in Hedit.
      rewrite Hnone in Hedit.
      destruct (String.eqb restriction_type "none"); discriminate Hedit.
Qed.

Lemma apply_rewrites_held_restrictions_witness :
  let held :=
    [("Comment", JStr "c");
     ("Restrictions",
      JDict [("GeoRestriction", geo_restriction_value "whitelist" ["GB"])])] in
  let client :=
    {| get_distribution := fun _ => ClientError (Some "AccessDenied");
       update_distribution := fun _ _ _ => OtherError |} in
  let out :=
    _apply_changes_to_cloudfront
      [("main", client)]
      {| account := "main"; distribution_Id := JStr "E123";
         distribution_config := held |}
      "whitelist" ["GB"; "US"] in
  fst (fst out) = false /\
  get_geo_restrictions (distribution_config (snd out))
  = Some (geo_restriction_value "whitelist" ["GB"; "US"]).
Proof.
  cbv zeta. split; [reflexivity |].
  pose (client :=
    {| get_distribution := fun _ : json =>
         @ClientError (Py.dict json) (Some "AccessDenied");
       update_distribution :=
         fun (_ : json) (_ : Py.dict json) (_ : json) =>
           @OtherError (Py.dict json) |}).
  destruct (apply_rewrites_held_restrictions
              [("main", client)]
              {| account := "main"; distribution_Id := JStr "E123";
                 distribution_config :=
                   [("Comment", JStr "c");
                    ("Restrictions",
                     JDict [("GeoRestriction",
                             geo_restriction_value "whitelist" ["GB"])])] |}
              "whitelist" ["GB"; "US"] client eq_refl) as [Hedit _].
  apply (Hedit [("GeoRestriction", geo_restriction_value "whitelist" ["GB"])]).
  - reflexivity.
  - discriminate.
Defined.

(* ================================================================== *)
(** * Further properties: the found-setups labels *)

Lemma aws_step_found_source (setups : list string) (k : string)
    (info : ClusterInfo) (st : list string * list string) (label : string) :
  In label (snd (aws_cluster_step setups st (k, info))) ->
  In label (snd st) \/
  (label = k /\ In k setups /\
   exists r, region info = Some r /\ r <> EmptyString).
Proof.
  unfold aws_cluster_step.
  destruct (Py.mem k setups) eqn:Hk; [| now left].
  destruct (region info) as [r |]; [| now left].
  destruct (Py.nonempty r) eqn:Hne; [| now left].
  cbn [snd]. intros Hin. apply in_app_or in Hin.
  destruct Hin as [Hin | [<- | []]]; [now left |].
  right. repeat split; [now apply mem_In |].
  exists r. split; [reflexivity | now apply nonempty_iff].
Qed.

Lemma gcp_step_found_source (setups : list string) (k : string)
    (info : ClusterInfo) (st : list string * list string) (label : string) :
  In label (snd (gcp_cluster_step setups st (k, info))) ->
  In label (snd st) \/
  ((exists r, region info = Some r /\ r <> EmptyString) /\
   ((label = k /\ In k setups) \/
    (label = mapped_label (Py.replace_gke k) k /\ ~ In k setups /\
     In (Py.replace_gke k) setups))).
Proof.
  unfold gcp_cluster_step.
  destruct (Py.mem k setups) eqn:Hk.
  - destruct (region info) as [r |]; [| now left].
    destruct (Py.nonempty r) eqn:Hne; [| now left].
    cbn [snd]. intros Hin. apply in_app_or in Hin.
    destruct Hin as [Hin | [<- | []]]; [now left |].
    right. split.
    + exists r. split; [reflexivity | now apply nonempty_iff].
    + left. split; [reflexivity | now apply mem_In].
  - destruct (Py.mem (Py.replace_gke k) setups) eqn:Hbase; [| now left].
    destruct (region info) as [r |]; [| now left].
    destruct (Py.nonempty r) eqn:Hne; [| now left].
    cbn [snd]. intros Hin. apply in_app_or in Hin.
    destruct Hin as [Hin | [<- | []]]; [now left |].
    right. split.
    + exists r. split; [reflexivity | now apply nonempty_iff].
    + right. repeat split; [now apply mem_not_In | now apply mem_In].
Qed.

(** X2. What the found-setups list holds.  It has one label per resolved
    region: it is as long as the two region lists together.  And a label
    is in it exactly when it is the key of an AWS or GCP entry that is a
    setup value and has a non-empty region, or [base (mapped to key)] for
    a GCP entry with a non-empty region whose key is no setup value while
    the key with [-gke] removed is one.  So an entry without a region
    never puts a label in the list. *)
Theorem one_found_label_per_region :
  forall (cr : ClusterRegions) (setups : list string),
    let res := resolve_setups cr setups in
    List.length (res_found_setups res)
    = List.length (regions_aws res) + List.length (regions_gcp res) /\
    forall label,
      In label (res_found_setups res) <->
      (exists k info r,
          region info = Some r /\ r <> EmptyString /\
          In k setups /\ label = k /\
          (In (k, info) (aws_eks_clusters cr) \/
           In (k, info) (gcp_gke_clusters cr))) \/
      (exists k info r,
          region info = Some r /\ r <> EmptyString /\
          In (k, info) (gcp_gke_clusters cr) /\
          ~ In k setups /\ In (Py.replace_gke k) setups /\
          label = mapped_label (Py.replace_gke k) k).
Proof.
  intros cr setups res. split.
  - subst res. apply one_found_label_per_region_aux.
  - intros label. subst res. cbn [resolve_setups res_found_setups]. split.
    + revert label.
      apply (fold_left_invariant (gcp_cluster_step setups)
               (fun st => forall label, In label (snd st) -> _)).
      * intros st [k info] Hin IH label Hlabel.
        apply gcp_step_found_source in Hlabel.
        destruct Hlabel as [Hold | [[r [Hr Hne]] [[-> Hk] | [-> [Hnk Hbase]]]]].
        -- now apply IH.
        -- left. exists k, info, r. tauto.
        -- right. exists k, info, r. tauto.
      * cbn [snd].
        apply (fold_left_invariant (aws_cluster_step setups)
                 (fun st => forall label, In label (snd st) -> _)).
        -- intros st [k info] Hin IH label Hlabel.
           apply aws_step_found_source in Hlabel.
           destruct Hlabel as [Hold | [-> [Hk [r [Hr Hne]]]]].
           ++ now apply IH.
           ++ left. exists k, info, r. tauto.
        -- intros label [].
    + intros [[k [info [r [Hr [Hne [Hk [-> Hin]]]]]]]
             | [k [info [r [Hr [Hne [Hin [Hnk [Hbase ->]]]]]]]]].
      * apply mem_In in Hk. apply nonempty_true in Hne.
        destruct Hin as [Haws | Hgcp].
        -- apply gcp_fold_found_grows. cbn [snd].
           now apply aws_fold_records_exact with (info := info) (r := r).
        -- now apply gcp_fold_records_exact with (info := info) (r := r).
      * apply mem_not_In in Hnk. apply mem_In in Hbase.
        apply nonempty_true in Hne.
        now apply gcp_fold_records_mapped with (info := info) (r := r).
Qed.
